(** * opencode-custom: storage backends and retry controller

    A shallow embedding of

    - [packages/opencode/src/session/retry.ts]            (namespace [SessionRetry]),
    - [packages/opencode/src/storage/multi-sqlite-backend.ts] (class [MultiSqliteBackend]),
    - [packages/opencode/src/storage/json-backend.ts]     (class [JsonBackend]),
    - [packages/opencode/src/storage/sqlite-backend.ts]   (class [SqliteBackend]),

    followed by the properties of the specification that concern them.

    Conventions.
    - A JavaScript [number] is the rational value ([Q]) of a finite double;
      [NaN] only arises from [Number.parseFloat] and [Date.parse] and is the
      [None] of their result.  Products and powers are rounded to the nearest
      double as IEEE 754 prescribes ([SessionRetry.double]); the sums and
      differences of the source, of clock values and durations, are those of
      integers and exact.  [Infinity] is not represented: a result beyond
      the largest double stays the finite number it is, which compares with
      the finite bounds of the source as [Infinity] does, and the value of a
      function is stated where it is finite.
    - A [string] is the sequence of the bytes of its UTF-8 encoding, as the
      databases and the file system see it.
    - A value of type [string | undefined] is an [option string].
    - [async] methods are run to completion one after the other; a thrown
      exception is the [Throw] outcome of the operation, next to the state
      the operation leaves behind. *)

From stdpp Require Import gmap strings list fin_maps sorting.
From Stdlib Require Import Ascii QArith Qround Qpower Qabs Lqa.
Close Scope Q_scope.
#[global] Set Warnings "-clear-no-such-hyp".

(** ** Part I: the program *)

(** *** JavaScript values *)

(** [if (s)] on a [string | undefined]: defined and not empty. *)
Definition truthy (s : option string) : option string :=
  match s with
  | Some s' => if decide (s' = "") then None else Some s'
  | None => None
  end.

(** *** session/retry.ts *)

Module SessionRetry.
Local Open Scope Q_scope.

Definition RETRY_INITIAL_DELAY : Q := 2000.
Definition RETRY_BACKOFF_FACTOR : Q := 2.
Definition RETRY_MAX_DELAY_NO_HEADERS : Q := 30000.

(** [MessageV2.APIError]: only [error.data.responseHeaders] is read. *)
Record APIError := { responseHeaders : option (gmap string string) }.

(** The argument object of [getBoundedDelay]. *)
Record BoundedArgs := {
  error : APIError;
  attempt : Z;
  startTime : Q;
  maxDuration : option Q
}.

(** [a > b] *)
Definition gt (a b : Q) : bool := negb (Qle_bool a b).
(** [a <= b] *)
Definition le (a b : Q) : bool := Qle_bool a b.

Definition Math_min (a b : Q) : Q := if Qle_bool a b then a else b.
Definition Math_ceil (a : Q) : Q := inject_Z (Qceiling a).
(** [Number.MAX_VALUE], the largest finite double. *)
Definition Number_MAX_VALUE : Q := (2 ^ 53 - 1) * 2 ^ 971.

(** The double nearest to a real number, ties to even: the rounding of the
    arithmetic on numbers (IEEE 754 binary64, 53 bits of precision, the
    smallest spacing [2^-1074]).  [exponent a] is the [e] with
    [2^e <= a < 2^(e+1)].  The rounding of the source gives [Infinity]
    beyond [Number_MAX_VALUE], where [double] stays finite; values are
    stated within it. *)
Definition round_half_even (x : Q) : Z :=
  let f := Qfloor x in
  match Qcompare (x - inject_Z f) (1 # 2) with
  | Lt => f
  | Gt => (f + 1)%Z
  | Eq => if Z.even f then f else (f + 1)%Z
  end.

Definition exponent (a : Q) : Z :=
  let e := (Z.log2 (Qnum a) - Z.log2 (Zpos (Qden a)))%Z in
  if Qle_bool (2 ^ e) a then e else (e - 1)%Z.

Definition double (x : Q) : Q :=
  if Qeq_bool x 0 then 0
  else
    let a := Qabs x in
    let ulp := 2 ^ Z.max (exponent a - 52) (-1074) in
    let m := Qred (inject_Z (round_half_even (a / ulp)) * ulp) in
    if Qle_bool 0 x then m else - m.

(** [a * b] on numbers. *)
Definition times (a b : Q) : Q := double (a * b).

(** [Math.pow(b, e)] for an integer [e]: the double nearest to the power,
    as the runtime returns it for the powers of two of the source; below
    [2^-1074] that is 0. *)
Definition Math_pow (b : Q) (e : Z) : Q := double (Qpower b e).

Section Runtime.
(** The two parsers of the JavaScript runtime; [None] is [NaN]. *)
Variable parseFloat : string -> option Q.
Variable Date_parse : string -> option Q.

(** [delay(error, attempt)]; [now] is the value of [Date.now()]. *)
Definition delay (now : Q) (error : APIError) (attempt : Z) : Q :=
  match responseHeaders error with
  | Some headers =>
      let exponential :=
        times RETRY_INITIAL_DELAY
          (Math_pow RETRY_BACKOFF_FACTOR (attempt - 1)) in
      match truthy (headers !! "retry-after-ms") ≫= parseFloat with
      | Some parsedMs => parsedMs
      | None =>
          match truthy (headers !! "retry-after") with
          | Some retryAfter =>
              match parseFloat retryAfter with
              | Some parsedSeconds => Math_ceil (times parsedSeconds 1000)
              | None =>
                  match Date_parse retryAfter with
                  | Some date =>
                      let parsed := date - now in
                      if gt parsed 0 then Math_ceil parsed else exponential
                  | None => exponential
                  end
              end
          | None => exponential
          end
      end
  | None =>
      Math_min
        (times RETRY_INITIAL_DELAY
           (Math_pow RETRY_BACKOFF_FACTOR (attempt - 1)))
        RETRY_MAX_DELAY_NO_HEADERS
  end.

(** [getRetryDelayInMs(error, attempt)]; [None] is [undefined]. *)
Definition getRetryDelayInMs (now : Q) (error : APIError) (attempt : Z)
  : option Q :=
  let TEN_MINUTES : Q := 600000 in
  match responseHeaders error with
  | Some _ =>
      let baseDelay := delay now error attempt in
      if gt baseDelay TEN_MINUTES then None else Some baseDelay
  | None =>
      let exponential :=
        times RETRY_INITIAL_DELAY
          (Math_pow RETRY_BACKOFF_FACTOR (attempt - 1)) in
      if gt exponential TEN_MINUTES then None else Some exponential
  end.

(** [getBoundedDelay(args)].  [now] is the [Date.now()] read by this
    function, [later] the one read afterwards inside [delay]. *)
Definition getBoundedDelay (now later : Q) (args : BoundedArgs) : option Q :=
  let RETRY_TIMEOUT := default 600000 (maxDuration args) in
  let elapsedTime := now - startTime args in
  let remainingTime := RETRY_TIMEOUT - elapsedTime in
  if le remainingTime 0 then None
  else
    match getRetryDelayInMs later (error args) (attempt args) with
    | None => None
    | Some retryDelay =>
        let boundedDelay := Math_min retryDelay remainingTime in
        if gt boundedDelay 0 then Some boundedDelay else None
    end.
End Runtime.

(** The fragment of [Number.parseFloat] on strings of decimal digits,
    used to run the functions above on concrete headers. *)
Fixpoint digits (acc : N) (s : string) : option N :=
  match s with
  | EmptyString => Some acc
  | String c s' =>
      let n := Ascii.N_of_ascii c in
      if ((48 <=? n) && (n <=? 57))%N
      then digits (acc * 10 + (n - 48))%N s'
      else None
  end.

Definition parseDigits (s : string) : option Q :=
  match s with
  | EmptyString => None
  | _ => (fun n : N => inject_Z (Z.of_N n)) <$> digits 0%N s
  end.

(** The fragment of [Number.parseFloat] on decimal literals, [digits] or
    [digits.digits]: the double nearest to the decimal. *)
Fixpoint before_dot (s : string) : string * option string :=
  match s with
  | EmptyString => (EmptyString, None)
  | String c s' =>
      if Ascii.eqb c "."%char then (EmptyString, Some s')
      else let (a, b) := before_dot s' in (String c a, b)
  end.

Definition parseDecimal (s : string) : option Q :=
  match before_dot s with
  | (EmptyString, _) | (_, Some EmptyString) => None
  | (int, None) => (fun n : N => double (inject_Z (Z.of_N n))) <$> digits 0%N int
  | (int, Some frac) =>
      match digits 0%N int, digits 0%N frac with
      | Some i, Some f =>
          Some (double (inject_Z (Z.of_N i)
                        + (Z.of_N f # Pos.pow 10 (Pos.of_nat (String.length frac)))))
      | _, _ => None
      end
  end.

(** A [Date.parse] that recognises nothing. *)
Definition noDate (s : string) : option Q := None.

(** **** The controller in the words of the specification (section 4.4) *)

Section Specification.
Variable parseFloat : string -> option Q.
Variable Date_parse : string -> option Q.

(** Steps 1 to 5, in the arithmetic of the real numbers. *)
Definition delay_spec (now : Q) (error : APIError) (attempt : Z) : Q :=
  let backoff := 2000 * Qpower 2 (attempt - 1) in
  match responseHeaders error with
  | Some headers =>
      match headers !! "retry-after-ms" ≫= parseFloat with
      | Some n => n
      | None =>
          match headers !! "retry-after" ≫= parseFloat with
          | Some n => Math_ceil (n * 1000)
          | None =>
              match headers !! "retry-after" ≫= Date_parse with
              | Some date =>
                  if gt (date - now) 0 then Math_ceil (date - now) else backoff
              | None => backoff
              end
          end
      end
  | None => Math_min backoff 30000
  end.


(** The delay that [getBoundedDelay] caps: [delay] for an error with
    headers, the backoff without the 30 s cap, as the source computes it,
    for an error without. *)
Definition uncapped (later : Q) (error : APIError) (attempt : Z) : Q :=
  match responseHeaders error with
  | Some _ => delay parseFloat Date_parse later error attempt
  | None => times 2000 (Math_pow 2 (attempt - 1))
  end.
End Specification.

(** An error without response headers. *)
Definition no_headers : APIError := {| responseHeaders := None |}.
End SessionRetry.


(** *** Shared by the storage backends *)

(** What an operation can throw.  [NotFoundError] is the [NamedError] the
    backend files create; [Error] is a plain [new Error(message)];
    [SyntaxError] is thrown by [JSON.parse]; [SystemError] is an error of
    the file system with its [code].  [MissingSegment] marks the
    inputs left out of the model: a key too short for a segment the source
    uses as a [string] (SQL parameter, [Map] key or file name). *)
Inductive error :=
| NotFoundError (message : string)
| Error (message : string)
| SyntaxError
| SystemError (code : string)
| MissingSegment.

(** The tag of an error, by which a caller tells its kind: the name its
    [NamedError] class was created with.  The errors of the backends that
    are not a [NotFoundError] carry none. *)
Definition tag (e : error) : option string :=
  match e with
  | NotFoundError _ => Some "NotFoundError"
  | _ => None
  end.

Inductive outcome (A : Type) :=
| Ok (a : A)
| Throw (e : error).
Arguments Ok {A} a.
Arguments Throw {A} e.

(** State and exception monad: an operation maps the state before to its
    outcome and the state after. *)
Definition M (S A : Type) : Type := S -> outcome A * S.

Definition ret {S A} (a : A) : M S A := fun st => (Ok a, st).
Definition throw {S A} (e : error) : M S A := fun st => (Throw e, st).
Definition bind {S A B} (c : M S A) (k : A -> M S B) : M S B :=
  fun st =>
    match c st with
    | (Ok a, st') => k a st'
    | (Throw e, st') => (Throw e, st')
    end.
Definition gets {S A} (f : S -> A) : M S A := fun st => (Ok (f st), st).
Definition modify {S} (f : S -> S) : M S unit := fun st => (Ok tt, f st).

Notation "'let*' x := c 'in' k" := (bind c (fun x => k))
  (at level 10, x name, c at level 100, k at level 200).
Notation "c ;; k" := (bind c (fun _ => k))
  (at level 100, k at level 200, right associativity).

(** A segment the source uses as a [string]. *)
Definition require {S} (o : option string) : M S string :=
  match o with
  | Some s => ret s
  | None => throw MissingSegment
  end.

(** [`${x}`] for [x : string | undefined]. *)
Definition template (o : option string) : string := default "undefined" o.

(** [key.join("/")] *)
Definition join (key : list string) : string := String.concat "/" key.

(** [s.split("/")] *)
Fixpoint split (s : string) : list string :=
  match s with
  | EmptyString => [""]
  | String c s' =>
      if Ascii.eqb c "/"%char then "" :: split s'
      else match split s' with
           | h :: t => String c h :: t
           | [] => [String c ""]
           end
  end.

(** SQLite's [LIKE] with its defaults, on the UTF-8 text of its two
    operands: [%] matches any run of characters, [_] any one character,
    every other character itself, a letter of ASCII also in its other case.

    [characters] reads a text as SQLite does ([sqlite3Utf8Read]): a byte
    below [0xC0] is a character; a byte from [0xC0] starts a character that
    takes every continuation byte ([0x80] to [0xBF]) after it; the text ends
    at its first NUL.  On well-formed UTF-8 these are the code points.
    (Patterns are taken within SQLite's limit on the length of a pattern.) *)
Definition lower (c : ascii) : ascii :=
  let n := Ascii.N_of_ascii c in
  if ((65 <=? n) && (n <=? 90))%N then Ascii.ascii_of_N (n + 32) else c.

(** The first byte of a character of two or more bytes: its payload bits
    ([sqlite3Utf8Trans1]). *)
Definition utf8_lead (n : N) : N :=
  (if n <? 224 then N.land n 31
   else if n <? 240 then N.land n 15
   else if n <? 248 then N.land n 7
   else if n <? 252 then N.land n 3
   else if n <? 254 then N.land n 1
   else 0)%N.

(** One more byte of a character: six more bits, in 32-bit arithmetic. *)
Definition utf8_more (c n : N) : N :=
  ((N.shiftl c 6 + N.land n 63) mod 2 ^ 32)%N.

(** The character read: what cannot be the code point of a character of
    two or more bytes is replaced by U+FFFD. *)
Definition utf8_char (c : N) : N :=
  (if (c <? 128) || (N.land c 4294965248 =? 55296)
      || (N.land c 4294967294 =? 65534)
   then 65533 else c)%N.

(** [pending] is the character being read, if its first byte was read. *)
Fixpoint utf8 (pending : option N) (s : string) : list N :=
  match s with
  | EmptyString =>
      match pending with
      | Some c => [utf8_char c]
      | None => []
      end
  | String b s' =>
      let n := Ascii.N_of_ascii b in
      let next :=
        (if n =? 0 then []
         else if n <? 192 then n :: utf8 None s'
         else utf8 (Some (utf8_lead n)) s')%N in
      match pending with
      | Some c =>
          if ((128 <=? n) && (n <? 192))%N then utf8 (Some (utf8_more c n)) s'
          else utf8_char c :: next
      | None => next
      end
  end.

Definition characters (s : string) : list N := utf8 None s.

(** [sqlite3Tolower] *)
Definition fold_case (c : N) : N :=
  (if (65 <=? c) && (c <=? 90) then c + 32 else c)%N.

(** [%] is 37 and [_] is 95. *)
Fixpoint like_characters (pattern : list N) : list N -> bool :=
  match pattern with
  | [] => fun s => match s with [] => true | _ => false end
  | p :: pattern' =>
      if (p =? 37)%N then
        fix star (s : list N) : bool :=
          like_characters pattern' s ||
          match s with
          | [] => false
          | _ :: s' => star s'
          end
      else if (p =? 95)%N then
        fun s => match s with
                 | [] => false
                 | _ :: s' => like_characters pattern' s'
                 end
      else
        fun s => match s with
                 | [] => false
                 | c :: s' =>
                     (fold_case p =? fold_case c)%N && like_characters pattern' s'
                 end
  end.

Definition like (pattern s : string) : bool :=
  like_characters (characters pattern) (characters s).

Arguments like : simpl never.

(** A text with a NUL byte. *)
Fixpoint has_nul (s : string) : bool :=
  match s with
  | EmptyString => false
  | String b s' => (Ascii.N_of_ascii b =? 0)%N || has_nul s'
  end.

(** A string with its ASCII letters in lower case. *)
Fixpoint lowercase (s : string) : string :=
  match s with
  | EmptyString => EmptyString
  | String c s' => String (lower c) (lowercase s')
  end.

(** [ORDER BY key]: the BINARY collation compares byte by byte. *)
Definition key_le (a b : string) : Prop := String.leb a b = true.
Global Instance key_le_dec a b : Decision (key_le a b).
Proof. unfold key_le. apply _. Defined.

(** *** Storage keys *)

(** A segment of a storage key (specification, section 3): not empty, no
    ["/"]; and, being used as a path component, neither ["."] nor [".."]. *)
Fixpoint has_slash (s : string) : bool :=
  match s with
  | EmptyString => false
  | String c s' => Ascii.eqb c "/"%char || has_slash s'
  end.

Definition valid_segment (s : string) : bool :=
  negb (String.eqb s "") && negb (String.eqb s ".") && negb (String.eqb s "..")
  && negb (has_slash s).

Definition valid_key (key : list string) : bool := forallb valid_segment key.


(** *** storage/multi-sqlite-backend.ts *)

Module MultiSqliteBackend.

(** A row of the table [sessions] of [sessions.db], without its primary key
    [session_id]. *)
Record sessions_row := {
  project_id : string;
  sessions_data : string;
  sessions_created_at : Z;
  sessions_updated_at : Z
}.

(** A row of the table [storage] of a session database, without its primary
    key [key]. *)
Record storage_row := {
  storage_type : string;
  storage_data : string;
  storage_created_at : Z;
  storage_updated_at : Z
}.

(** The object state together with the files it works on.
    - [sessionsMetaDB]: the table [sessions], by [session_id];
    - [sessionFiles]: the files [sessions/{sessionID}.db] that exist (each with
      its [-wal] and [-shm] sidecars), by [sessionID], with the content of
      their table [storage], by [key];
    - [sessionDBs]: the session ids that have an open handle in the cache
      (a handle is identified with the id of the file it was opened on);
    - [messageSessionCache]: messageID -> sessionID.
    A session id names its file: ids are taken to be path components, as
    the key segments of the specification are, and file names are compared
    byte by byte. *)
Record backend := {
  sessionsMetaDB : gmap string sessions_row;
  sessionFiles : gmap string (gmap string storage_row);
  sessionDBs : gset string;
  messageSessionCache : gmap string string
}.

(** [new MultiSqliteBackend(projectDir)] on a project directory that holds
    the given databases: nothing is open, nothing is cached. *)
Definition constructor (sessions : gmap string sessions_row)
    (files : gmap string (gmap string storage_row)) : backend :=
  {| sessionsMetaDB := sessions; sessionFiles := files;
     sessionDBs := ∅; messageSessionCache := ∅ |}.

(** The backend of a project that was never used. *)
Definition fresh : backend := constructor ∅ ∅.

(** A later process run on the same project directory. *)
Definition restart (this : backend) : backend :=
  constructor (sessionsMetaDB this) (sessionFiles this).

(** [getSessionDB(sessionID)]: the cached handle, or a handle on the file
    opened with [create: true] (so the file and its table exist afterwards). *)
Definition getSessionDB (sessionID : string) : M backend string :=
  fun this =>
    if decide (sessionID ∈ sessionDBs this) then (Ok sessionID, this)
    else
      (Ok sessionID,
       {| sessionsMetaDB := sessionsMetaDB this;
          sessionFiles :=
            match sessionFiles this !! sessionID with
            | Some _ => sessionFiles this
            | None => <[sessionID := ∅]> (sessionFiles this)
            end;
          sessionDBs := {[sessionID]} ∪ sessionDBs this;
          messageSessionCache := messageSessionCache this |}).

(** The return type of [parseKey]. *)
Record ParsedKey := {
  type : option string;
  sessionID : option string;
  id : option string
}.

Definition parseKey (this : backend) (key : list string) : ParsedKey :=
  let type := key !! 0%nat in
  let rest := drop 1 key in
  if decide (type = Some "session") then
    {| type := Some "session"; sessionID := rest !! 1%nat; id := None |}
  else if decide (type = Some "message") then
    {| type := Some "message"; sessionID := rest !! 0%nat; id := rest !! 1%nat |}
  else if decide (type = Some "part") then
    let messageID := rest !! 0%nat in
    let partID := rest !! 1%nat in
    let sessionID := messageID ≫= (fun m => messageSessionCache this !! m) in
    {| type := Some "part"; sessionID := sessionID; id := partID |}
  else if decide (type = Some "session_diff") then
    {| type := Some "session_diff"; sessionID := rest !! 0%nat; id := None |}
  else
    {| type := type; sessionID := None; id := None |}.

(** **** The SQL statements *)

(** The table behind a handle. *)
Definition table (db : string) (this : backend) : gmap string storage_row :=
  default ∅ (sessionFiles this !! db).

Definition set_table (db : string) (t : gmap string storage_row)
    (this : backend) : backend :=
  {| sessionsMetaDB := sessionsMetaDB this;
     sessionFiles := <[db := t]> (sessionFiles this);
     sessionDBs := sessionDBs this;
     messageSessionCache := messageSessionCache this |}.

Definition set_sessions (t : gmap string sessions_row) (this : backend)
    : backend :=
  {| sessionsMetaDB := t;
     sessionFiles := sessionFiles this;
     sessionDBs := sessionDBs this;
     messageSessionCache := messageSessionCache this |}.

(** [SELECT data FROM sessions WHERE session_id = ?] *)
Definition sessions_select (session_id : string) : M backend (option string) :=
  gets (fun this => sessions_data <$> sessionsMetaDB this !! session_id).

(** [INSERT INTO sessions (session_id, project_id, data, updated_at)
     VALUES (?, ?, ?, unixepoch())
     ON CONFLICT(session_id) DO UPDATE SET data = excluded.data,
     updated_at = unixepoch()] *)
Definition sessions_upsert (now : Z) (session_id projectID data : string)
    : M backend unit :=
  modify (fun this =>
    let row :=
      match sessionsMetaDB this !! session_id with
      | Some old =>
          {| project_id := project_id old; sessions_data := data;
             sessions_created_at := sessions_created_at old;
             sessions_updated_at := now |}
      | None =>
          {| project_id := projectID; sessions_data := data;
             sessions_created_at := now; sessions_updated_at := now |}
      end in
    set_sessions (<[session_id := row]> (sessionsMetaDB this)) this).

(** [DELETE FROM sessions WHERE session_id = ?] *)
Definition sessions_delete (session_id : string) : M backend unit :=
  modify (fun this => set_sessions (delete session_id (sessionsMetaDB this)) this).

(** [ORDER BY updated_at DESC].  SQL leaves the order of rows with the same
    [updated_at] open; the sort below fixes one. *)
Definition newer_first (a b : string * sessions_row) : Prop :=
  (sessions_updated_at (snd b) <= sessions_updated_at (snd a))%Z.
Global Instance newer_first_dec a b : Decision (newer_first a b).
Proof. unfold newer_first. apply _. Defined.

(** [SELECT session_id FROM sessions WHERE project_id = ?
     ORDER BY updated_at DESC] *)
Definition sessions_by_project (projectID : string) : M backend (list string) :=
  gets (fun this =>
    fst <$> merge_sort newer_first
      (map_to_list
         (filter (fun kv => project_id (snd kv) = projectID)
            (sessionsMetaDB this)))).

(** [SELECT data FROM storage WHERE key = ?] *)
Definition storage_select (db key : string) : M backend (option string) :=
  gets (fun this => storage_data <$> table db this !! key).

(** [INSERT INTO storage (key, type, data, updated_at)
     VALUES (?, ?, ?, unixepoch())
     ON CONFLICT(key) DO UPDATE SET data = excluded.data,
     updated_at = unixepoch()] *)
Definition storage_upsert (now : Z) (db key type data : string)
    : M backend unit :=
  modify (fun this =>
    let row :=
      match table db this !! key with
      | Some old =>
          {| storage_type := storage_type old; storage_data := data;
             storage_created_at := storage_created_at old;
             storage_updated_at := now |}
      | None =>
          {| storage_type := type; storage_data := data;
             storage_created_at := now; storage_updated_at := now |}
      end in
    set_table db (<[key := row]> (table db this)) this).

(** [DELETE FROM storage WHERE key = ? OR key LIKE ?] *)
Definition storage_delete (db key pattern : string) : M backend unit :=
  modify (fun this =>
    set_table db
      (filter (fun kv => ¬ (fst kv = key ∨ like pattern (fst kv) = true))
         (table db this))
      this).

(** [SELECT key FROM storage WHERE key LIKE ? ORDER BY key] *)
Definition storage_keys_like (db pattern : string) : M backend (list string) :=
  gets (fun this =>
    merge_sort key_le
      (fst <$> map_to_list
         (filter (fun kv => like pattern (fst kv) = true) (table db this)))).

(** [db.close(); this.sessionDBs.delete(sessionID)] when a handle is cached. *)
Definition close_handle (sessionID : string) : M backend unit :=
  modify (fun this =>
    {| sessionsMetaDB := sessionsMetaDB this;
       sessionFiles := sessionFiles this;
       sessionDBs := sessionDBs this ∖ {[sessionID]};
       messageSessionCache := messageSessionCache this |}).

(** [fs.unlink(dbPath).catch(() => {})] with the two sidecars. *)
Definition unlink (sessionID : string) : M backend unit :=
  modify (fun this =>
    {| sessionsMetaDB := sessionsMetaDB this;
       sessionFiles := delete sessionID (sessionFiles this);
       sessionDBs := sessionDBs this;
       messageSessionCache := messageSessionCache this |}).

(** [this.messageSessionCache.set(messageID, sessionID)] *)
Definition cache_set (messageID sessionID : string) : M backend unit :=
  modify (fun this =>
    {| sessionsMetaDB := sessionsMetaDB this;
       sessionFiles := sessionFiles this;
       sessionDBs := sessionDBs this;
       messageSessionCache := <[messageID := sessionID]> (messageSessionCache this) |}).

(** **** The methods *)

Section Methods.
(** The stored values and the JSON codec of the runtime; [JSON.parse]
    throws on the strings it maps to [None].  [JSON.stringify] is taken on
    the values it maps to a string. *)
Variable value : Type.
Variable JSON_stringify : value -> string.
Variable JSON_parse : string -> option value.

Definition parse (data : string) : M backend value :=
  match JSON_parse data with
  | Some v => ret v
  | None => throw SyntaxError
  end.

Definition read (key : list string) : M backend value :=
  let keyStr := join key in
  let* parsed := gets (fun this => parseKey this key) in
  if decide (type parsed = Some "session") then
    let* sessionID := require (sessionID parsed) in
    let* row := sessions_select sessionID in
    match row with
    | None => throw (NotFoundError ("Resource not found: " +:+ keyStr))
    | Some data => parse data
    end
  else if decide (type parsed = Some "message" ∨ type parsed = Some "part") then
    match truthy (sessionID parsed) with
    | None =>
        throw (Error ("Cannot read " +:+ template (type parsed) +:+ ": session unknown"))
    | Some sessionID =>
        let* db := getSessionDB sessionID in
        let* row := storage_select db keyStr in
        match row with
        | None => throw (NotFoundError ("Resource not found: " +:+ keyStr))
        | Some data => parse data
        end
    end
  else throw (Error ("Unknown key type: " +:+ template (type parsed))).

(** [now] is the value of [unixepoch()]. *)
Definition write (now : Z) (key : list string) (content : value) : M backend unit :=
  let keyStr := join key in
  let* parsed := gets (fun this => parseKey this key) in
  let data := JSON_stringify content in
  if decide (type parsed = Some "session") then
    let* projectID := require (key !! 1%nat) in
    let* sessionID := require (key !! 2%nat) in
    sessions_upsert now sessionID projectID data
  else if decide (type parsed = Some "message") then
    let* sessionID := require (sessionID parsed) in
    let* messageID := require (id parsed) in
    cache_set messageID sessionID ;;
    let* db := getSessionDB sessionID in
    storage_upsert now db keyStr (template (type parsed)) data
  else if decide (type parsed = Some "part") then
    match truthy (sessionID parsed) with
    | None =>
        throw (Error ("Cannot write part: session unknown for message "
                      +:+ template (key !! 1%nat)))
    | Some sessionID =>
        let* db := getSessionDB sessionID in
        storage_upsert now db keyStr (template (type parsed)) data
    end
  else throw (Error ("Unknown key type: " +:+ template (type parsed))).

(** [fn] is the change the mutator makes to the value it is given. *)
Definition update (now : Z) (key : list string) (fn : value -> value)
    : M backend value :=
  let* content := read key in
  let content := fn content in
  write now key content ;;
  ret content.

Definition remove (key : list string) : M backend unit :=
  let* parsed := gets (fun this => parseKey this key) in
  if decide (type parsed = Some "session") then
    let* sessionID := require (sessionID parsed) in
    sessions_delete sessionID ;;
    close_handle sessionID ;;
    unlink sessionID
  else if decide (type parsed = Some "message" ∨ type parsed = Some "part") then
    let keyStr := join key in
    match truthy (sessionID parsed) with
    | None =>
        throw (Error ("Cannot remove " +:+ template (type parsed) +:+ ": session unknown"))
    | Some sessionID =>
        let* db := getSessionDB sessionID in
        storage_delete db keyStr (keyStr +:+ "/%")
    end
  else ret tt.

Definition list (prefix : list string) : M backend (list (list string)) :=
  let prefixStr := join prefix in
  let type := prefix !! 0%nat in
  if decide (type = Some "session") then
    let* projectID := require (prefix !! 1%nat) in
    let* rows := sessions_by_project projectID in
    ret ((fun session_id => ["session"; projectID; session_id]) <$> rows)
  else if decide (type = Some "message" ∨ type = Some "part") then
    let* sessionID := require (prefix !! 1%nat) in
    let* db := getSessionDB sessionID in
    let pattern := if decide (prefixStr = "") then "%" else prefixStr +:+ "/%" in
    let* rows := storage_keys_like db pattern in
    ret (split <$> rows)
  else ret [].

(** [close()] *)
Definition close : M backend unit :=
  modify (fun this =>
    {| sessionsMetaDB := sessionsMetaDB this;
       sessionFiles := sessionFiles this;
       sessionDBs := ∅;
       messageSessionCache := messageSessionCache this |}).

(** **** The operations of the facade as data

    [Storage.read], [write], [update], [remove] and [list] hand their
    arguments to the backend of the instance. *)

Inductive op :=
| Read (key : Datatypes.list string)
| Write (key : Datatypes.list string) (content : value)
| Update (key : Datatypes.list string) (fn : value -> value)
| Remove (key : Datatypes.list string)
| List (prefix : Datatypes.list string).

(** The state an operation leaves behind, whether it returns or throws. *)
Definition exec (now : Z) (o : op) (this : backend) : backend :=
  match o with
  | Read key => snd (read key this)
  | Write key content => snd (write now key content this)
  | Update key fn => snd (update now key fn this)
  | Remove key => snd (remove key this)
  | List prefix => snd (list prefix this)
  end.

(** A sequence of operations, each with the value of [unixepoch()] at its
    time. *)
Fixpoint run (ops : Datatypes.list (Z * op)) (this : backend) : backend :=
  match ops with
  | [] => this
  | (now, o) :: ops' => run ops' (exec now o this)
  end.

(** The session whose database a message or part key is routed to. *)
Definition routed (this : backend) (key : Datatypes.list string) : option string :=
  let parsed := parseKey this key in
  if decide (type parsed = Some "message" ∨ type parsed = Some "part")
  then truthy (sessionID parsed) else None.

(** The session database an operation opens through [getSessionDB]. *)
Definition opens (this : backend) (o : op) : option string :=
  match o with
  | Read key | Update key _ | Remove key => routed this key
  | Write key _ =>
      if decide (key !! 0%nat = Some "message") then
        match key !! 2%nat with
        | Some _ => key !! 1%nat
        | None => None
        end
      else if decide (key !! 0%nat = Some "part") then routed this key
      else None
  | List prefix =>
      if decide (prefix !! 0%nat = Some "message" ∨ prefix !! 0%nat = Some "part")
      then prefix !! 1%nat else None
  end.

(** The session database file an operation unlinks. *)
Definition unlinks (o : op) : option string :=
  match o with
  | Remove key =>
      if decide (key !! 0%nat = Some "session") then key !! 2%nat else None
  | _ => None
  end.

(** An operation on keys as the specification has them (section 3): every
    segment is a valid segment, and a session, message or part key has its
    three segments (a prefix of one its two), so that no segment the source
    uses is [undefined]. *)
Definition complete (n : nat) (key : Datatypes.list string) : bool :=
  valid_key key &&
  (bool_decide (n ≤ length key)
   || negb (bool_decide (key !! 0%nat = Some "session"
                         ∨ key !! 0%nat = Some "message"
                         ∨ key !! 0%nat = Some "part"))).

Definition well_formed (o : op) : bool :=
  match o with
  | Read key | Write key _ | Update key _ | Remove key => complete 3 key
  | List prefix => complete 2 prefix
  end.

End Methods.

(** Every cached handle is a handle on a file that exists: [getSessionDB]
    caches a handle after creating the file, and [remove] drops the handle
    before it unlinks the file. *)
Definition consistent (this : backend) : Prop :=
  sessionDBs this ⊆ dom (sessionFiles this).

(** Every message is routed to a session whose id is a valid segment, and
    so names a file: [write] records the second segment of a message key. *)
Definition valid_routes (this : backend) : Prop :=
  forall m s, messageSessionCache this !! m = Some s -> valid_segment s = true.

(** The keys the backend stores: [session/{projectID}/{sessionID}],
    [message/{sessionID}/{messageID}], and [part/{messageID}/{partID}] once
    the message has been written in this process. *)
Definition supported (this : backend) (key : Datatypes.list string) : bool :=
  valid_key key && bool_decide (length key = 3%nat) &&
  match key !! 0%nat with
  | Some t =>
      if decide (t = "session") then true
      else if decide (t = "message") then true
      else if decide (t = "part") then
        match key !! 1%nat ≫= (fun m => messageSessionCache this !! m) with
        | Some s => valid_segment s
        | None => false
        end
      else false
  | None => false
  end.

End MultiSqliteBackend.

(** *** storage/json-backend.ts *)

Module JsonBackend.

(** The file tree, by absolute path (the names from the root down): at a
    path there is a regular file with its content, or a directory.  The
    root is a directory.  Names are compared byte by byte, and symbolic
    links are not represented. *)
Inductive node :=
| File (text : string)
| Directory.

Definition files := gmap (list string) node.

(** What the system finds at a path when it opens it: it walks down from
    the root, and fails with [ENOTDIR] on a regular file that is not the
    last name, with [ENOENT] on a name that does not exist. *)
Inductive found :=
| Regular (text : string)
| IsDirectory
| ENOENT
| ENOTDIR.

Fixpoint walk (fs : files) (here rest : list string) {struct rest} : found :=
  match fs !! here with
  | None => ENOENT
  | Some (File text) =>
      match rest with
      | [] => Regular text
      | _ :: _ => ENOTDIR
      end
  | Some Directory =>
      match rest with
      | [] => IsDirectory
      | name :: rest' => walk fs (here ++ [name]) rest'
      end
  end.

Definition stat (fs : files) (path : list string) : found :=
  match path with
  | [] => IsDirectory
  | name :: rest => walk fs [name] rest
  end.

(** The directories above a path, created where they are missing. *)
Definition mkdir_p (path : list string) (fs : files) : files :=
  foldr (fun k fs => <[take k path := Directory]> fs) fs
    (seq 1 (length path - 1)).

(** [path.join(dir, ...key)] on POSIX, for a [dir] that is absolute and
    normalized: the arguments that are not empty are joined by ["/"] and the
    result is normalized, that is split at ["/"], without its empty and
    ["."] names, and with every [".."] taking back the name before it (none
    at the root); a ["/"] at the end is kept. *)
Definition normalize (stack : list string) (name : string) : list string :=
  if decide (name = "" ∨ name = ".") then stack
  else if decide (name = "..") then take (length stack - 1) stack
  else stack ++ [name].

Fixpoint ends_with_slash (s : string) : bool :=
  match s with
  | EmptyString => false
  | String c EmptyString => Ascii.eqb c "/"%char
  | String _ s' => ends_with_slash s'
  end.

Definition trailing_separator (key : list string) : bool :=
  match last (filter (fun s => s <> "") key) with
  | Some s => ends_with_slash s
  | None => false
  end.

(** [path.join(this.dir, ...key) + ".json"], as the path it names. *)
Definition target (dir key : list string) : list string :=
  let names := foldl normalize dir (concat (split <$> key)) in
  match last names with
  | None => [".json"]
  | Some name =>
      if trailing_separator key then names ++ [".json"]
      else take (length names - 1) names ++ [name +:+ ".json"]
  end.

(** A path as a string. *)
Definition path_string (path : list string) : string := "/" +:+ join path.

Section Methods.
Variable value : Type.
(** [JSON.stringify(content, null, 2)] *)
Variable JSON_stringify : value -> string.
(** [JSON.parse], the parser of [Bun.file(target).json()]. *)
Variable JSON_parse : string -> option value.
(** [this.dir] *)
Variable dir : list string.

(** [Bun.file(target).json()] inside [withErrorHandling], which turns the
    [ENOENT] of a missing file into [NotFoundError]; every other exception
    is rethrown as it is. *)
Definition read (key : list string) : M files value :=
  let target := target dir key in
  let* file := gets (fun fs : files => stat fs target) in
  match file with
  | Regular text =>
      match JSON_parse text with
      | Some result => ret result
      | None => throw SyntaxError
      end
  | IsDirectory => throw (SystemError "EISDIR")
  | ENOENT => throw (NotFoundError ("Resource not found: " +:+ path_string target))
  | ENOTDIR => throw (SystemError "ENOTDIR")
  end.

(** [Bun.write(target, text)]: the file is created, with the directories
    above it that are missing, or replaced. *)
Definition Bun_write (target : list string) (text : string) : M files unit :=
  let* file := gets (fun fs : files => stat fs target) in
  match file with
  | Regular _ | ENOENT =>
      modify (fun fs : files => <[target := File text]> (mkdir_p target fs))
  | IsDirectory => throw (SystemError "EISDIR")
  | ENOTDIR => throw (SystemError "ENOTDIR")
  end.

Definition write (key : list string) (content : value) : M files unit :=
  let target := target dir key in
  Bun_write target (JSON_stringify content).

Definition update (key : list string) (fn : value -> value) : M files value :=
  let target := target dir key in
  let* file := gets (fun fs : files => stat fs target) in
  match file with
  | Regular text =>
      match JSON_parse text with
      | Some content =>
          let content := fn content in
          Bun_write target (JSON_stringify content) ;;
          ret content
      | None => throw SyntaxError
      end
  | IsDirectory => throw (SystemError "EISDIR")
  | ENOENT => throw (NotFoundError ("Resource not found: " +:+ path_string target))
  | ENOTDIR => throw (SystemError "ENOTDIR")
  end.

(** [fs.unlink(target).catch(() => {})]: a regular file is removed, and no
    failure of [unlink] is reported. *)
Definition remove (key : list string) : M files unit :=
  let target := target dir key in
  let* file := gets (fun fs : files => stat fs target) in
  match file with
  | Regular _ => modify (fun fs : files => delete target fs)
  | _ => ret tt
  end.

End Methods.
End JsonBackend.

(** *** storage/sqlite-backend.ts *)

Module SqliteBackend.

(** A row of the table [storage], without its primary key [key]. *)
Record storage_row := {
  type : string;
  parent_key : option string;
  data : string;
  created_at : Z;
  updated_at : Z
}.

(** The table [storage] of the one database, by [key]. *)
Definition backend := gmap string storage_row.

(** [new SqliteBackend(dbPath)] on a path that holds no database yet. *)
Definition fresh : backend := ∅.

Section Methods.
Variable value : Type.
Variable JSON_stringify : value -> string.
Variable JSON_parse : string -> option value.

Definition read (key : list string) : M backend value :=
  let keyStr := join key in
  let* row := gets (fun this : backend => this !! keyStr) in
  match row with
  | None => throw (NotFoundError ("Resource not found: " +:+ keyStr))
  | Some row =>
      match JSON_parse (data row) with
      | Some v => ret v
      | None => throw SyntaxError
      end
  end.

(** [now] is the value of [unixepoch()].  The column [type] is [key[0]],
    a segment the source uses as a [string]. *)
Definition write (now : Z) (key : list string) (content : value)
    : M backend unit :=
  let keyStr := join key in
  let* type := require (key !! 0%nat) in
  let parentKey :=
    if decide (1 < length key)%nat
    then Some (join (take (length key - 1) key)) else None in
  let data := JSON_stringify content in
  modify (fun this : backend =>
    let row :=
      match this !! keyStr with
      | Some old =>
          {| type := SqliteBackend.type old; parent_key := parent_key old;
             data := data; created_at := created_at old; updated_at := now |}
      | None =>
          {| type := type; parent_key := parentKey; data := data;
             created_at := now; updated_at := now |}
      end in
    <[keyStr := row]> this).

Definition update (now : Z) (key : list string) (fn : value -> value)
    : M backend value :=
  let* content := read key in
  let content := fn content in
  write now key content ;;
  ret content.

Definition remove (key : list string) : M backend unit :=
  let keyStr := join key in
  modify (fun this : backend =>
    filter (fun kv => ¬ (fst kv = keyStr ∨ like (keyStr +:+ "/%") (fst kv) = true))
      this).

Definition list (prefix : list string) : M backend (list (list string)) :=
  let prefixStr := join prefix in
  let pattern := if decide (prefixStr = "") then "%" else prefixStr +:+ "/%" in
  let* rows :=
    gets (fun this : backend =>
      merge_sort key_le
        (fst <$> map_to_list
           (filter (fun kv => like pattern (fst kv) = true) this))) in
  ret (split <$> rows).

End Methods.
End SqliteBackend.

(** *** Values for running the backends

    The backends are parametric in the JSON codec of the runtime.  To run
    them on examples a value is taken to be its own JSON text. *)
Definition text_stringify (v : string) : string := v.
Definition text_parse (s : string) : option string := Some s.

(** A project in which records of session [s] were written: the messages
    [m] and [n], and records below the messages [m], [M] and [mé]. *)
Definition sample : MultiSqliteBackend.backend :=
  MultiSqliteBackend.run string text_stringify text_parse
    [ (1, MultiSqliteBackend.Write string ["message"; "s"; "m"] "1");
      (2, MultiSqliteBackend.Write string ["message"; "s"; "m"; "x"] "2");
      (3, MultiSqliteBackend.Write string ["message"; "s"; "M"; "x"] "3");
      (4, MultiSqliteBackend.Write string ["message"; "s"; "n"] "4");
      (5, MultiSqliteBackend.Write string ["message"; "s"; "mé"; "y"] "5") ]%Z
    MultiSqliteBackend.fresh.

(** ** Part II: properties *)

(** *** The retry controller *)

Section RetryFacts.
Import SessionRetry.
Local Open Scope Q_scope.

Variable parseFloat : string -> option Q.
Variable Date_parse : string -> option Q.

Lemma le_spec (a b : Q) : le a b = true <-> a <= b.
Proof. apply Qle_bool_iff. Qed.

Lemma le_false (a b : Q) : le a b = false <-> b < a.
Proof.
  unfold le. split.
  - intros H. apply Qnot_le_lt. intros Hle.
    apply Qle_bool_iff in Hle. congruence.
  - intros H. destruct (Qle_bool a b) eqn:E; [|reflexivity].
    apply Qle_bool_iff in E. lra.
Qed.

Lemma gt_spec (a b : Q) : gt a b = true <-> b < a.
Proof.
  unfold gt. rewrite negb_true_iff. apply le_false.
Qed.

Lemma gt_false (a b : Q) : gt a b = false <-> a <= b.
Proof.
  unfold gt. rewrite negb_false_iff. apply le_spec.
Qed.

(** A header is a usable hint for a parser that rejects the empty string
    exactly when its value parses. *)
Lemma truthy_bind (parser : string -> option Q) (o : option string) :
  parser "" = None -> truthy o ≫= parser = o ≫= parser.
Proof.
  intros Hempty. unfold truthy. destruct o as [s|]; [|reflexivity].
  case_decide; [subst; simpl; congruence | reflexivity].
Qed.

(** [getRetryDelayInMs] is [uncapped] cut off at ten minutes. *)
Lemma getRetryDelayInMs_uncapped (now : Q) (e : APIError) (attempt : Z) :
  getRetryDelayInMs parseFloat Date_parse now e attempt =
  if gt (uncapped parseFloat Date_parse now e attempt) 600000
  then None else Some (uncapped parseFloat Date_parse now e attempt).
Proof.
  unfold getRetryDelayInMs, uncapped. destruct (responseHeaders e); reflexivity.
Qed.

(** The decision tree of [getBoundedDelay]. *)
Lemma getBoundedDelay_cases (now later : Q) (args : BoundedArgs) :
  let remaining := default 600000 (maxDuration args) - (now - startTime args) in
  let base := uncapped parseFloat Date_parse later (error args) (attempt args) in
  getBoundedDelay parseFloat Date_parse now later args =
  if le remaining 0 then None
  else if gt base 600000 then None
  else if gt (Math_min base remaining) 0 then Some (Math_min base remaining)
  else None.
Proof.
  intros remaining base. unfold getBoundedDelay.
  fold remaining. destruct (le remaining 0); [reflexivity|].
  rewrite getRetryDelayInMs_uncapped. fold base.
  destruct (gt base 600000); reflexivity.
Qed.

(** **** Rounding to a double *)

Lemma two_pow_pos (e : Z) : 0 < 2 ^ e.
Proof. apply Qpower_0_lt. reflexivity. Qed.

Lemma two_pow_plus (a b : Z) : 2 ^ (a + b) == 2 ^ a * 2 ^ b.
Proof. apply Qpower_plus. discriminate. Qed.

Lemma two_pow_le (a b : Z) : (a <= b)%Z -> 2 ^ a <= 2 ^ b.
Proof. intros H. apply Qpower_le_compat_l; [exact H | discriminate]. Qed.

Lemma inject_two_pow (k : Z) : (0 <= k)%Z -> inject_Z (2 ^ k) == 2 ^ k.
Proof. intros H. rewrite Zpower_Qpower by exact H. reflexivity. Qed.

Lemma log2_bounds (n : Z) :
  (0 < n)%Z -> 2 ^ Z.log2 n <= inject_Z n /\ inject_Z n < 2 ^ (Z.log2 n + 1).
Proof.
  intros H. destruct (Z.log2_spec n H) as [Hlo Hhi].
  pose proof (Z.log2_nonneg n) as Hnn.
  rewrite <- !inject_two_pow by lia. split.
  - rewrite <- Zle_Qle. exact Hlo.
  - rewrite <- Zlt_Qlt. exact Hhi.
Qed.

Lemma exponent_spec (a : Q) :
  0 < a -> 2 ^ exponent a <= a /\ a < 2 ^ (exponent a + 1).
Proof.
  intros Ha. destruct a as [n d].
  assert (Hn : (0 < n)%Z).
  { unfold Qlt in Ha. simpl in Ha. lia. }
  destruct (log2_bounds n Hn) as [Hnlo Hnhi].
  destruct (log2_bounds (Zpos d) ltac:(lia)) as [Hdlo Hdhi].
  assert (Ea : (n # d) * inject_Z (Zpos d) == inject_Z n).
  { unfold Qeq, Qmult, inject_Z. simpl. lia. }
  assert (Hd : 0 < inject_Z (Zpos d)) by (unfold Qlt, inject_Z; simpl; lia).
  unfold exponent. simpl Qnum. simpl Qden.
  set (ln := Z.log2 n) in *. set (ld := Z.log2 (Z.pos d)) in *.
  set (D := inject_Z (Z.pos d)) in *. set (N := inject_Z n) in *.
  set (A := n # d) in *.
  pose proof (two_pow_pos (ln - ld)) as P0.
  pose proof (two_pow_pos ld) as P1.
  assert (E1 : 2 ^ (ln - ld + 1) * 2 ^ ld == 2 ^ (ln + 1)).
  { rewrite <- two_pow_plus. replace (ln - ld + 1 + ld)%Z with (ln + 1)%Z by lia.
    reflexivity. }
  assert (E2 : 2 ^ (ln - ld - 1) * 2 ^ (ld + 1) == 2 ^ ln).
  { rewrite <- two_pow_plus. replace (ln - ld - 1 + (ld + 1))%Z with ln by lia.
    reflexivity. }
  pose proof (two_pow_pos (ln - ld + 1)) as P2.
  pose proof (two_pow_pos (ln - ld - 1)) as P3.
  destruct (Qle_bool (2 ^ (ln - ld)) A) eqn:T.
  - apply Qle_bool_iff in T. split; [exact T|].
    apply Qnot_le_lt. intros Hc.
    assert (2 ^ (ln - ld + 1) * D <= A * D) by nra.
    assert (2 ^ (ln - ld + 1) * 2 ^ ld <= 2 ^ (ln - ld + 1) * D) by nra.
    lra.
  - assert (T' : A < 2 ^ (ln - ld)).
    { apply Qnot_le_lt. intros Hc. apply Qle_bool_iff in Hc. congruence. }
    replace (ln - ld - 1 + 1)%Z with (ln - ld)%Z by lia.
    split; [|exact T'].
    apply Qnot_lt_le. intros Hc.
    assert (A * D < 2 ^ (ln - ld - 1) * D) by nra.
    assert (2 ^ (ln - ld - 1) * D < 2 ^ (ln - ld - 1) * 2 ^ (ld + 1)) by nra.
    lra.
Qed.

Lemma round_half_even_integer (x : Q) (k : Z) :
  x == inject_Z k -> round_half_even x = k.
Proof.
  intros H. unfold round_half_even.
  assert (Hf : Qfloor x = k) by (rewrite H; apply Qfloor_Z).
  rewrite Hf.
  assert (Hlt : x - inject_Z k < 1 # 2) by (rewrite H; lra).
  destruct (Qcompare_spec (x - inject_Z k) (1 # 2)) as [Hc|Hc|Hc];
    [lra | reflexivity | lra].
Qed.

(** A number [m * 2^k] with [|m| <= 2^53] and [k >= -1074] is a double:
    rounding leaves it as it is. *)
Lemma double_dyadic (x : Q) (m k : Z) :
  x == inject_Z m * 2 ^ k -> (Z.abs m <= 2 ^ 53)%Z -> (-1074 <= k)%Z ->
  double x == x.
Proof.
  intros Hx Hm Hk. unfold double.
  destruct (Qeq_bool x 0) eqn:E0.
  { apply Qeq_bool_iff in E0. rewrite E0. reflexivity. }
  assert (Hne : ~ x == 0).
  { intros H. apply Qeq_bool_iff in H. congruence. }
  assert (Hmne : m <> 0%Z).
  { intros ->. apply Hne. rewrite Hx. change (inject_Z 0) with 0. ring. }
  pose proof (two_pow_pos k) as Pk.
  set (a := Qabs x).
  assert (Ha : a == inject_Z (Z.abs m) * 2 ^ k).
  { unfold a. rewrite Hx, Qabs_Qmult, (Qabs_pos (2 ^ k)) by lra. reflexivity. }
  assert (Hm1 : 1 <= inject_Z (Z.abs m)).
  { change 1 with (inject_Z 1). rewrite <- Zle_Qle. lia. }
  assert (Hm2 : inject_Z (Z.abs m) <= 2 ^ 53).
  { rewrite <- (inject_two_pow 53) by lia. rewrite <- Zle_Qle. exact Hm. }
  pose proof (two_pow_plus k 53) as E53.
  pose proof (two_pow_plus k 54) as E54.
  assert (H5354 : 2 ^ 53 < 2 ^ 54) by reflexivity.
  assert (H53 : 0 < 2 ^ 53) by reflexivity.
  assert (Ha1 : 2 ^ k <= a) by (rewrite Ha; nra).
  assert (Ha2 : a <= 2 ^ (k + 53)) by (rewrite Ha, E53; nra).
  destruct (exponent_spec a ltac:(lra)) as [Hlo Hhi].
  set (e := exponent a) in *.
  assert (He0 : (k <= e)%Z).
  { destruct (Z_lt_le_dec e k) as [Hneg|]; [|assumption].
    pose proof (two_pow_le (e + 1) k ltac:(lia)) as H. lra. }
  assert (He53 : (e <= k + 53)%Z).
  { destruct (Z_lt_le_dec (k + 53) e) as [Hbig|]; [|assumption].
    pose proof (two_pow_le (k + 54) e ltac:(lia)) as H.
    assert (2 ^ (k + 53) < 2 ^ (k + 54)) by (rewrite E53, E54; nra).
    lra. }
  remember (Z.max (e - 52) (-1074)) as u eqn:Hu.
  pose proof (two_pow_pos u) as Hulp.
  assert (Hint : exists K, a / 2 ^ u == inject_Z K).
  { destruct (Z_le_gt_dec u k) as [Hsmall|Hbig].
    - exists (Z.abs m * 2 ^ (k - u))%Z.
      rewrite inject_Z_mult, inject_two_pow by lia.
      assert (Ek : 2 ^ k == 2 ^ u * 2 ^ (k - u)).
      { rewrite <- two_pow_plus. replace (u + (k - u))%Z with k by lia.
        reflexivity. }
      rewrite Ha, Ek. field. lra.
    - assert (He : e = (k + 53)%Z) by lia.
      assert (Hu1 : u = (k + 1)%Z) by lia.
      exists (2 ^ 52)%Z.
      assert (Ha53 : a == 2 ^ (k + 53)) by (rewrite He in Hlo; lra).
      assert (Ek : 2 ^ (k + 53) == 2 ^ u * 2 ^ 52).
      { rewrite <- two_pow_plus. replace (u + 52)%Z with (k + 53)%Z by lia.
        reflexivity. }
      rewrite inject_two_pow by lia. rewrite Ha53, Ek. field. lra. }
  destruct Hint as [K HK].
  rewrite (round_half_even_integer _ K HK).
  assert (HmK : inject_Z K * 2 ^ u == a).
  { rewrite <- HK. field. lra. }
  destruct (Qle_bool 0 x) eqn:Es.
  - apply Qle_bool_iff in Es. rewrite Qred_correct, HmK. apply Qabs_pos, Es.
  - assert (x < 0).
    { apply Qnot_le_lt. intros H. apply Qle_bool_iff in H. congruence. }
    rewrite Qred_correct, HmK. unfold a. rewrite Qabs_neg by lra. lra.
Qed.

(** An integer of magnitude at most [2^53] is a double. *)
Lemma double_integer (x : Q) (z : Z) :
  x == inject_Z z -> (Z.abs z <= 2 ^ 53)%Z -> double x == x.
Proof.
  intros Hx Hz. apply (double_dyadic x z 0); [|exact Hz|lia].
  rewrite Hx. change (2 ^ 0) with 1. ring.
Qed.

(** A double is a fraction in lowest terms. *)
Lemma Qred_double (x : Q) : Qred (double x) = double x.
Proof.
  assert (Hred : forall q, Qred (Qred q) = Qred q).
  { intros q. apply Qred_complete, Qred_correct. }
  unfold double. destruct (Qeq_bool x 0); [reflexivity|].
  destruct (Qle_bool 0 x); [apply Hred|].
  rewrite Qred_opp, Hred. reflexivity.
Qed.

Lemma Qred_integer (n : Z) : Qred (n # 1) = n # 1.
Proof.
  unfold Qred.
  pose proof (Z.ggcd_gcd n 1) as Hg.
  pose proof (Z.ggcd_correct_divisors n 1) as Hd.
  destruct (Z.ggcd n 1) as [g [r1 r2]]. simpl in *.
  rewrite Z.gcd_1_r in Hg. subst g. destruct Hd as [Hn H1].
  assert (E1 : r1 = n) by lia. assert (E2 : r2 = 1%Z) by lia.
  rewrite E1, E2. reflexivity.
Qed.

Lemma Qpower_positive_integer (q : Q) (p : positive) :
  Qden q = 1%positive -> Qden (Qpower_positive q p) = 1%positive.
Proof.
  intros H. unfold Qpower_positive.
  induction p as [p IH|p IH|]; simpl; rewrite ?IH, ?H; reflexivity.
Qed.

(** **** The exponential backoff *)

Lemma double_two_pow (k : Z) : (-1074 <= k)%Z -> double (2 ^ k) == 2 ^ k.
Proof.
  intros H. apply (double_dyadic _ 1 k); [|vm_compute; discriminate|exact H].
  change (inject_Z 1) with 1. ring.
Qed.

(** Below [2^-1074] the power is 0, and so is the backoff. *)
Lemma Math_pow_underflow :
  Math_pow 2 (-1075) = 0 /\ times 2000 (Math_pow 2 (-1075)) = 0
  /\ Math_pow 2 (-1074) == 2 ^ (-1074).
Proof. repeat split; vm_compute; reflexivity. Qed.

(** From attempt -1073 on the backoff of the source is the exact
    [2000 * 2^(attempt-1)]. *)
Lemma backoff_exact (attempt : Z) :
  (-1073 <= attempt)%Z ->
  times RETRY_INITIAL_DELAY (Math_pow RETRY_BACKOFF_FACTOR (attempt - 1))
  == 2000 * 2 ^ (attempt - 1).
Proof.
  intros H. unfold times, Math_pow, RETRY_INITIAL_DELAY, RETRY_BACKOFF_FACTOR.
  assert (E : 2000 * double (2 ^ (attempt - 1))
              == inject_Z 2000 * 2 ^ (attempt - 1)).
  { rewrite double_two_pow by lia. reflexivity. }
  rewrite (double_dyadic _ 2000 (attempt - 1) E
             ltac:(vm_compute; discriminate) ltac:(lia)).
  exact E.
Qed.

(** For a 1-based attempt the two are the same fraction. *)
Lemma backoff_eq (attempt : Z) :
  (1 <= attempt)%Z ->
  times RETRY_INITIAL_DELAY (Math_pow RETRY_BACKOFF_FACTOR (attempt - 1))
  = 2000 * 2 ^ (attempt - 1).
Proof.
  intros H.
  assert (Hcan : Qred (2000 * 2 ^ (attempt - 1)) = 2000 * 2 ^ (attempt - 1)).
  { destruct (attempt - 1)%Z as [|p|p] eqn:Ep; [reflexivity| |lia].
    simpl Qpower.
    pose proof (Qpower_positive_integer 2 p eq_refl) as Hden.
    destruct (Qpower_positive 2 p) as [n d]. simpl in Hden. subst d.
    apply (Qred_integer (2000 * n)). }
  unfold times. rewrite <- Qred_double, <- Hcan.
  apply Qred_complete, backoff_exact. lia.
Qed.

Lemma Math_ceil_integer (x : Q) (z : Z) :
  x == inject_Z z -> Math_ceil x == x.
Proof.
  intros H. unfold Math_ceil.
  rewrite (Qceiling_comp _ _ H), Qceiling_Z. symmetry. exact H.
Qed.

(** C9 (amended).  [delay(error, attempt)] follows the hint precedence of
    section 4.4: a [retry-after-ms] that parses as a number is returned as it
    is, and therefore wins over [retry-after] when both are present;
    otherwise a [retry-after] that parses as a number [n] gives the ceiling
    of the product [n * 1000] as the arithmetic of doubles computes it, that
    is of the double nearest to [n * 1000], which is [n * 1000] itself when
    that is an integer of magnitude at most [2^53] (whole seconds, as the
    header carries them); otherwise a [retry-after] that parses as a date
    later than now gives the difference; otherwise, with headers,
    [2000 * 2^(attempt-1)] without cap; and without headers
    [min(2000 * 2^(attempt-1), 30000)].  The two parsers are those of the
    runtime, which reject the empty string; attempts are 1-based, where the
    backoff of the source is exact, and the numbers finite. *)
Theorem delay_hint_precedence (now : Q) (e : APIError) (attempt : Z) :
  parseFloat "" = None ->
  Date_parse "" = None ->
  let delay := delay parseFloat Date_parse now e attempt in
  let backoff := 2000 * 2 ^ (attempt - 1) in
  (forall headers,
     responseHeaders e = Some headers ->
     let ms := headers !! "retry-after-ms" ≫= parseFloat in
     let seconds := headers !! "retry-after" ≫= parseFloat in
     let date := headers !! "retry-after" ≫= Date_parse in
     (forall n, ms = Some n -> delay = n)
     /\ (forall n,
           ms = None -> seconds = Some n ->
           Qabs (n * 1000) <= Number_MAX_VALUE ->
           delay = Math_ceil (double (n * 1000))
           /\ (forall z,
                 n * 1000 == inject_Z z -> (Z.abs z <= 2 ^ 53)%Z ->
                 delay == n * 1000))
     /\ (forall d,
           ms = None -> seconds = None -> date = Some d -> 0 < d - now ->
           delay = Math_ceil (d - now))
     /\ (ms = None -> seconds = None ->
         (forall d, date = Some d -> d - now <= 0) ->
         (1 <= attempt <= 1014)%Z ->
         delay = backoff))
  /\ (responseHeaders e = None ->
      (1 <= attempt)%Z ->
      delay = Math_min backoff 30000).
Proof.
  intros Hfloat Hdate dl backoff. split.
  - intros headers Hh ms seconds date.
    assert (Hdl : dl =
              match ms with
              | Some n => n
              | None =>
                  match seconds with
                  | Some n => Math_ceil (times n 1000)
                  | None =>
                      match date with
                      | Some d =>
                          if gt (d - now) 0 then Math_ceil (d - now)
                          else times 2000 (Math_pow 2 (attempt - 1))
                      | None => times 2000 (Math_pow 2 (attempt - 1))
                      end
                  end
              end).
    { subst dl ms seconds date backoff. unfold delay. rewrite Hh.
      rewrite (truthy_bind parseFloat) by assumption.
      destruct (headers !! "retry-after-ms" ≫= parseFloat) as [n|]; [reflexivity|].
      destruct (headers !! "retry-after") as [ra|] eqn:Hra; [|reflexivity].
      simpl. unfold truthy. case_decide as Hempty.
      - subst ra. rewrite Hfloat, Hdate. reflexivity.
      - destruct (parseFloat ra); [reflexivity|].
        destruct (Date_parse ra); reflexivity. }
    rewrite Hdl. repeat split.
    + intros n ->. reflexivity.
    + rewrite H, H0. reflexivity.
    + rewrite H, H0. intros z Hz Hb. unfold times.
      pose proof (double_integer _ z Hz Hb) as Hd.
      rewrite (Math_ceil_integer (double (n * 1000)) z) by (rewrite Hd; exact Hz).
      exact Hd.
    + intros d -> -> -> Hpos.
      assert (Hgt : gt (d - now) 0 = true) by (apply gt_spec; exact Hpos).
      rewrite Hgt. reflexivity.
    + intros -> -> Hd [H1 _]. pose proof (backoff_eq attempt H1) as Hb.
      destruct date as [d|]; [|exact Hb].
      assert (Hgt : gt (d - now) 0 = false) by (apply gt_false, Hd; reflexivity).
      rewrite Hgt. exact Hb.
  - intros Hh H1. subst dl. unfold delay. rewrite Hh, (backoff_eq attempt H1).
    reflexivity.
Qed.

(** The product is not the product of the real numbers, whichever number
    the specification means by [n].  The double nearest to 0.001 lies above
    it, so that the ceiling of its thousandfold is 2, but the product
    rounds to 1 and the source returns 1; and for 2.007, where the ceiling
    of the thousandfold of the decimal is 2007, the product rounds to
    2007.0000000000002 and the source returns 2008. *)
Lemma delay_rounds_the_product :
  parseDecimal "0.001" = Some (1152921504606847 # 1152921504606846976)
  /\ delay parseDecimal noDate 0
       {| responseHeaders := Some {[ "retry-after" := "0.001" ]} |} 1 = 1
  /\ delay_spec parseDecimal noDate 0
       {| responseHeaders := Some {[ "retry-after" := "0.001" ]} |} 1 = 2
  /\ delay parseDecimal noDate 0
       {| responseHeaders := Some {[ "retry-after" := "2.007" ]} |} 1 = 2008
  /\ Math_ceil ((2007 # 1000) * 1000) = 2007.
Proof. repeat split; vm_compute; reflexivity. Qed.



(** Without headers the first nine attempts stay within ten minutes. *)
Lemma uncapped_no_headers_small (later : Q) (attempt : Z) :
  (1 <= attempt <= 9)%Z ->
  let base := uncapped parseFloat Date_parse later no_headers attempt in
  2000 <= base /\ base <= 600000.
Proof.
  intros H. unfold uncapped. simpl.
  assert (Hcases : attempt = 1%Z \/ attempt = 2%Z \/ attempt = 3%Z
                   \/ attempt = 4%Z \/ attempt = 5%Z \/ attempt = 6%Z
                   \/ attempt = 7%Z \/ attempt = 8%Z \/ attempt = 9%Z) by lia.
  destruct Hcases as [->|[->|[->|[->|[->|[->|[->|[->| ->]]]]]]]];
    vm_compute; split; discriminate.
Qed.

(** C2 (amended).  One second before a deadline of 600000 ms and without
    headers, [getBoundedDelay] gives up at attempt 10, whose uncapped backoff
    [2000 * 2^9 = 1024000] exceeds ten minutes; at every attempt from 1 to 9
    it returns the remaining 1000 ms, a delay that is positive and at most
    1000. *)
Theorem getBoundedDelay_one_second_left (now later : Q) (attempt : Z) :
  (1 <= attempt <= 10)%Z ->
  let args := {| error := no_headers; attempt := attempt;
                 startTime := now - 599000; maxDuration := Some 600000 |} in
  (attempt = 10%Z ->
     getBoundedDelay parseFloat Date_parse now later args = None)
  /\ (attempt <> 10%Z ->
      exists d, getBoundedDelay parseFloat Date_parse now later args = Some d
                /\ d == 1000 /\ 0 < d /\ d <= 1000).
Proof.
  intros Hrange args. rewrite getBoundedDelay_cases. simpl.
  set (remaining := 600000 - (now - (now - 599000))).
  assert (Hrem : remaining == 1000) by (unfold remaining; lra).
  assert (Hpos : le remaining 0 = false) by (apply le_false; lra).
  rewrite Hpos. split.
  - intros ->. reflexivity.
  - intros Hne.
    destruct (uncapped_no_headers_small later attempt) as [Hlo Hhi]; [lia|].
    set (base := uncapped parseFloat Date_parse later no_headers attempt) in *.
    assert (Hbase : gt base 600000 = false) by (apply gt_false; exact Hhi).
    rewrite Hbase.
    assert (Hmin : Math_min base remaining = remaining).
    { unfold Math_min. destruct (Qle_bool base remaining) eqn:E; [|reflexivity].
      apply Qle_bool_iff in E. lra. }
    rewrite Hmin.
    assert (Hgt : gt remaining 0 = true) by (apply gt_spec; lra).
    rewrite Hgt. exists remaining. repeat split; lra.
Qed.

(** Scenario S5 of the specification on the source: at attempt 10 no delay
    is returned. *)
Lemma getBoundedDelay_attempt_10_gives_up :
  getBoundedDelay parseDigits noDate 1700000000000 1700000000000
    {| error := no_headers; attempt := 10;
       startTime := 1700000000000 - 599000;
       maxDuration := Some 600000 |} = None
  /\ ~ (exists d,
          getBoundedDelay parseDigits noDate 1700000000000 1700000000000
            {| error := no_headers; attempt := 10;
               startTime := 1700000000000 - 599000;
               maxDuration := Some 600000 |} = Some d
          /\ 0 < d /\ d <= 1000).
Proof.
  assert (H : getBoundedDelay parseDigits noDate 1700000000000 1700000000000
                {| error := no_headers; attempt := 10;
                   startTime := 1700000000000 - 599000;
                   maxDuration := Some 600000 |} = None)
    by (vm_compute; reflexivity).
  split; [exact H|]. intros [d [Hd _]]. congruence.
Qed.

End RetryFacts.

(** The hint precedence on concrete headers: [retry-after-ms: 750] wins over
    [retry-after: 2]. *)
Lemma delay_hint_precedence_witness :
  SessionRetry.parseDigits "" = None
  /\ SessionRetry.noDate "" = None
  /\ SessionRetry.delay SessionRetry.parseDigits SessionRetry.noDate 0
       {| SessionRetry.responseHeaders :=
            Some {[ "retry-after-ms" := "750"; "retry-after" := "2" ]} |} 1
     = 750%Q.
Proof.
  split; [reflexivity|]. split; [reflexivity|].
  apply (proj1 (proj1 (delay_hint_precedence SessionRetry.parseDigits
                         SessionRetry.noDate 0%Q
                         {| SessionRetry.responseHeaders :=
                              Some {[ "retry-after-ms" := "750";
                                      "retry-after" := "2" ]} |}
                         1 eq_refl eq_refl)
                  {[ "retry-after-ms" := "750"; "retry-after" := "2" ]} eq_refl)
           750%Q).
  reflexivity.
Defined.


(** One second before the deadline, at attempt 3. *)
Lemma getBoundedDelay_one_second_left_witness :
  exists d,
    SessionRetry.getBoundedDelay SessionRetry.parseDigits SessionRetry.noDate
      1700000000000%Q 1700000000000%Q
      {| SessionRetry.error := SessionRetry.no_headers;
         SessionRetry.attempt := 3;
         SessionRetry.startTime := (1700000000000 - 599000)%Q;
         SessionRetry.maxDuration := Some 600000%Q |} = Some d
    /\ (d == 1000)%Q /\ (0 < d)%Q /\ (d <= 1000)%Q.
Proof.
  apply (getBoundedDelay_one_second_left SessionRetry.parseDigits
           SessionRetry.noDate 1700000000000%Q 1700000000000%Q 3); lia.
Defined.

(** *** The multi-database backend *)

Section MultiSqliteFacts.
Import MultiSqliteBackend.
Local Abbreviation list := Datatypes.list.

Variable value : Type.
Variable JSON_stringify : value -> string.
Variable JSON_parse : string -> option value.

Lemma parseKey_session (this : backend) (p s : string) :
  parseKey this ["session"; p; s] =
  {| type := Some "session"; sessionID := Some s; id := None |}.
Proof. reflexivity. Qed.

Lemma parseKey_message (this : backend) (s m : string) :
  parseKey this ["message"; s; m] =
  {| type := Some "message"; sessionID := Some s; id := Some m |}.
Proof. reflexivity. Qed.

Lemma parseKey_part (this : backend) (m p : string) :
  parseKey this ["part"; m; p] =
  {| type := Some "part"; sessionID := messageSessionCache this !! m;
     id := Some p |}.
Proof. reflexivity. Qed.

(** C6 (amended). An operation on a part key [part/{messageID}/{partID}]
    whose messageID has no entry in the in-memory messageID -> sessionID map
    fails: [read], [write], [update] and [remove] throw a plain [Error]
    whose message says "session unknown", not a tagged error, and change
    nothing. *)
Theorem part_without_message_fails
    (this : backend) (now : Z) (m p : string) (v : value) (fn : value -> value) :
  messageSessionCache this !! m = None ->
  read value JSON_parse ["part"; m; p] this =
    (Throw (Error "Cannot read part: session unknown"), this)
  /\ write value JSON_stringify now ["part"; m; p] v this =
    (Throw (Error ("Cannot write part: session unknown for message " +:+ m)), this)
  /\ update value JSON_stringify JSON_parse now ["part"; m; p] fn this =
    (Throw (Error "Cannot read part: session unknown"), this)
  /\ remove ["part"; m; p] this =
    (Throw (Error "Cannot remove part: session unknown"), this).
Proof.
  intros Hm.
  assert (Hread : read value JSON_parse ["part"; m; p] this =
            (Throw (Error "Cannot read part: session unknown"), this)).
  { unfold read, bind, gets. rewrite parseKey_part, Hm. reflexivity. }
  repeat split.
  - exact Hread.
  - unfold write, bind, gets. rewrite parseKey_part, Hm. reflexivity.
  - unfold update, bind. rewrite Hread. reflexivity.
  - unfold remove, bind, gets. rewrite parseKey_part, Hm. reflexivity.
Qed.

(** C5 on the source: a [session_diff] key is classified by [parseKey] and
    then handled by no branch of [write] or [read]; both throw
    "Unknown key type: session_diff" and nothing is stored. *)
Theorem session_diff_is_rejected
    (this : backend) (now : Z) (s : string) (v : value) :
  write value JSON_stringify now ["session_diff"; s] v this =
    (Throw (Error "Unknown key type: session_diff"), this)
  /\ read value JSON_parse ["session_diff"; s] this =
    (Throw (Error "Unknown key type: session_diff"), this).
Proof. split; reflexivity. Qed.

(** **** Opening a session database *)

Lemma snd_parse (data : string) (this : backend) :
  snd (parse value JSON_parse data this) = this.
Proof. unfold parse. destruct (JSON_parse data); reflexivity. Qed.

Lemma snd_require {A} (o : option string) (k : string -> M backend A)
    (this : backend) :
  bind (require o) k this =
  match o with
  | Some s => k s this
  | None => (Throw MissingSegment, this)
  end.
Proof. destruct o; reflexivity. Qed.

Lemma getSessionDB_fst (s : string) (this : backend) :
  fst (getSessionDB s this) = Ok s.
Proof. unfold getSessionDB. case_decide; reflexivity. Qed.

Lemma bind_getSessionDB {A} (s : string) (k : string -> M backend A)
    (this : backend) :
  bind (getSessionDB s) k this = k s (snd (getSessionDB s this)).
Proof.
  unfold bind. pose proof (getSessionDB_fst s this) as H.
  destruct (getSessionDB s this) as [o this']. simpl in *. subst o. reflexivity.
Qed.

Lemma getSessionDB_files (s s' : string) (this : backend) :
  sessionFiles (snd (getSessionDB s this)) !! s' =
  if decide (s' = s) then
    match sessionFiles this !! s with
    | Some t => Some t
    | None => if decide (s ∈ sessionDBs this) then None else Some ∅
    end
  else sessionFiles this !! s'.
Proof.
  unfold getSessionDB.
  destruct (decide (s ∈ sessionDBs this)); simpl.
  - case_decide; [subst; destruct (sessionFiles this !! s)|]; reflexivity.
  - destruct (sessionFiles this !! s) eqn:E; case_decide; subst;
      rewrite ?E, ?lookup_insert_eq, ?lookup_insert_ne by congruence; reflexivity.
Qed.

Lemma getSessionDB_table (s db : string) (this : backend) :
  table db (snd (getSessionDB s this)) = table db this.
Proof.
  unfold table. rewrite getSessionDB_files.
  case_decide; [subst|reflexivity].
  destruct (sessionFiles this !! s); [reflexivity|].
  case_decide; reflexivity.
Qed.

Lemma getSessionDB_cache (s : string) (this : backend) :
  messageSessionCache (snd (getSessionDB s this)) = messageSessionCache this.
Proof. unfold getSessionDB. case_decide; reflexivity. Qed.

Lemma table_set_table (db db' : string) (t : gmap string storage_row)
    (this : backend) :
  table db' (set_table db t this) = if decide (db' = db) then t else table db' this.
Proof.
  unfold table, set_table. simpl. case_decide.
  - subst. rewrite lookup_insert_eq. reflexivity.
  - rewrite lookup_insert_ne by congruence. reflexivity.
Qed.

(** **** What the methods do on well-formed keys *)

Lemma write_session (now : Z) (p s : string) (v : value) (this : backend) :
  write value JSON_stringify now ["session"; p; s] v this =
  sessions_upsert now s p (JSON_stringify v) this.
Proof. reflexivity. Qed.

Lemma read_session (p s : string) (this : backend) :
  read value JSON_parse ["session"; p; s] this =
  match sessions_data <$> sessionsMetaDB this !! s with
  | None => (Throw (NotFoundError ("Resource not found: " +:+ join ["session"; p; s])), this)
  | Some data => parse value JSON_parse data this
  end.
Proof.
  unfold read, bind, gets, sessions_select. rewrite parseKey_session. simpl.
  destruct (sessions_data <$> sessionsMetaDB this !! s); reflexivity.
Qed.

Lemma write_message (now : Z) (s m : string) (v : value) (this : backend) :
  write value JSON_stringify now ["message"; s; m] v this =
  storage_upsert now s (join ["message"; s; m]) "message" (JSON_stringify v)
    (snd (getSessionDB s (snd (cache_set m s this)))).
Proof.
  unfold write. unfold bind at 1. unfold gets at 1. rewrite parseKey_message.
  simpl. unfold bind at 1. simpl. unfold bind at 1. simpl.
  unfold bind at 1. simpl. rewrite bind_getSessionDB. reflexivity.
Qed.

Lemma routed_message (this : backend) (s m : string) :
  s <> "" -> routed this ["message"; s; m] = Some s.
Proof.
  intros Hs. unfold routed. rewrite parseKey_message. simpl.
  destruct (decide (s = "")); [contradiction | reflexivity].
Qed.

Lemma routed_part (this : backend) (m p s : string) :
  messageSessionCache this !! m = Some s -> s <> "" ->
  routed this ["part"; m; p] = Some s.
Proof.
  intros Hm Hs. unfold routed. rewrite parseKey_part, Hm. simpl.
  destruct (decide (s = "")); [contradiction | reflexivity].
Qed.

Lemma routed_inv (this : backend) (key : list string) (s : string) :
  routed this key = Some s ->
  (type (parseKey this key) = Some "message"
   \/ type (parseKey this key) = Some "part")
  /\ type (parseKey this key) <> Some "session"
  /\ truthy (sessionID (parseKey this key)) = Some s.
Proof.
  unfold routed. case_decide as Ht; [|discriminate].
  intros Hs. split; [exact Ht|]. split; [|exact Hs].
  destruct Ht as [Ht|Ht]; rewrite Ht; discriminate.
Qed.

Lemma read_routed (key : list string) (s : string) (this : backend) :
  routed this key = Some s ->
  read value JSON_parse key this =
  match storage_data <$> table s this !! join key with
  | None =>
      (Throw (NotFoundError ("Resource not found: " +:+ join key)),
       snd (getSessionDB s this))
  | Some data => parse value JSON_parse data (snd (getSessionDB s this))
  end.
Proof.
  intros Hr. apply routed_inv in Hr as (Ht & Hns & Hs).
  unfold read. unfold bind at 1. unfold gets at 1.
  destruct (decide (type (parseKey this key) = Some "session")); [contradiction|].
  destruct (decide (type (parseKey this key) = Some "message"
                    ∨ type (parseKey this key) = Some "part")); [|contradiction].
  rewrite Hs, bind_getSessionDB. unfold bind, storage_select, gets.
  rewrite getSessionDB_table.
  destruct (storage_data <$> table s this !! join key); reflexivity.
Qed.

Lemma remove_routed (key : list string) (s : string) (this : backend) :
  routed this key = Some s ->
  remove key this =
  storage_delete s (join key) (join key +:+ "/%") (snd (getSessionDB s this)).
Proof.
  intros Hr. apply routed_inv in Hr as (Ht & Hns & Hs).
  unfold remove. unfold bind at 1. unfold gets at 1.
  destruct (decide (type (parseKey this key) = Some "session")); [contradiction|].
  destruct (decide (type (parseKey this key) = Some "message"
                    ∨ type (parseKey this key) = Some "part")); [|contradiction].
  rewrite Hs, bind_getSessionDB. reflexivity.
Qed.

Lemma write_part (now : Z) (m p s : string) (v : value) (this : backend) :
  messageSessionCache this !! m = Some s -> s <> "" ->
  write value JSON_stringify now ["part"; m; p] v this =
  storage_upsert now s (join ["part"; m; p]) "part" (JSON_stringify v)
    (snd (getSessionDB s this)).
Proof.
  intros Hm Hs. unfold write. unfold bind at 1. unfold gets at 1.
  rewrite parseKey_part, Hm. simpl.
  destruct (decide (s = "")); [contradiction|].
  rewrite bind_getSessionDB. reflexivity.
Qed.

(** The row an upsert leaves holds the new data. *)
Lemma storage_upsert_select (now : Z) (db key ty data : string) (this : backend) :
  fst (storage_upsert now db key ty data this) = Ok tt
  /\ storage_data <$>
       table db (snd (storage_upsert now db key ty data this)) !! key = Some data
  /\ messageSessionCache (snd (storage_upsert now db key ty data this)) =
     messageSessionCache this.
Proof.
  unfold storage_upsert, modify. simpl. split; [reflexivity|]. split; [|reflexivity].
  rewrite table_set_table. case_decide; [|congruence].
  rewrite lookup_insert_eq. destruct (table db this !! key); reflexivity.
Qed.

Lemma storage_delete_select (db key pattern : string) (this : backend) :
  fst (storage_delete db key pattern this) = Ok tt
  /\ table db (snd (storage_delete db key pattern this)) !! key = None
  /\ messageSessionCache (snd (storage_delete db key pattern this)) =
     messageSessionCache this.
Proof.
  unfold storage_delete, modify. simpl. split; [reflexivity|]. split; [|reflexivity].
  rewrite table_set_table. case_decide; [|congruence].
  apply map_lookup_filter_None. right. intros row _ Hkeep. apply Hkeep.
  left. reflexivity.
Qed.

Lemma valid_segment_nonempty (s : string) : valid_segment s = true -> s <> "".
Proof. intros H ->. discriminate H. Qed.

(** The shape of a supported key. *)
Lemma supported_inv (this : backend) (key : list string) :
  supported this key = true ->
  exists a b,
    valid_segment a = true /\ valid_segment b = true /\
    (key = ["session"; a; b]
     \/ key = ["message"; a; b]
     \/ key = ["part"; a; b]
        /\ exists s, messageSessionCache this !! a = Some s /\ s <> "").
Proof.
  unfold supported. rewrite !andb_true_iff, bool_decide_eq_true.
  intros [[Hvalid Hlen] Hshape].
  destruct key as [|t [|a [|b [|? ?]]]]; try discriminate Hlen.
  simpl in Hshape, Hvalid. rewrite !andb_true_iff in Hvalid.
  destruct Hvalid as (_ & Ha & Hb & _).
  exists a, b. split; [exact Ha|]. split; [exact Hb|].
  repeat case_decide; subst; try discriminate Hshape; auto.
  right. right. split; [reflexivity|].
  destruct (messageSessionCache this !! a) as [s|]; [|discriminate Hshape].
  exists s. split; [reflexivity|]. apply valid_segment_nonempty, Hshape.
Qed.

Lemma bind_Ok {A B} (c : M backend A) (k : A -> M backend B)
    (this this' : backend) (a : A) :
  c this = (Ok a, this') -> bind c k this = k a this'.
Proof. intros H. unfold bind. rewrite H. reflexivity. Qed.

Lemma pair_eta {A B} (x : A * B) (a : A) :
  fst x = a -> x = (a, snd x).
Proof. destruct x. simpl. intros ->. reflexivity. Qed.

Lemma parse_stringify (v : value) (this : backend) :
  JSON_parse (JSON_stringify v) = Some v ->
  parse value JSON_parse (JSON_stringify v) this = (Ok v, this).
Proof. intros H. unfold parse. rewrite H. reflexivity. Qed.

(** After a message has been written its session is cached and its row is
    in the database of the session. *)
Lemma write_message_Ok (now : Z) (s m : string) (v : value) (this : backend) :
  exists this1,
    write value JSON_stringify now ["message"; s; m] v this = (Ok tt, this1)
    /\ messageSessionCache this1 !! m = Some s
    /\ storage_data <$> table s this1 !! join ["message"; s; m] =
       Some (JSON_stringify v).
Proof.
  rewrite write_message.
  set (this0 := snd (getSessionDB s (snd (cache_set m s this)))).
  destruct (storage_upsert_select now s (join ["message"; s; m]) "message"
              (JSON_stringify v) this0) as (Hfst & Hrow & Hcache).
  eexists. split; [apply pair_eta, Hfst|]. split; [|exact Hrow].
  rewrite Hcache. unfold this0. rewrite getSessionDB_cache. simpl.
  apply lookup_insert_eq.
Qed.

Lemma write_part_Ok (now : Z) (m p s : string) (v : value) (this : backend) :
  messageSessionCache this !! m = Some s -> s <> "" ->
  exists this1,
    write value JSON_stringify now ["part"; m; p] v this = (Ok tt, this1)
    /\ messageSessionCache this1 !! m = Some s
    /\ storage_data <$> table s this1 !! join ["part"; m; p] =
       Some (JSON_stringify v).
Proof.
  intros Hm Hs. rewrite (write_part now m p s) by assumption.
  destruct (storage_upsert_select now s (join ["part"; m; p]) "part"
              (JSON_stringify v) (snd (getSessionDB s this)))
    as (Hfst & Hrow & Hcache).
  eexists. split; [apply pair_eta, Hfst|]. split; [|exact Hrow].
  rewrite Hcache, getSessionDB_cache. exact Hm.
Qed.

Lemma write_session_Ok (now : Z) (p s : string) (v : value) (this : backend) :
  exists this1,
    write value JSON_stringify now ["session"; p; s] v this = (Ok tt, this1)
    /\ sessions_data <$> sessionsMetaDB this1 !! s = Some (JSON_stringify v)
    /\ messageSessionCache this1 = messageSessionCache this.
Proof.
  rewrite write_session. unfold sessions_upsert, modify.
  eexists. split; [reflexivity|]. simpl. split; [|reflexivity].
  rewrite lookup_insert_eq. destruct (sessionsMetaDB this !! s); reflexivity.
Qed.

(** Reading a row that is there. *)
Lemma read_routed_Some (key : list string) (s : string) (v : value)
    (this : backend) :
  routed this key = Some s ->
  storage_data <$> table s this !! join key = Some (JSON_stringify v) ->
  JSON_parse (JSON_stringify v) = Some v ->
  read value JSON_parse key this = (Ok v, snd (getSessionDB s this)).
Proof.
  intros Hr Hrow Hv. rewrite (read_routed key s) by exact Hr.
  rewrite Hrow. apply parse_stringify, Hv.
Qed.

(** C7. Round trip: for a supported key (a session key, a message key, or a
    part key whose message was written earlier in this process) and a value
    that JSON serialisation preserves, [write(k, v)] succeeds and the
    following [read(k)] returns [v].  In particular, in any state,
    [write(["message","sX","mA"], _)], [write(["part","mA","p0"], v)],
    [read(["part","mA","p0"])] returns [v], and the row is in the database
    of session [sX]. *)
Theorem write_read_round_trip
    (this : backend) (now now0 : Z) (key : list string) (v v0 : value) :
  supported this key = true ->
  JSON_parse (JSON_stringify v) = Some v ->
  (exists this1 this2,
     write value JSON_stringify now key v this = (Ok tt, this1)
     /\ read value JSON_parse key this1 = (Ok v, this2))
  /\ (exists this3,
        (write value JSON_stringify now0 ["message"; "sX"; "mA"] v0 ;;
         write value JSON_stringify now ["part"; "mA"; "p0"] v ;;
         read value JSON_parse ["part"; "mA"; "p0"]) this = (Ok v, this3)
        /\ storage_data <$> table "sX" this3 !! "part/mA/p0" =
           Some (JSON_stringify v)).
Proof.
  intros Hkey Hv. split.
  - apply supported_inv in Hkey
      as (a & b & Ha & Hb & [-> | [-> | [-> (s & Hm & Hs)]]]).
    + destruct (write_session_Ok now a b v this) as (this1 & Hw & Hrow & _).
      exists this1, this1. split; [exact Hw|].
      rewrite read_session, Hrow. apply parse_stringify, Hv.
    + destruct (write_message_Ok now a b v this) as (this1 & Hw & _ & Hrow).
      exists this1, (snd (getSessionDB a this1)). split; [exact Hw|].
      apply read_routed_Some; [|exact Hrow|exact Hv].
      apply routed_message, valid_segment_nonempty, Ha.
    + destruct (write_part_Ok now a b s v this Hm Hs) as (this1 & Hw & Hm1 & Hrow).
      exists this1, (snd (getSessionDB s this1)). split; [exact Hw|].
      apply read_routed_Some; [|exact Hrow|exact Hv].
      apply routed_part; assumption.
  - destruct (write_message_Ok now0 "sX" "mA" v0 this) as (this1 & Hw1 & Hm1 & _).
    destruct (write_part_Ok now "mA" "p0" "sX" v this1 Hm1) as (this2 & Hw2 & Hm2 & Hrow);
      [discriminate|].
    exists (snd (getSessionDB "sX" this2)).
    rewrite (bind_Ok _ _ _ _ _ Hw1), (bind_Ok _ _ _ _ _ Hw2).
    split.
    + apply read_routed_Some; [|exact Hrow|exact Hv].
      apply routed_part; [exact Hm2|discriminate].
    + rewrite getSessionDB_table. exact Hrow.
Qed.

(** **** Removing *)

Lemma remove_session (p s : string) (this : backend) :
  remove ["session"; p; s] this =
  (Ok tt,
   {| sessionsMetaDB := delete s (sessionsMetaDB this);
      sessionFiles := delete s (sessionFiles this);
      sessionDBs := sessionDBs this ∖ {[s]};
      messageSessionCache := messageSessionCache this |}).
Proof. reflexivity. Qed.

Lemma remove_routed_Ok (key : list string) (s : string) (this : backend) :
  routed this key = Some s ->
  exists this1,
    remove key this = (Ok tt, this1)
    /\ table s this1 !! join key = None
    /\ messageSessionCache this1 = messageSessionCache this.
Proof.
  intros Hr. rewrite (remove_routed key s) by exact Hr.
  destruct (storage_delete_select s (join key) (join key +:+ "/%")
              (snd (getSessionDB s this))) as (Hfst & Hrow & Hcache).
  eexists. split; [apply pair_eta, Hfst|]. split; [exact Hrow|].
  rewrite Hcache. apply getSessionDB_cache.
Qed.

Lemma read_routed_None (key : list string) (s : string) (this : backend) :
  routed this key = Some s ->
  table s this !! join key = None ->
  read value JSON_parse key this =
  (Throw (NotFoundError ("Resource not found: " +:+ join key)),
   snd (getSessionDB s this)).
Proof.
  intros Hr Hrow. rewrite (read_routed key s) by exact Hr.
  rewrite Hrow. reflexivity.
Qed.

(** C8 (amended).  For a supported key (a session key, a message key, or a
    part key whose message was written earlier in this process),
    [write(k, v)], [remove(k)] succeed and the following [read(k)] fails with
    [NotFoundError].  And in any state, [remove(["session", p, s])] unlinks
    the database file of [s], so that a following [read(["message", s, m])]
    fails with [NotFoundError] whatever had been written. *)
Theorem write_remove_read_NotFound
    (this : backend) (now : Z) (key : list string) (v : value) (p s m : string) :
  supported this key = true ->
  valid_segment s = true ->
  (exists this1 this2 this3,
     write value JSON_stringify now key v this = (Ok tt, this1)
     /\ remove key this1 = (Ok tt, this2)
     /\ read value JSON_parse key this2 =
        (Throw (NotFoundError ("Resource not found: " +:+ join key)), this3))
  /\ (exists this1 this2,
        remove ["session"; p; s] this = (Ok tt, this1)
        /\ sessionFiles this1 !! s = None
        /\ read value JSON_parse ["message"; s; m] this1 =
           (Throw (NotFoundError
                     ("Resource not found: " +:+ join ["message"; s; m])),
            this2)).
Proof.
  intros Hkey Hseg. split.
  - apply supported_inv in Hkey
      as (a & b & Ha & Hb & [-> | [-> | [-> (s' & Hm & Hs)]]]).
    + destruct (write_session_Ok now a b v this) as (this1 & Hw & _ & _).
      eexists this1, _, _. split; [exact Hw|].
      split; [apply remove_session|].
      rewrite read_session. simpl. rewrite lookup_delete_eq. reflexivity.
    + destruct (write_message_Ok now a b v this) as (this1 & Hw & _ & _).
      assert (Hr : forall st, routed st ["message"; a; b] = Some a)
        by (intros st; apply routed_message, valid_segment_nonempty, Ha).
      destruct (remove_routed_Ok _ a this1 (Hr this1)) as (this2 & Hrm & Hrow & _).
      eexists this1, this2, _. split; [exact Hw|]. split; [exact Hrm|].
      apply read_routed_None; [apply Hr | exact Hrow].
    + destruct (write_part_Ok now a b s' v this Hm Hs) as (this1 & Hw & Hm1 & _).
      destruct (remove_routed_Ok _ s' this1 (routed_part this1 a b s' Hm1 Hs))
        as (this2 & Hrm & Hrow & Hcache).
      eexists this1, this2, _. split; [exact Hw|]. split; [exact Hrm|].
      apply read_routed_None; [|exact Hrow].
      apply routed_part; [rewrite Hcache; exact Hm1 | exact Hs].
  - eexists _, _. split; [apply remove_session|]. simpl.
    split; [apply lookup_delete_eq|].
    apply read_routed_None.
    + apply routed_message, valid_segment_nonempty, Hseg.
    + unfold table. simpl. rewrite lookup_delete_eq. reflexivity.
Qed.

(** **** Listing *)

Lemma write_message_frame (now : Z) (s m db : string) (v : value)
    (this : backend) :
  db <> s ->
  table db (snd (write value JSON_stringify now ["message"; s; m] v this)) =
  table db this.
Proof.
  intros Hdb. rewrite write_message. unfold storage_upsert, modify. simpl.
  rewrite table_set_table. case_decide; [contradiction|].
  rewrite getSessionDB_table. reflexivity.
Qed.

Lemma write_part_frame (now : Z) (m p s db : string) (v : value)
    (this : backend) :
  messageSessionCache this !! m = Some s -> s <> "" -> db <> s ->
  table db (snd (write value JSON_stringify now ["part"; m; p] v this)) =
  table db this.
Proof.
  intros Hm Hs Hdb. rewrite (write_part now m p s) by assumption.
  unfold storage_upsert, modify. simpl.
  rewrite table_set_table. case_decide; [contradiction|].
  apply getSessionDB_table.
Qed.

Lemma list_part (m : string) (this : backend) :
  MultiSqliteBackend.list ["part"; m] this =
  let this1 := snd (getSessionDB m this) in
  (Ok (split <$>
         merge_sort key_le
           (fst <$> map_to_list
              (filter (fun kv => like (join ["part"; m] +:+ "/%") (fst kv) = true)
                 (table m this)))),
   this1).
Proof.
  unfold MultiSqliteBackend.list. simpl. unfold bind at 1. simpl.
  rewrite bind_getSessionDB. unfold bind, storage_keys_like, gets, ret.
  rewrite getSessionDB_table. reflexivity.
Qed.

Global Instance key_le_total : Total key_le.
Proof. intros a b. apply String.leb_total. Qed.

Global Instance newer_first_total : Total newer_first.
Proof. intros a b. unfold newer_first. lia. Qed.

(** What [list] returns for a message or part prefix: the keys of the
    database named by the second segment that match the pattern, in the
    order of [ORDER BY key]. *)
Lemma list_storage_keys (prefix : list string) (d : string) (this : backend) :
  prefix !! 0%nat = Some "message" \/ prefix !! 0%nat = Some "part" ->
  prefix !! 1%nat = Some d ->
  exists keys,
    MultiSqliteBackend.list prefix this =
      (Ok (split <$> keys), snd (getSessionDB d this))
    /\ Sorted key_le keys
    /\ forall k,
         k ∈ keys <->
         is_Some (table d this !! k)
         /\ like (if decide (join prefix = "") then "%"
                  else join prefix +:+ "/%") k = true.
Proof.
  intros Ht Hd. unfold MultiSqliteBackend.list.
  destruct (decide (prefix !! 0%nat = Some "session")) as [Hs|_].
  { rewrite Hs in Ht. destruct Ht; discriminate. }
  destruct (decide (prefix !! 0%nat = Some "message"
                    ∨ prefix !! 0%nat = Some "part")); [|contradiction].
  rewrite snd_require, Hd, bind_getSessionDB.
  unfold bind, storage_keys_like, gets, ret. rewrite getSessionDB_table.
  eexists. split; [reflexivity|]. split; [apply Sorted_merge_sort, _|].
  intros k. rewrite merge_sort_Permutation, list_elem_of_fmap. split.
  - intros [[k' row] [-> Hin]].
    apply elem_of_map_to_list, map_lookup_filter_Some in Hin as [Hrow Hlike].
    simpl in *. split; [eexists; exact Hrow | exact Hlike].
  - intros [[row Hrow] Hlike]. exists (k, row). split; [reflexivity|].
    apply elem_of_map_to_list, map_lookup_filter_Some. split; assumption.
Qed.

(** What [list] returns for a session prefix: the sessions of the project,
    most recently updated first. *)
Lemma list_sessions (p : string) (this : backend) :
  exists rows,
    MultiSqliteBackend.list ["session"; p] this =
      (Ok ((fun r => ["session"; p; fst r]) <$> rows), this)
    /\ Sorted newer_first rows
    /\ forall session_id row,
         (session_id, row) ∈ rows <->
         sessionsMetaDB this !! session_id = Some row /\ project_id row = p.
Proof.
  eexists. split.
  - unfold MultiSqliteBackend.list. simpl.
    unfold bind, sessions_by_project, gets, ret. simpl.
    rewrite <- list_fmap_compose. reflexivity.
  - split; [apply Sorted_merge_sort, _|].
    intros session_id row.
    rewrite merge_sort_Permutation, elem_of_map_to_list, map_lookup_filter_Some.
    reflexivity.
Qed.

(** C3 on the source.  [list(["part", m])] takes the second segment of the
    prefix, the message id, for a session id and lists the database
    [sessions/{m}.db].  After [write(["message", s, m], _)] and
    [write(["part", m, p], v)] with [s] different from [m], the part is in
    the database of session [s] and [list(["part", m])] returns the empty
    list instead of [[["part", m, p]]]. *)
Theorem list_part_misses_written_parts
    (this : backend) (now0 now : Z) (s m p : string) (v0 v : value) :
  s <> "" -> s <> m -> sessionFiles this !! m = None ->
  exists this1,
    (write value JSON_stringify now0 ["message"; s; m] v0 ;;
     write value JSON_stringify now ["part"; m; p] v ;;
     MultiSqliteBackend.list ["part"; m]) this = (Ok [], this1)
    /\ storage_data <$> table s this1 !! join ["part"; m; p] =
       Some (JSON_stringify v)
    /\ table m this1 = ∅.
Proof.
  intros Hs Hsm Hfile.
  destruct (write_message_Ok now0 s m v0 this) as (this1 & Hw1 & Hm1 & _).
  destruct (write_part_Ok now m p s v this1 Hm1 Hs) as (this2 & Hw2 & _ & Hrow).
  assert (Hempty : table m this2 = ∅).
  { replace this2 with
      (snd (write value JSON_stringify now ["part"; m; p] v this1))
      by (rewrite Hw2; reflexivity).
    rewrite (write_part_frame now m p s) by (assumption || congruence).
    replace this1 with
      (snd (write value JSON_stringify now0 ["message"; s; m] v0 this))
      by (rewrite Hw1; reflexivity).
    rewrite write_message_frame by congruence.
    unfold table. rewrite Hfile. reflexivity. }
  exists (snd (getSessionDB m this2)).
  rewrite (bind_Ok _ _ _ _ _ Hw1), (bind_Ok _ _ _ _ _ Hw2), list_part.
  rewrite !getSessionDB_table, Hempty, map_filter_empty, map_to_list_empty.
  split; [reflexivity|]. split; [exact Hrow | reflexivity].
Qed.

(** **** Which session database files exist *)

Lemma parseKey_type (this : backend) (key : list string) :
  type (parseKey this key) = key !! 0%nat.
Proof.
  unfold parseKey. repeat case_decide; simpl; congruence.
Qed.

Lemma parseKey_session_id (this : backend) (key : list string) :
  key !! 0%nat = Some "session" ->
  sessionID (parseKey this key) = key !! 2%nat.
Proof.
  intros H. unfold parseKey. rewrite H. simpl.
  destruct key as [|? [|? [|? ?]]]; reflexivity.
Qed.

Lemma parseKey_message_id (this : backend) (key : list string) :
  key !! 0%nat = Some "message" ->
  sessionID (parseKey this key) = key !! 1%nat
  /\ id (parseKey this key) = key !! 2%nat.
Proof.
  intros H. unfold parseKey. rewrite H. simpl.
  destruct key as [|? [|? [|? ?]]]; split; reflexivity.
Qed.

Lemma routed_session (this : backend) (key : list string) :
  key !! 0%nat = Some "session" -> routed this key = None.
Proof.
  intros H. unfold routed. rewrite parseKey_type, H.
  case_decide as Ht; [|reflexivity]. destruct Ht; discriminate.
Qed.

(** The state [read] leaves: the database the key is routed to is open. *)
Lemma read_state (key : list string) (this : backend) :
  snd (read value JSON_parse key this) =
  match routed this key with
  | Some d => snd (getSessionDB d this)
  | None => this
  end.
Proof.
  destruct (routed this key) as [d|] eqn:Hr.
  - rewrite (read_routed key d) by exact Hr.
    destruct (storage_data <$> table d this !! join key);
      [apply snd_parse | reflexivity].
  - unfold routed in Hr. unfold read. unfold bind at 1. unfold gets at 1.
    destruct (decide (type (parseKey this key) = Some "session")).
    + rewrite snd_require. destruct (sessionID (parseKey this key)); [|reflexivity].
      unfold bind, sessions_select, gets.
      destruct (sessions_data <$> sessionsMetaDB this !! s);
        [apply snd_parse | reflexivity].
    + destruct (decide (type (parseKey this key) = Some "message"
                        ∨ type (parseKey this key) = Some "part"));
        [|reflexivity].
      rewrite Hr. reflexivity.
Qed.

(** [effect O U this this']: from [this] to [this'] the files and handles
    in [U] went away and those in [O] came into being. *)
Local Abbreviation effect O U this this' :=
  (dom (sessionFiles this') = O ∪ (dom (sessionFiles this) ∖ U)
   /\ sessionDBs this' = O ∪ (sessionDBs this ∖ U)).

Lemma effect_none (this : backend) : effect ∅ ∅ this this.
Proof. split; set_solver. Qed.

Lemma effect_same (this this' : backend) :
  sessionFiles this' = sessionFiles this ->
  sessionDBs this' = sessionDBs this ->
  effect ∅ ∅ this this'.
Proof. intros -> ->. split; set_solver. Qed.

Lemma getSessionDB_effect (d : string) (this : backend) :
  consistent this ->
  effect {[d]} ∅ this (snd (getSessionDB d this)).
Proof.
  unfold consistent, getSessionDB. intros Hc.
  destruct (decide (d ∈ sessionDBs this)) as [Hin|Hout]; simpl.
  - split; set_solver.
  - destruct (sessionFiles this !! d) eqn:E.
    + assert (d ∈ dom (sessionFiles this)) by (apply elem_of_dom; eauto).
      split; set_solver.
    + rewrite dom_insert_L. split; set_solver.
Qed.

Lemma set_table_open_effect (d : string) (t : gmap string storage_row)
    (this : backend) :
  consistent this ->
  effect {[d]} ∅ this (set_table d t (snd (getSessionDB d this))).
Proof.
  intros Hc. destruct (getSessionDB_effect d this Hc) as [Hf Hd].
  unfold set_table. simpl. rewrite dom_insert_L, Hf, Hd. split; set_solver.
Qed.

Lemma read_effect (key : list string) (this : backend) :
  consistent this ->
  effect (option_to_set (routed this key)) ∅ this
    (snd (read value JSON_parse key this)).
Proof.
  intros Hc. rewrite read_state. destruct (routed this key) as [d|]; simpl.
  - apply getSessionDB_effect, Hc.
  - apply effect_none.
Qed.

Lemma consistent_cache_set (m s : string) (this : backend) :
  consistent this -> consistent (snd (cache_set m s this)).
Proof. intros H. exact H. Qed.

Lemma write_effect (now : Z) (key : list string) (v : value) (this : backend) :
  consistent this ->
  effect (option_to_set (opens value this (Write value key v))) ∅ this
    (snd (write value JSON_stringify now key v this)).
Proof.
  intros Hc.
  remember (snd (write value JSON_stringify now key v this)) as this' eqn:E.
  unfold opens. unfold write in E. unfold bind at 1 in E. unfold gets at 1 in E.
  rewrite parseKey_type in E.
  destruct (decide (key !! 0%nat = Some "session")) as [Hs|Hns].
  { rewrite Hs. simpl. rewrite !snd_require in E.
    destruct (key !! 1%nat); [|subst; apply effect_none].
    rewrite snd_require in E.
    destruct (key !! 2%nat); subst;
      [apply effect_same; reflexivity | apply effect_none]. }
  destruct (decide (key !! 0%nat = Some "message")) as [Hm|Hnm].
  { destruct (parseKey_message_id this key Hm) as [Hsid Hid].
    rewrite Hsid, Hid, snd_require in E.
    destruct (key !! 1%nat) as [d|];
      [|subst; destruct (key !! 2%nat); apply effect_none].
    rewrite snd_require in E.
    destruct (key !! 2%nat) as [m|]; [|subst; apply effect_none].
    unfold bind at 1 in E. simpl in E. rewrite bind_getSessionDB in E.
    subst this'.
    apply (set_table_open_effect d _ (snd (cache_set m d this))).
    apply consistent_cache_set, Hc. }
  destruct (decide (key !! 0%nat = Some "part")) as [Hp|Hnp].
  { unfold routed. rewrite parseKey_type, Hp.
    destruct (decide (Some "part" = Some "message" ∨ Some "part" = Some "part"));
      [|tauto].
    destruct (truthy (sessionID (parseKey this key))) as [d|];
      [|subst; apply effect_none].
    rewrite bind_getSessionDB in E. subst this'.
    apply set_table_open_effect, Hc. }
  subst. apply effect_none.
Qed.

Lemma effect_consistent (O U : gset string) (this this' : backend) :
  consistent this -> effect O U this this' -> consistent this'.
Proof. unfold consistent. intros Hc [Hf Hd]. rewrite Hf, Hd. set_solver. Qed.

Lemma remove_effect (key : list string) (this : backend) :
  consistent this ->
  effect (option_to_set (routed this key))
    (option_to_set (unlinks value (Remove value key))) this
    (snd (remove key this)).
Proof.
  intros Hc. unfold unlinks.
  destruct (decide (key !! 0%nat = Some "session")) as [Hs|Hns].
  - rewrite (routed_session this key Hs).
    remember (snd (remove key this)) as this' eqn:E.
    unfold remove in E. unfold bind at 1 in E. unfold gets at 1 in E.
    rewrite parseKey_type, Hs, parseKey_session_id in E by exact Hs.
    simpl in E. rewrite snd_require in E.
    destruct (key !! 2%nat) as [d|]; subst this'; simpl.
    + rewrite dom_delete_L. split; set_solver.
    + split; set_solver.
  - destruct (routed this key) as [d|] eqn:Hr; simpl.
    + rewrite (remove_routed key d) by exact Hr.
      destruct (set_table_open_effect d
                  (filter (fun kv => ¬ (fst kv = join key
                                        ∨ like (join key +:+ "/%") (fst kv) = true))
                     (table d (snd (getSessionDB d this)))) this Hc) as [Hf Hd].
      unfold storage_delete, modify. simpl. simpl in Hf, Hd.
      rewrite Hf, Hd. split; set_solver.
    + remember (snd (remove key this)) as this' eqn:E.
      unfold remove in E. unfold bind at 1 in E. unfold gets at 1 in E.
      unfold routed in Hr. rewrite parseKey_type in *.
      destruct (decide (key !! 0%nat = Some "session")); [contradiction|].
      destruct (decide (key !! 0%nat = Some "message"
                        ∨ key !! 0%nat = Some "part")).
      * rewrite Hr in E. subst this'. split; set_solver.
      * subst this'. split; set_solver.
Qed.

Lemma list_effect (prefix : list string) (this : backend) :
  consistent this ->
  effect (option_to_set (opens value this (List value prefix))) ∅ this
    (snd (MultiSqliteBackend.list prefix this)).
Proof.
  intros Hc. unfold opens.
  remember (snd (MultiSqliteBackend.list prefix this)) as this' eqn:E.
  unfold MultiSqliteBackend.list in E.
  destruct (decide (prefix !! 0%nat = Some "session")) as [Hs|Hns].
  { rewrite Hs. simpl. rewrite snd_require in E.
    destruct (prefix !! 1%nat); subst this'; apply effect_none. }
  destruct (decide (prefix !! 0%nat = Some "message"
                    ∨ prefix !! 0%nat = Some "part")); [|subst; apply effect_none].
  rewrite snd_require in E.
  destruct (prefix !! 1%nat) as [d|]; [|subst; apply effect_none].
  rewrite bind_getSessionDB in E. subst this'. simpl.
  apply getSessionDB_effect, Hc.
Qed.

(** A message or part key that is routed nowhere cannot be read. *)
Lemma read_unrouted (key : list string) (this : backend) :
  key !! 0%nat = Some "message" \/ key !! 0%nat = Some "part" ->
  routed this key = None ->
  exists e, read value JSON_parse key this = (Throw e, this).
Proof.
  intros Ht Hr. unfold routed in Hr. unfold read.
  unfold bind at 1. unfold gets at 1. rewrite parseKey_type in *.
  destruct (decide (key !! 0%nat = Some "session")) as [Hs|_].
  { rewrite Hs in Ht. destruct Ht; discriminate. }
  destruct (decide (key !! 0%nat = Some "message"
                    ∨ key !! 0%nat = Some "part")); [|contradiction].
  rewrite Hr. eexists. reflexivity.
Qed.

(** What [write] opens after a successful [read] of the same key, [read]
    has opened already. *)
Lemma opens_write_after_read (key : list string) (content v : value)
    (this : backend) :
  fst (read value JSON_parse key this) = Ok content ->
  option_to_set
    (opens value (snd (read value JSON_parse key this)) (Write value key v))
  ⊆@{gset string} option_to_set (routed this key).
Proof.
  intros Hread. unfold opens.
  destruct (decide (key !! 0%nat = Some "message")) as [Hm|Hnm].
  { destruct (routed this key) as [d|] eqn:Hr.
    - unfold routed in Hr. rewrite parseKey_type in Hr.
      destruct (decide (key !! 0%nat = Some "message"
                        ∨ key !! 0%nat = Some "part")); [|discriminate].
      destruct (parseKey_message_id this key Hm) as [Hsid _].
      rewrite Hsid in Hr. unfold truthy in Hr.
      destruct (key !! 1%nat) as [d'|]; [|discriminate].
      destruct (decide (d' = "")); [discriminate|].
      injection Hr as ->. destruct (key !! 2%nat); set_solver.
    - destruct (read_unrouted key this (or_introl Hm) Hr) as [e He].
      rewrite He in Hread. discriminate. }
  destruct (decide (key !! 0%nat = Some "part")) as [Hp|Hnp]; [|set_solver].
  destruct (routed this key) as [d|] eqn:Hr.
  - rewrite read_state, Hr.
    unfold routed in *. rewrite parseKey_type in *.
    destruct (decide (key !! 0%nat = Some "message"
                      ∨ key !! 0%nat = Some "part")); [|discriminate].
    assert (Hsame : sessionID (parseKey (snd (getSessionDB d this)) key) =
                    sessionID (parseKey this key)).
    { unfold parseKey. rewrite getSessionDB_cache. reflexivity. }
    rewrite Hsame, Hr. set_solver.
  - destruct (read_unrouted key this (or_intror Hp) Hr) as [e He].
    rewrite He in Hread. discriminate.
Qed.

Lemma update_effect (now : Z) (key : list string) (fn : value -> value)
    (this : backend) :
  consistent this ->
  effect (option_to_set (routed this key)) ∅ this
    (snd (update value JSON_stringify JSON_parse now key fn this)).
Proof.
  intros Hc. pose proof (read_effect key this Hc) as Hread.
  unfold update, bind.
  destruct (read value JSON_parse key this) as [[content|e] this1] eqn:E;
    [|exact Hread].
  simpl in Hread.
  pose proof (effect_consistent _ _ _ _ Hc Hread) as Hc1.
  pose proof (write_effect now key (fn content) this1 Hc1) as Hwrite.
  pose proof (opens_write_after_read key content (fn content) this) as Hsub.
  rewrite E in Hsub. simpl in Hsub. specialize (Hsub eq_refl).
  destruct (write value JSON_stringify now key (fn content) this1)
    as [[[]|e] this2]; simpl in *;
    destruct Hread as [Hf1 Hd1], Hwrite as [Hf2 Hd2];
    rewrite Hf2, Hd2, Hf1, Hd1; split; set_solver.
Qed.

(** What an operation does to the session database files and handles. *)
Lemma exec_effect (now : Z) (o : op value) (this : backend) :
  consistent this ->
  effect (option_to_set (opens value this o)) (option_to_set (unlinks value o))
    this (exec value JSON_stringify JSON_parse now o this).
Proof.
  intros Hc. destruct o as [key|key v|key fn|key|prefix]; simpl.
  - apply read_effect, Hc.
  - apply write_effect, Hc.
  - apply update_effect, Hc.
  - apply remove_effect, Hc.
  - apply list_effect, Hc.
Qed.

(** A later process run finds the files of the earlier one, none of them
    open. *)
Lemma restart_consistent (this : backend) :
  sessionFiles (restart this) = sessionFiles this /\ consistent (restart this).
Proof. split; [reflexivity|]. unfold consistent. simpl. set_solver. Qed.

(** A file that exists after a sequence of operations existed before it or
    was opened by one of them. *)
Lemma run_files (ops : list (Z * op value)) (this : backend) (s : string) :
  consistent this ->
  consistent (run value JSON_stringify JSON_parse ops this)
  /\ (s ∈ dom (sessionFiles (run value JSON_stringify JSON_parse ops this)) ->
      s ∈ dom (sessionFiles this)
      \/ exists before now o after,
           ops = before ++ (now, o) :: after
           /\ opens value (run value JSON_stringify JSON_parse before this) o
              = Some s).
Proof.
  revert this. induction ops as [|[now o] ops IH]; intros this Hc.
  - split; [exact Hc | intros H; left; exact H].
  - pose proof (exec_effect now o this Hc) as Heff.
    pose proof (effect_consistent _ _ _ _ Hc Heff) as Hc1.
    destruct (IH _ Hc1) as [Hfinal Hin]. simpl.
    split; [exact Hfinal|]. intros H.
    destruct (Hin H) as [Hstep | (before & now' & o' & after & -> & Ho)].
    + destruct Heff as [Hf _]. rewrite Hf in Hstep.
      rewrite elem_of_union, elem_of_difference, elem_of_option_to_set in Hstep.
      destruct Hstep as [Ho | [Hold _]]; [|left; exact Hold].
      right. exists [], now, o, ops. split; [reflexivity | exact Ho].
    + right. exists ((now, o) :: before), now', o', after.
      split; [reflexivity | exact Ho].
Qed.

(** **** The message routes *)

Lemma read_cache (key : list string) (this : backend) :
  messageSessionCache (snd (read value JSON_parse key this)) =
  messageSessionCache this.
Proof.
  rewrite read_state.
  destruct (routed this key); [apply getSessionDB_cache | reflexivity].
Qed.

(** The one route [write] records is the second segment of its key. *)
Lemma write_cache (now : Z) (key : list string) (v : value) (this : backend)
    (m s : string) :
  messageSessionCache (snd (write value JSON_stringify now key v this)) !! m
    = Some s ->
  messageSessionCache this !! m = Some s \/ key !! 1%nat = Some s.
Proof.
  remember (snd (write value JSON_stringify now key v this)) as this' eqn:E.
  unfold write in E. unfold bind at 1 in E. unfold gets at 1 in E.
  rewrite parseKey_type in E.
  destruct (decide (key !! 0%nat = Some "session")) as [Hs|Hns].
  { rewrite !snd_require in E.
    destruct (key !! 1%nat); [|subst; intros H; left; exact H].
    rewrite snd_require in E.
    destruct (key !! 2%nat); subst; intros H; left; exact H. }
  destruct (decide (key !! 0%nat = Some "message")) as [Hm|Hnm].
  { destruct (parseKey_message_id this key Hm) as [Hsid Hid].
    rewrite Hsid, Hid, snd_require in E.
    destruct (key !! 1%nat) as [d|];
      [|subst; destruct (key !! 2%nat); intros H; left; exact H].
    rewrite snd_require in E.
    destruct (key !! 2%nat) as [m'|]; [|subst; intros H; left; exact H].
    unfold bind at 1 in E. simpl in E. rewrite bind_getSessionDB in E.
    subst this'. unfold storage_upsert, modify, set_table. simpl.
    rewrite getSessionDB_cache. simpl.
    destruct (decide (m = m')) as [->|Hne].
    - rewrite lookup_insert_eq. intros H. right. exact H.
    - rewrite lookup_insert_ne by congruence. intros H. left. exact H. }
  destruct (decide (key !! 0%nat = Some "part")) as [Hp|Hnp].
  { destruct (truthy (sessionID (parseKey this key))) as [d|];
      [|subst; intros H; left; exact H].
    rewrite bind_getSessionDB in E. subst this'.
    unfold storage_upsert, modify, set_table. simpl.
    rewrite getSessionDB_cache. intros H. left. exact H. }
  subst. intros H. left. exact H.
Qed.

Lemma remove_cache (key : list string) (this : backend) :
  messageSessionCache (snd (remove key this)) = messageSessionCache this.
Proof.
  destruct (routed this key) as [d|] eqn:Hr.
  - rewrite (remove_routed key d) by exact Hr.
    unfold storage_delete, modify, set_table. simpl. apply getSessionDB_cache.
  - remember (snd (remove key this)) as this' eqn:E.
    unfold remove in E. unfold bind at 1 in E. unfold gets at 1 in E.
    unfold routed in Hr.
    destruct (decide (type (parseKey this key) = Some "session")).
    + rewrite snd_require in E.
      destruct (sessionID (parseKey this key)); subst this'; reflexivity.
    + destruct (decide (type (parseKey this key) = Some "message"
                        ∨ type (parseKey this key) = Some "part")).
      * rewrite Hr in E. subst this'. reflexivity.
      * subst this'. reflexivity.
Qed.

Lemma list_cache (prefix : list string) (this : backend) :
  messageSessionCache (snd (MultiSqliteBackend.list prefix this)) =
  messageSessionCache this.
Proof.
  remember (snd (MultiSqliteBackend.list prefix this)) as this' eqn:E.
  unfold MultiSqliteBackend.list in E.
  destruct (decide (prefix !! 0%nat = Some "session")) as [Hs|Hns].
  { rewrite snd_require in E. destruct (prefix !! 1%nat); subst this'; reflexivity. }
  destruct (decide (prefix !! 0%nat = Some "message"
                    ∨ prefix !! 0%nat = Some "part")); [|subst; reflexivity].
  rewrite snd_require in E.
  destruct (prefix !! 1%nat) as [d|]; [|subst; reflexivity].
  rewrite bind_getSessionDB in E. subst this'. simpl.
  apply getSessionDB_cache.
Qed.

Lemma complete_valid (n : nat) (key : list string) (s : string) :
  complete n key = true -> key !! 1%nat = Some s -> valid_segment s = true.
Proof.
  unfold complete, valid_key. intros H Hs.
  apply andb_true_iff in H as [H _].
  destruct key as [|a [|b key]]; [discriminate Hs | discriminate Hs |].
  injection Hs as ->. simpl in H.
  apply andb_true_iff in H as [_ H]. apply andb_true_iff in H as [H _].
  exact H.
Qed.

(** The routes stay valid under operations on well-formed keys. *)
Lemma exec_valid_routes (now : Z) (o : op value) (this : backend) :
  well_formed value o = true -> valid_routes this ->
  valid_routes (exec value JSON_stringify JSON_parse now o this).
Proof.
  intros Hwf Hv m s. destruct o as [key|key v|key fn|key|prefix]; simpl.
  - rewrite read_cache. apply Hv.
  - intros H. apply write_cache in H as [H|H];
      [eapply Hv, H | eapply complete_valid; [exact Hwf | exact H]].
  - unfold update, bind.
    pose proof (read_cache key this) as Hread.
    destruct (read value JSON_parse key this) as [[content|e] this1];
      simpl in Hread; [|simpl; rewrite Hread; apply Hv].
    pose proof (write_cache now key (fn content) this1 m s) as Hwrite.
    destruct (write value JSON_stringify now key (fn content) this1)
      as [[[]|e] this2]; simpl in *; intros H;
      (destruct (Hwrite H) as [H'|H'];
       [rewrite Hread in H'; eapply Hv, H'
       | eapply complete_valid; [exact Hwf | exact H']]).
  - rewrite remove_cache. apply Hv.
  - rewrite list_cache. apply Hv.
Qed.

Lemma run_valid_routes (ops : list (Z * op value)) (this : backend) :
  Forall (fun x => well_formed value (snd x) = true) ops ->
  valid_routes this ->
  valid_routes (run value JSON_stringify JSON_parse ops this).
Proof.
  revert this. induction ops as [|[now o] ops IH]; intros this Hwf Hv.
  - exact Hv.
  - apply Forall_cons in Hwf as [Ho Hops]. simpl.
    apply IH; [exact Hops|]. apply exec_valid_routes; assumption.
Qed.

(** C4 (amended).  The operations are those on keys as the specification
    has them: valid segments, and every segment the source uses present.
    From a state in which every open handle has its file and every message
    is routed to a session with a valid id, both of which every such
    operation preserves, the file [sessions/{s}.db] exists after an
    operation exactly when the operation opened the database of [s], or
    the file existed before and the operation is not the removal of session
    [s].  The operations that open the database of a session are those on
    a message or part key routed to it ([write], and also [read], [update]
    and [remove]) and [list] on a message or part prefix whose second segment
    is [s]: reads and lists create the file of a session that was never
    written.  Over a sequence of operations, a file that exists at the end
    existed at the start or was opened by one of the operations. *)
Theorem session_file_exists_after
    (now : Z) (o : op value) (ops : list (Z * op value)) (this : backend)
    (s : string) :
  consistent this ->
  valid_routes this ->
  well_formed value o = true ->
  Forall (fun x => well_formed value (snd x) = true) ops ->
  (consistent (exec value JSON_stringify JSON_parse now o this)
   /\ valid_routes (exec value JSON_stringify JSON_parse now o this))
  /\ (s ∈ dom (sessionFiles (exec value JSON_stringify JSON_parse now o this)) <->
      opens value this o = Some s
      \/ (s ∈ dom (sessionFiles this) /\ unlinks value o <> Some s))
  /\ (consistent (run value JSON_stringify JSON_parse ops this)
      /\ valid_routes (run value JSON_stringify JSON_parse ops this))
  /\ (s ∈ dom (sessionFiles (run value JSON_stringify JSON_parse ops this)) ->
      s ∈ dom (sessionFiles this)
      \/ exists before now' o' after,
           ops = before ++ (now', o') :: after
           /\ opens value (run value JSON_stringify JSON_parse before this) o'
              = Some s).
Proof.
  intros Hc Hv Ho Hops. pose proof (exec_effect now o this Hc) as Heff.
  split; [split; [exact (effect_consistent _ _ _ _ Hc Heff)
                 | apply exec_valid_routes; assumption]|].
  destruct (run_files ops this s Hc) as [Hrun Hfiles].
  split; [|split; [split; [exact Hrun | apply run_valid_routes; assumption]
                  | exact Hfiles]].
  destruct Heff as [Hf _]. rewrite Hf.
  rewrite elem_of_union, elem_of_difference, !elem_of_option_to_set.
  split.
  - intros [H|[H1 H2]]; [left; exact H | right; split; [exact H1 | exact H2]].
  - intros [H|[H1 H2]]; [left; exact H | right; split; [exact H1 | exact H2]].
Qed.

End MultiSqliteFacts.

Lemma consistent_fresh : MultiSqliteBackend.consistent MultiSqliteBackend.fresh.
Proof. unfold MultiSqliteBackend.consistent. set_solver. Qed.

(** At a concrete input: the part written under message [m] of session
    [s] is not listed. *)
Lemma list_part_misses_written_parts_witness :
  exists this1,
    (MultiSqliteBackend.write string text_stringify 1 ["message"; "s"; "m"] "v0" ;;
     MultiSqliteBackend.write string text_stringify 2 ["part"; "m"; "p"] "v" ;;
     MultiSqliteBackend.list ["part"; "m"]) MultiSqliteBackend.fresh
    = (Ok [], this1)
    /\ MultiSqliteBackend.storage_data <$>
         MultiSqliteBackend.table "s" this1 !! join ["part"; "m"; "p"] = Some "v"
    /\ MultiSqliteBackend.table "m" this1 = ∅.
Proof.
  apply (list_part_misses_written_parts string text_stringify
           MultiSqliteBackend.fresh 1 2 "s" "m" "p" "v0" "v");
    [discriminate | discriminate | reflexivity].
Defined.

(** Reads and lists do create files: in a project that was never written
    to, reading a message of session [s] and listing the messages of
    session [s] each create [sessions/s.db]. *)
Lemma read_and_list_create_session_file :
  MultiSqliteBackend.sessionFiles MultiSqliteBackend.fresh !! "s" = None
  /\ MultiSqliteBackend.sessionFiles
       (MultiSqliteBackend.exec string text_stringify text_parse 1
          (MultiSqliteBackend.Read string ["message"; "s"; "m"])
          MultiSqliteBackend.fresh) !! "s" = Some ∅
  /\ MultiSqliteBackend.sessionFiles
       (MultiSqliteBackend.exec string text_stringify text_parse 1
          (MultiSqliteBackend.List string ["message"; "s"])
          MultiSqliteBackend.fresh) !! "s" = Some ∅.
Proof. repeat split; vm_compute; reflexivity. Qed.

Lemma valid_routes_fresh : MultiSqliteBackend.valid_routes MultiSqliteBackend.fresh.
Proof. intros m s H. discriminate H. Qed.

(** The file of session [s] after reading one of its messages in a project
    that was never written to. *)
Lemma session_file_exists_after_witness :
  MultiSqliteBackend.consistent MultiSqliteBackend.fresh
  /\ MultiSqliteBackend.valid_routes MultiSqliteBackend.fresh
  /\ MultiSqliteBackend.well_formed string
       (MultiSqliteBackend.Read string ["message"; "s"; "m"]) = true
  /\ ("s" ∈ dom (MultiSqliteBackend.sessionFiles
                   (MultiSqliteBackend.exec string text_stringify text_parse 1
                      (MultiSqliteBackend.Read string ["message"; "s"; "m"])
                      MultiSqliteBackend.fresh)) <->
      MultiSqliteBackend.opens string MultiSqliteBackend.fresh
        (MultiSqliteBackend.Read string ["message"; "s"; "m"]) = Some "s"
      \/ ("s" ∈ dom (MultiSqliteBackend.sessionFiles MultiSqliteBackend.fresh)
          /\ MultiSqliteBackend.unlinks string
               (MultiSqliteBackend.Read string ["message"; "s"; "m"]) <> Some "s")).
Proof.
  split; [exact consistent_fresh|]. split; [exact valid_routes_fresh|].
  split; [reflexivity|].
  exact (proj1 (proj2 (session_file_exists_after string text_stringify text_parse 1
                         (MultiSqliteBackend.Read string ["message"; "s"; "m"]) []
                         MultiSqliteBackend.fresh "s" consistent_fresh
                         valid_routes_fresh eq_refl (Forall_nil_2 _)))).
Defined.

(** The error of a part whose message was not written is not a tagged
    error: it is a plain [Error], told from other errors by its message
    only, and no [SessionUnknown] is thrown. *)
Lemma session_unknown_is_not_tagged :
  exists e,
    fst (MultiSqliteBackend.write string text_stringify 1 ["part"; "mA"; "p0"] "v"
           MultiSqliteBackend.fresh) = Throw e
    /\ e = Error "Cannot write part: session unknown for message mA"
    /\ tag e = None
    /\ tag e <> Some "SessionUnknown".
Proof.
  eexists. split; [reflexivity|]. split; [reflexivity|].
  split; [reflexivity | discriminate].
Qed.

(** A part whose message was not written, in a project that was never
    written to. *)
Lemma part_without_message_fails_witness :
  MultiSqliteBackend.messageSessionCache MultiSqliteBackend.fresh !! "mA" = None
  /\ MultiSqliteBackend.write string text_stringify 1 ["part"; "mA"; "p0"] "v"
       MultiSqliteBackend.fresh =
     (Throw (Error "Cannot write part: session unknown for message mA"),
      MultiSqliteBackend.fresh).
Proof.
  split; [reflexivity|].
  exact (proj1 (proj2 (part_without_message_fails string text_stringify text_parse
                         MultiSqliteBackend.fresh 1 "mA" "p0" "v" (fun x => x)
                         eq_refl))).
Defined.

(** The round trip of a message in a project that was never written to. *)
Lemma write_read_round_trip_witness :
  MultiSqliteBackend.supported MultiSqliteBackend.fresh ["message"; "sX"; "mA"] = true
  /\ text_parse (text_stringify "v") = Some "v"
  /\ exists this1 this2,
       MultiSqliteBackend.write string text_stringify 1 ["message"; "sX"; "mA"] "v"
         MultiSqliteBackend.fresh = (Ok tt, this1)
       /\ MultiSqliteBackend.read string text_parse ["message"; "sX"; "mA"] this1
          = (Ok "v", this2).
Proof.
  split; [reflexivity|]. split; [reflexivity|].
  exact (proj1 (write_read_round_trip string text_stringify text_parse
                  MultiSqliteBackend.fresh 1 0 ["message"; "sX"; "mA"] "v" "v0"
                  eq_refl eq_refl)).
Defined.

(** Not every key ends in [NotFoundError]: for a part key whose message
    was not written, [write] throws the session-unknown error, so the
    sequence does not end in [NotFoundError]; and [read] of that key alone
    throws the session-unknown error as well. *)
Lemma write_remove_read_part_without_message :
  fst ((MultiSqliteBackend.write string text_stringify 1 ["part"; "m"; "p"] "v" ;;
        MultiSqliteBackend.remove ["part"; "m"; "p"] ;;
        MultiSqliteBackend.read string text_parse ["part"; "m"; "p"])
         MultiSqliteBackend.fresh)
  = Throw (Error "Cannot write part: session unknown for message m")
  /\ fst (MultiSqliteBackend.read string text_parse ["part"; "m"; "p"]
            MultiSqliteBackend.fresh)
     = Throw (Error "Cannot read part: session unknown").
Proof. split; vm_compute; reflexivity. Qed.

(** Write, remove, read of a session key in a project that was never
    written to. *)
Lemma write_remove_read_NotFound_witness :
  MultiSqliteBackend.supported MultiSqliteBackend.fresh ["session"; "p"; "s1"] = true
  /\ valid_segment "s1" = true
  /\ exists this1 this2 this3,
       MultiSqliteBackend.write string text_stringify 1 ["session"; "p"; "s1"] "v"
         MultiSqliteBackend.fresh = (Ok tt, this1)
       /\ MultiSqliteBackend.remove ["session"; "p"; "s1"] this1 = (Ok tt, this2)
       /\ MultiSqliteBackend.read string text_parse ["session"; "p"; "s1"] this2
          = (Throw (NotFoundError
                      ("Resource not found: " +:+ join ["session"; "p"; "s1"])),
             this3).
Proof.
  split; [reflexivity|]. split; [reflexivity|].
  exact (proj1 (write_remove_read_NotFound string text_stringify text_parse
                  MultiSqliteBackend.fresh 1 ["session"; "p"; "s1"] "v"
                  "p" "s1" "m" eq_refl eq_refl)).
Defined.

(** *** The legacy JSON backend *)

Section JsonFacts.
Import JsonBackend.

Lemma append_cons (x : ascii) (a b : string) :
  String x a +:+ b = String x (a +:+ b).
Proof. reflexivity. Qed.

Lemma append_nil (b : string) : "" +:+ b = b.
Proof. reflexivity. Qed.

Lemma length_append (a b : string) :
  String.length (a +:+ b) = (String.length a + String.length b)%nat.
Proof.
  induction a as [|c a IH]; [reflexivity|].
  rewrite append_cons. simpl. rewrite IH. reflexivity.
Qed.

Lemma append_inv_tail (a b c : string) : a +:+ c = b +:+ c -> a = b.
Proof.
  revert b. induction a as [|x a IH]; intros [|y b] H.
  - reflexivity.
  - apply (f_equal String.length) in H.
    rewrite !length_append in H. simpl in H. lia.
  - apply (f_equal String.length) in H.
    rewrite !length_append in H. simpl in H. lia.
  - rewrite !append_cons in H. injection H as -> H. f_equal. apply IH, H.
Qed.


Lemma has_slash_append (a b : string) :
  has_slash (a +:+ b) = has_slash a || has_slash b.
Proof.
  induction a as [|c a IH]; [reflexivity|].
  rewrite append_cons. simpl. rewrite IH. apply orb_assoc.
Qed.

Lemma valid_segment_inv (a : string) :
  valid_segment a = true -> a <> "" /\ has_slash a = false.
Proof.
  unfold valid_segment. rewrite !andb_true_iff, !negb_true_iff.
  intros [[[Hne _] _] Hs]. split; [|exact Hs].
  intros ->. discriminate Hne.
Qed.

Lemma join_cons (a : string) (key : list string) :
  join (a :: key) =
  match key with
  | [] => a
  | _ :: _ => a +:+ "/" +:+ join key
  end.
Proof. destruct key; reflexivity. Qed.

(** Two segments followed by a slash agree when the strings agree. *)
Lemma segment_slash_inj (a b r r' : string) :
  has_slash a = false -> has_slash b = false ->
  a +:+ "/" +:+ r = b +:+ "/" +:+ r' -> a = b /\ r = r'.
Proof.
  revert b. induction a as [|x a IH]; intros [|y b] Ha Hb H;
    rewrite ?append_cons, ?append_nil in H; simpl in Ha, Hb.
  - injection H as ->. split; reflexivity.
  - injection H as <- _. discriminate Hb.
  - injection H as -> _. discriminate Ha.
  - injection H as -> H.
    apply orb_false_iff in Ha as [_ Ha]. apply orb_false_iff in Hb as [_ Hb].
    destruct (IH b Ha Hb H) as [-> ->]. split; reflexivity.
Qed.

Lemma join_inj (key key' : list string) :
  valid_key key = true -> valid_key key' = true ->
  join key = join key' -> key = key'.
Proof.
  revert key'. induction key as [|a key IH]; intros [|b key'] Hk Hk' H.
  - reflexivity.
  - simpl in Hk'. apply andb_true_iff in Hk' as [Hb _].
    apply valid_segment_inv in Hb as [Hb _].
    rewrite join_cons in H. change (join []) with "" in H.
    destruct key'; [congruence|].
    destruct b; [congruence | rewrite append_cons in H; discriminate H].
  - simpl in Hk. apply andb_true_iff in Hk as [Ha _].
    apply valid_segment_inv in Ha as [Ha _].
    rewrite join_cons in H. change (join []) with "" in H.
    destruct key; [congruence|].
    destruct a; [congruence | rewrite append_cons in H; discriminate H].
  - simpl in Hk, Hk'.
    apply andb_true_iff in Hk as [Ha Hk]. apply andb_true_iff in Hk' as [Hb Hk'].
    apply valid_segment_inv in Ha as [_ Ha]. apply valid_segment_inv in Hb as [_ Hb].
    rewrite !join_cons in H.
    destruct key as [|a' key], key' as [|b' key'].
    + congruence.
    + rewrite H, has_slash_append in Ha. simpl in Ha.
      rewrite orb_true_r in Ha. discriminate Ha.
    + rewrite <- H, has_slash_append in Hb. simpl in Hb.
      rewrite orb_true_r in Hb. discriminate Hb.
    + destruct (segment_slash_inj _ _ _ _ Ha Hb H) as [-> Hrest].
      f_equal. apply IH; assumption.
Qed.

Variable value : Type.
Variable JSON_stringify : value -> string.
Variable JSON_parse : string -> option value.
Variable dir : list string.

(** **** Walking down the tree *)

Lemma walk_step (here : list string) (name : string) (rest : list string) (j : nat) :
  (here ++ [name]) ++ take j rest = here ++ take (S j) (name :: rest).
Proof. simpl. rewrite <- app_assoc. reflexivity. Qed.

Lemma walk_Regular (fs : files) (here rest : list string) (text : string) :
  walk fs here rest = Regular text <->
  fs !! (here ++ rest) = Some (File text)
  /\ forall j, (j < length rest)%nat -> fs !! (here ++ take j rest) = Some Directory.
Proof.
  revert here. induction rest as [|name rest IH]; intros here.
  - simpl. rewrite app_nil_r. destruct (fs !! here) as [[t|]|]; split.
    + intros [= ->]. split; [reflexivity | intros j Hj; lia].
    + intros [[= ->] _]. reflexivity.
    + discriminate.
    + intros [H _]. discriminate.
    + discriminate.
    + intros [H _]. discriminate.
  - simpl. destruct (fs !! here) as [[t|]|] eqn:Hhere.
    + split; [discriminate|]. intros [_ H].
      specialize (H 0%nat ltac:(simpl; lia)). simpl in H. rewrite app_nil_r in H.
      congruence.
    + rewrite IH. rewrite <- app_assoc. simpl. split.
      * intros [Hf Hd]. split; [exact Hf|]. intros [|j] Hj.
        -- simpl. rewrite app_nil_r. exact Hhere.
        -- rewrite <- walk_step. apply Hd. simpl in Hj. lia.
      * intros [Hf Hd]. split; [exact Hf|]. intros j Hj.
        rewrite walk_step. apply Hd. simpl. lia.
    + split; [discriminate|]. intros [_ H].
      specialize (H 0%nat ltac:(simpl; lia)). simpl in H. rewrite app_nil_r in H.
      congruence.
Qed.

Lemma walk_IsDirectory (fs : files) (here rest : list string) :
  (forall j, (j <= length rest)%nat -> fs !! (here ++ take j rest) = Some Directory) ->
  walk fs here rest = IsDirectory.
Proof.
  revert here. induction rest as [|name rest IH]; intros here H.
  - simpl. specialize (H 0%nat ltac:(simpl; lia)). simpl in H.
    rewrite app_nil_r in H. rewrite H. reflexivity.
  - simpl. pose proof (H 0%nat ltac:(simpl; lia)) as H0. simpl in H0.
    rewrite app_nil_r in H0. rewrite H0. apply IH. intros j Hj.
    rewrite walk_step. apply H. simpl. lia.
Qed.

Lemma walk_ENOTDIR (fs : files) (here rest : list string) (k : nat) (text : string) :
  (k < length rest)%nat ->
  (forall j, (j < k)%nat -> fs !! (here ++ take j rest) = Some Directory) ->
  fs !! (here ++ take k rest) = Some (File text) ->
  walk fs here rest = ENOTDIR.
Proof.
  revert here k. induction rest as [|name rest IH]; intros here k Hk Hd Hf.
  - simpl in Hk. lia.
  - simpl. destruct k as [|k].
    + simpl in Hf. rewrite app_nil_r in Hf. rewrite Hf. reflexivity.
    + pose proof (Hd 0%nat ltac:(lia)) as H0. simpl in H0.
      rewrite app_nil_r in H0. rewrite H0.
      apply (IH _ k).
      * simpl in Hk. lia.
      * intros j Hj. rewrite walk_step. apply Hd. lia.
      * rewrite walk_step. exact Hf.
Qed.

Lemma walk_ENOENT (fs : files) (here rest : list string) :
  (forall j, (j < length rest)%nat -> fs !! (here ++ take j rest) = Some Directory) ->
  fs !! (here ++ rest) = None ->
  walk fs here rest = ENOENT.
Proof.
  revert here. induction rest as [|name rest IH]; intros here Hd Hn.
  - simpl. rewrite app_nil_r in Hn. rewrite Hn. reflexivity.
  - simpl. pose proof (Hd 0%nat ltac:(simpl; lia)) as H0. simpl in H0.
    rewrite app_nil_r in H0. rewrite H0. apply IH.
    + intros j Hj. rewrite walk_step. apply Hd. simpl. lia.
    + rewrite <- app_assoc. exact Hn.
Qed.


(** The same for [stat], with the names above a path as its prefixes. *)
Lemma stat_Regular (fs : files) (path : list string) (text : string) :
  stat fs path = Regular text <->
  path <> [] /\ fs !! path = Some (File text)
  /\ forall k, (0 < k < length path)%nat -> fs !! take k path = Some Directory.
Proof.
  destruct path as [|name rest].
  - simpl. split; [discriminate | intros [H _]; contradiction].
  - unfold stat. rewrite walk_Regular. split.
    + intros [Hf Hd]. split; [discriminate|]. split; [exact Hf|].
      intros [|k] Hk; [lia|]. apply (Hd k). simpl in Hk. lia.
    + intros (_ & Hf & Hd). split; [exact Hf|].
      intros j Hj. apply (Hd (S j)). simpl. lia.
Qed.

Lemma stat_IsDirectory (fs : files) (path : list string) :
  (forall k, (0 < k <= length path)%nat -> fs !! take k path = Some Directory) ->
  stat fs path = IsDirectory.
Proof.
  destruct path as [|name rest]; [reflexivity|]. intros H.
  unfold stat. apply walk_IsDirectory. intros j Hj.
  apply (H (S j)). simpl. lia.
Qed.

Lemma stat_ENOTDIR (fs : files) (path : list string) (k : nat) (text : string) :
  (0 < k < length path)%nat ->
  (forall j, (0 < j < k)%nat -> fs !! take j path = Some Directory) ->
  fs !! take k path = Some (File text) ->
  stat fs path = ENOTDIR.
Proof.
  destruct path as [|name rest]; [simpl; lia|]. intros Hk Hd Hf.
  destruct k as [|k]; [lia|].
  unfold stat. apply (walk_ENOTDIR _ _ _ k text).
  - simpl in Hk. lia.
  - intros j Hj. apply (Hd (S j)). lia.
  - exact Hf.
Qed.

Lemma stat_ENOENT (fs : files) (path : list string) :
  path <> [] ->
  (forall k, (0 < k < length path)%nat -> fs !! take k path = Some Directory) ->
  fs !! path = None ->
  stat fs path = ENOENT.
Proof.
  destruct path as [|name rest]; [contradiction|]. intros _ Hd Hn.
  unfold stat. apply walk_ENOENT.
  - intros j Hj. apply (Hd (S j)). simpl. lia.
  - exact Hn.
Qed.


(** **** Creating the directories above a path *)

Lemma lookup_mkdir_p (path q : list string) (fs : files) :
  (exists k, (0 < k < length path)%nat /\ q = take k path
             /\ mkdir_p path fs !! q = Some Directory)
  \/ ((forall k, (0 < k < length path)%nat -> q <> take k path)
      /\ mkdir_p path fs !! q = fs !! q).
Proof.
  unfold mkdir_p, files in *.
  assert (H : forall l,
    (exists k, k ∈ l /\ q = take k path
       /\ foldr (fun k fs => <[take k path := Directory]> fs) fs l !! q
          = Some Directory)
    \/ ((forall k, k ∈ l -> q <> take k path)
        /\ foldr (fun k fs => <[take k path := Directory]> fs) fs l !! q = fs !! q)).
  { induction l as [|k l IH].
    - right. split; [intros k Hk; inversion Hk | reflexivity].
    - simpl. destruct (decide (q = take k path)) as [->|Hne].
      + left. exists k. split; [left|]. split; [reflexivity|].
        apply lookup_insert_eq.
      + rewrite lookup_insert_ne by congruence.
        destruct IH as [(k' & Hk' & Hq & Hl)|[Hall Hl]].
        * left. exists k'. split; [right; exact Hk'|]. split; assumption.
        * right. split; [|exact Hl]. intros k' Hk'.
          apply elem_of_cons in Hk' as [->|Hk']; [exact Hne | apply Hall, Hk']. }
  destruct (H (seq 1 (length path - 1))) as [(k & Hk & Hq & Hl)|[Hall Hl]].
  - left. exists k. apply elem_of_seq in Hk. split; [lia|]. split; assumption.
  - right. split; [|exact Hl]. intros k Hk. apply Hall, elem_of_seq. lia.
Qed.

Lemma lookup_mkdir_p_take (path : list string) (k : nat) (fs : files) :
  (0 < k < length path)%nat -> mkdir_p path fs !! take k path = Some Directory.
Proof.
  intros Hk.
  destruct (lookup_mkdir_p path (take k path) fs) as [(k' & _ & _ & H)|[Hall _]];
    [exact H|]. exfalso. exact (Hall k Hk eq_refl).
Qed.

Lemma take_ne_self (path : list string) (k : nat) :
  (k < length path)%nat -> take k path <> path.
Proof.
  intros Hk H. apply (f_equal length) in H. rewrite length_take in H. lia.
Qed.

(** **** The target of a key *)

Lemma target_nonempty (key : list string) : target dir key <> [].
Proof.
  unfold target. destruct (last _); [|discriminate].
  destruct (trailing_separator key).
  - intros H. apply app_eq_nil in H as [_ H]. discriminate.
  - intros H. apply app_eq_nil in H as [_ H]. discriminate.
Qed.

Lemma split_segment (a : string) : has_slash a = false -> split a = [a].
Proof.
  induction a as [|c a IH]; [reflexivity|]. simpl.
  intros H. apply orb_false_iff in H as [Hc Ha].
  rewrite Hc, (IH Ha). reflexivity.
Qed.

Lemma valid_segment_name (a : string) :
  valid_segment a = true ->
  a <> "" /\ a <> "." /\ a <> ".." /\ has_slash a = false.
Proof.
  unfold valid_segment. rewrite !andb_true_iff, !negb_true_iff.
  intros [[[H1 H2] H3] H4].
  repeat split; try exact H4; intros ->; discriminate.
Qed.

Lemma ends_with_slash_has_slash (s : string) :
  has_slash s = false -> ends_with_slash s = false.
Proof.
  induction s as [|c s IH]; [reflexivity|]. simpl.
  intros H. apply orb_false_iff in H as [Hc Hs].
  destruct s; [exact Hc | apply IH, Hs].
Qed.


Lemma split_valid (key : list string) :
  valid_key key = true -> concat (split <$> key) = key.
Proof.
  induction key as [|a key IH]; [reflexivity|].
  intros H. simpl in H. apply andb_true_iff in H as [Ha Hk].
  apply valid_segment_name in Ha as (_ & _ & _ & Ha).
  rewrite fmap_cons. change (concat (split a :: (split <$> key)))
    with (split a ++ concat (split <$> key)).
  rewrite (split_segment a Ha), (IH Hk). reflexivity.
Qed.

Lemma normalize_valid (stack key : list string) :
  valid_key key = true -> foldl normalize stack key = stack ++ key.
Proof.
  revert stack. induction key as [|a key IH]; intros stack H.
  - rewrite app_nil_r. reflexivity.
  - simpl in H. apply andb_true_iff in H as [Ha Hk].
    apply valid_segment_name in Ha as (H1 & H2 & H3 & _).
    simpl. unfold normalize at 2.
    destruct (decide (a = "" ∨ a = ".")) as [[?|?]|_]; [contradiction..|].
    destruct (decide (a = "..")); [contradiction|].
    rewrite (IH _ Hk), <- app_assoc. reflexivity.
Qed.

Lemma trailing_separator_valid (key : list string) :
  valid_key key = true -> trailing_separator key = false.
Proof.
  intros H. unfold trailing_separator.
  destruct (last (filter (fun s => s <> "") key)) as [s|] eqn:E; [|reflexivity].
  apply last_Some_elem_of, list_elem_of_filter in E as [_ Hin].
  unfold valid_key in H. rewrite forallb_forall in H.
  apply list_elem_of_In in Hin. specialize (H s Hin).
  apply valid_segment_name in H as (_ & _ & _ & H).
  apply ends_with_slash_has_slash, H.
Qed.

(** On a key with valid segments [path.join] has nothing to normalize. *)
Lemma target_valid (key : list string) (name : string) :
  valid_key (key ++ [name]) = true ->
  target dir (key ++ [name]) = dir ++ key ++ [name +:+ ".json"].
Proof.
  intros H. unfold target.
  rewrite (split_valid _ H), (normalize_valid _ _ H), (trailing_separator_valid _ H).
  rewrite !app_assoc, last_snoc, length_app. simpl.
  replace (length (dir ++ key) + 1 - 1)%nat with (length (dir ++ key)) by lia.
  rewrite take_app_length. reflexivity.
Qed.

(** Distinct keys are stored in distinct files. *)
Lemma target_inj (key key' : list string) :
  valid_key key = true -> valid_key key' = true ->
  key <> [] -> key' <> [] ->
  target dir key = target dir key' -> key = key'.
Proof.
  intros Hk Hk' Hne Hne' H.
  destruct (exists_last Hne) as (k & l & ->).
  destruct (exists_last Hne') as (k' & l' & ->).
  rewrite !target_valid in H by assumption.
  apply app_inv_head in H. apply app_inj_tail in H as [-> H].
  apply append_inv_tail in H. subst. reflexivity.
Qed.


(** **** The methods *)

Lemma json_read_eq (key : list string) (fs : files) :
  read value JSON_parse dir key fs =
  match stat fs (target dir key) with
  | Regular text =>
      match JSON_parse text with
      | Some result => (Ok result, fs)
      | None => (Throw SyntaxError, fs)
      end
  | IsDirectory => (Throw (SystemError "EISDIR"), fs)
  | ENOENT =>
      (Throw (NotFoundError
                ("Resource not found: " +:+ path_string (target dir key))), fs)
  | ENOTDIR => (Throw (SystemError "ENOTDIR"), fs)
  end.
Proof.
  unfold read, bind, gets.
  destruct (stat fs (target dir key)) as [text| | |]; try reflexivity.
  destruct (JSON_parse text); reflexivity.
Qed.

Lemma json_write_eq (key : list string) (v : value) (fs : files) :
  write value JSON_stringify dir key v fs =
  match stat fs (target dir key) with
  | Regular _ | ENOENT =>
      (Ok tt, <[target dir key := File (JSON_stringify v)]>
                (mkdir_p (target dir key) fs))
  | IsDirectory => (Throw (SystemError "EISDIR"), fs)
  | ENOTDIR => (Throw (SystemError "ENOTDIR"), fs)
  end.
Proof.
  unfold write, Bun_write, bind, gets.
  destruct (stat fs (target dir key)); reflexivity.
Qed.

Lemma json_remove_eq (key : list string) (fs : files) :
  remove dir key fs =
  (Ok tt,
   match stat fs (target dir key) with
   | Regular _ => delete (target dir key) fs
   | _ => fs
   end).
Proof.
  unfold remove, bind, gets.
  destruct (stat fs (target dir key)); reflexivity.
Qed.

(** A successful [read]: the file of the key and the directories above it. *)
Lemma json_read_Ok (key : list string) (v : value) (fs fs' : files) :
  read value JSON_parse dir key fs = (Ok v, fs') <->
  fs' = fs /\ exists text,
    stat fs (target dir key) = Regular text /\ JSON_parse text = Some v.
Proof.
  rewrite json_read_eq.
  destruct (stat fs (target dir key)) as [text| | |].
  - destruct (JSON_parse text) as [v'|] eqn:E; split.
    + intros [= -> ->]. split; [reflexivity|]. exists text. split; [reflexivity | exact E].
    + intros [-> (text' & [= <-] & Hv)]. congruence.
    + discriminate.
    + intros [-> (text' & [= <-] & Hv)]. congruence.
  - split; [discriminate | intros [_ (text & H & _)]; discriminate].
  - split; [discriminate | intros [_ (text & H & _)]; discriminate].
  - split; [discriminate | intros [_ (text & H & _)]; discriminate].
Qed.

(** The tree after a successful write. *)
Lemma json_write_Ok (key : list string) (v : value) (fs fs1 : files) :
  write value JSON_stringify dir key v fs = (Ok tt, fs1) ->
  fs1 = <[target dir key := File (JSON_stringify v)]> (mkdir_p (target dir key) fs)
  /\ stat fs (target dir key) <> IsDirectory
  /\ stat fs (target dir key) <> ENOTDIR
  /\ stat fs1 (target dir key) = Regular (JSON_stringify v).
Proof.
  rewrite json_write_eq. intros H.
  assert (Hfs : fs1 = <[target dir key := File (JSON_stringify v)]>
                        (mkdir_p (target dir key) fs)
                /\ stat fs (target dir key) <> IsDirectory
                /\ stat fs (target dir key) <> ENOTDIR).
  { destruct (stat fs (target dir key)); try discriminate;
      injection H as <-; repeat split; discriminate. }
  destruct Hfs as (-> & H1 & H2). repeat split; try assumption.
  apply stat_Regular. split; [apply target_nonempty|]. unfold files in *.
  split; [apply lookup_insert_eq|]. intros k Hk.
  rewrite lookup_insert_ne by (symmetry; apply take_ne_self; lia).
  apply lookup_mkdir_p_take, Hk.
Qed.

(** A file that can be read is still there, with its content, after a
    successful write to another file. *)
Lemma json_write_frame (key : list string) (v : value) (fs fs1 : files)
    (path : list string) (text : string) :
  write value JSON_stringify dir key v fs = (Ok tt, fs1) ->
  path <> target dir key ->
  stat fs path = Regular text -> stat fs1 path = Regular text.
Proof.
  intros Hw Hne Hp. apply json_write_Ok in Hw as (-> & Hdir & Hnotdir & _).
  apply stat_Regular in Hp as (Hnil & Hf & Hd).
  set (t := target dir key) in *.
  apply stat_Regular. split; [exact Hnil|]. unfold files in *. split.
  - rewrite lookup_insert_ne by congruence.
    destruct (lookup_mkdir_p t path fs) as [(k & Hk & Hq & _)|[_ Hl]];
      [|exact (eq_trans Hl Hf)].
    exfalso. apply Hnotdir. apply (stat_ENOTDIR fs t k text).
    + exact Hk.
    + intros j Hj. specialize (Hd j).
      rewrite Hq, take_take, length_take in Hd.
      replace (j `min` k)%nat with j in Hd by lia. apply Hd. lia.
    + rewrite <- Hq. exact Hf.
  - intros k Hk. destruct (decide (take k path = t)) as [Ht|Ht].
    + exfalso. apply Hdir. apply stat_IsDirectory. intros j Hj.
      rewrite <- Ht. rewrite <- Ht, length_take in Hj.
      rewrite take_take.
      destruct (decide (j = k)) as [->|Hjk].
      * replace (k `min` k)%nat with k by lia. apply Hd. lia.
      * replace (j `min` k)%nat with j by lia. apply Hd. lia.
    + rewrite lookup_insert_ne by congruence.
      destruct (lookup_mkdir_p t (take k path) fs) as [(_ & _ & _ & Hl)|[_ Hl]];
        [exact Hl | exact (eq_trans Hl (Hd k Hk))].
Qed.



End JsonFacts.


(** ** Part III: further properties of the same code *)

(** *** The retry controller *)

Section RetryMore.
Import SessionRetry.
Local Open Scope Q_scope.

Variable parseFloat : string -> option Q.
Variable Date_parse : string -> option Q.

Lemma Math_min_le_l (a b : Q) : Math_min a b <= a.
Proof.
  unfold Math_min. destruct (Qle_bool a b) eqn:E; [lra|].
  apply le_false in E. lra.
Qed.

Lemma Math_min_le_r (a b : Q) : Math_min a b <= b.
Proof.
  unfold Math_min. destruct (Qle_bool a b) eqn:E; [|lra].
  apply Qle_bool_iff in E. exact E.
Qed.

Lemma Math_min_glb (a b c : Q) : c <= a -> c <= b -> c <= Math_min a b.
Proof. intros Ha Hb. unfold Math_min. destruct (Qle_bool a b); assumption. Qed.


(** The backoff [2000 * 2^(attempt-1)]. *)
Lemma backoff_pos (attempt : Z) : 0 < 2000 * 2 ^ (attempt - 1).
Proof. pose proof (Qpower_0_lt 2 (attempt - 1)) as H. nra. Qed.

Lemma backoff_mono (a b : Z) :
  (a <= b)%Z -> 2000 * 2 ^ (a - 1) <= 2000 * 2 ^ (b - 1).
Proof.
  intros H.
  pose proof (Qpower_le_compat_l 2 (a - 1) (b - 1)) as Hp.
  assert (2 ^ (a - 1) <= 2 ^ (b - 1)) by (apply Hp; [lia | lra]).
  nra.
Qed.

(** X1. Without response headers the delay of a 1-based attempt is at
    least the initial 2000 ms, never above the 30 s cap, and never decreases
    from one attempt to the next. *)
Theorem delay_no_headers_capped_monotone (now now' : Q) (attempt : Z) :
  (1 <= attempt)%Z ->
  2000 <= delay parseFloat Date_parse now no_headers attempt
  /\ delay parseFloat Date_parse now no_headers attempt <= 30000
  /\ delay parseFloat Date_parse now no_headers attempt
     <= delay parseFloat Date_parse now' no_headers (attempt + 1).
Proof.
  intros H1. unfold delay. simpl.
  rewrite (backoff_eq attempt H1), (backoff_eq (attempt + 1)) by lia.
  pose proof (backoff_mono 1 attempt H1) as Hfirst.
  assert (H2000 : 2000 * 2 ^ (1 - 1) == 2000) by reflexivity.
  rewrite H2000 in Hfirst.
  pose proof (backoff_pos attempt) as Hpos.
  pose proof (backoff_mono attempt (attempt + 1) ltac:(lia)) as Hmono.
  split; [apply Math_min_glb; [exact Hfirst | discriminate]|].
  split; [apply Math_min_le_r|].
  apply Math_min_glb.
  - eapply Qle_trans; [apply Math_min_le_l | exact Hmono].
  - apply Math_min_le_r.
Qed.

(** X2. Without response headers the delay doubles from 2000 ms at attempt
    1 up to attempt 4 and is the cap of 30000 ms from attempt 5 on. *)
Theorem delay_no_headers_saturates (now : Q) (attempt : Z) :
  ((1 <= attempt <= 4)%Z ->
     delay parseFloat Date_parse now no_headers attempt
     = 2000 * 2 ^ (attempt - 1))
  /\ ((5 <= attempt)%Z ->
      delay parseFloat Date_parse now no_headers attempt = 30000).
Proof.
  unfold delay. simpl. unfold Math_min, RETRY_MAX_DELAY_NO_HEADERS.
  split; [intros [H1 H] | intros H].
  - rewrite (backoff_eq attempt H1).
    pose proof (backoff_mono attempt 4 H) as Hle.
    destruct (Qle_bool _ 30000) eqn:E; [reflexivity|].
    apply le_false in E.
    assert (H4 : 2000 * 2 ^ (4 - 1) == 16000) by reflexivity.
    rewrite H4 in Hle. lra.
  - rewrite (backoff_eq attempt) by lia.
    pose proof (backoff_mono 5 attempt H) as Hle.
    destruct (Qle_bool _ 30000) eqn:E; [|reflexivity].
    apply Qle_bool_iff in E.
    assert (H5 : 2000 * 2 ^ (5 - 1) == 32000) by reflexivity.
    rewrite H5 in Hle. lra.
Qed.

(** X3. Without response headers [getRetryDelayInMs] returns the backoff
    [2000 * 2^(attempt-1)], without the 30 s cap, from attempt 1 up to
    attempt 9 and gives up from attempt 10 on. *)
Theorem getRetryDelayInMs_no_headers_threshold (now : Q) (attempt : Z) :
  ((1 <= attempt <= 9)%Z ->
     getRetryDelayInMs parseFloat Date_parse now no_headers attempt
     = Some (2000 * 2 ^ (attempt - 1)))
  /\ ((10 <= attempt)%Z ->
      getRetryDelayInMs parseFloat Date_parse now no_headers attempt = None).
Proof.
  unfold getRetryDelayInMs. simpl. split; [intros [H1 H] | intros H].
  - rewrite (backoff_eq attempt H1).
    pose proof (backoff_mono attempt 9 H) as Hle.
    assert (H9 : 2000 * 2 ^ (9 - 1) == 512000) by reflexivity.
    rewrite H9 in Hle.
    destruct (gt _ 600000) eqn:E; [|reflexivity].
    apply gt_spec in E. lra.
  - rewrite (backoff_eq attempt) by lia.
    pose proof (backoff_mono 10 attempt H) as Hle.
    assert (H10 : 2000 * 2 ^ (10 - 1) == 1024000) by reflexivity.
    rewrite H10 in Hle.
    destruct (gt _ 600000) eqn:E; [reflexivity|].
    apply gt_false in E. lra.
Qed.



(** The value of [delay] does not depend on the clock unless the
    [retry-after] header is read as an HTTP date. *)
Lemma delay_clock (t t' : Q) (e : APIError) (attempt : Z) :
  (forall headers s,
     responseHeaders e = Some headers ->
     headers !! "retry-after" = Some s ->
     is_Some (parseFloat s) \/ Date_parse s = None) ->
  delay parseFloat Date_parse t e attempt =
  delay parseFloat Date_parse t' e attempt.
Proof.
  intros H. unfold delay.
  destruct (responseHeaders e) as [headers|]; [|reflexivity].
  destruct (truthy (headers !! "retry-after-ms") ≫= parseFloat); [reflexivity|].
  destruct (headers !! "retry-after") as [s|] eqn:Hs; [|reflexivity].
  simpl. unfold truthy. case_decide; [reflexivity|].
  destruct (H headers s eq_refl Hs) as [[n Hn]|Hd].
  - rewrite Hn. reflexivity.
  - destruct (parseFloat s); [reflexivity|]. rewrite Hd. reflexivity.
Qed.

(** X6. Time only shrinks the bounded delay of an error whose [retry-after]
    header, if any, is not an HTTP date: if [getBoundedDelay] still returns
    a delay at a later time, it returned a delay at least as long at every
    earlier one.  ([now], [later] are the two clock values read by the
    earlier call, [now'], [later'] those read by the later call.) *)
Theorem getBoundedDelay_shrinks_with_time
    (now later now' later' : Q) (args : BoundedArgs) (d' : Q) :
  (forall headers s,
     responseHeaders (error args) = Some headers ->
     headers !! "retry-after" = Some s ->
     is_Some (parseFloat s) \/ Date_parse s = None) ->
  now <= now' ->
  getBoundedDelay parseFloat Date_parse now' later' args = Some d' ->
  exists d,
    getBoundedDelay parseFloat Date_parse now later args = Some d /\ d' <= d.
Proof.
  intros Hdate Hnow. rewrite !getBoundedDelay_cases.
  set (remaining := default 600000 (maxDuration args) - (now - startTime args)).
  set (remaining' := default 600000 (maxDuration args) - (now' - startTime args)).
  assert (Hbase : uncapped parseFloat Date_parse later' (error args) (attempt args)
                  = uncapped parseFloat Date_parse later (error args) (attempt args)).
  { pose proof (delay_clock later' later (error args) (attempt args) Hdate) as Hd.
    unfold uncapped. destruct (responseHeaders (error args)); [exact Hd | reflexivity]. }
  rewrite Hbase.
  set (base := uncapped parseFloat Date_parse later (error args) (attempt args)).
  assert (Hrem : remaining' <= remaining) by (unfold remaining, remaining'; lra).
  destruct (le remaining' 0) eqn:E1; [discriminate|]. apply le_false in E1.
  destruct (gt base 600000); [discriminate|].
  destruct (gt (Math_min base remaining') 0) eqn:E2; [|discriminate].
  apply gt_spec in E2. intros [= <-].
  assert (Hmin : Math_min base remaining' <= Math_min base remaining).
  { apply Math_min_glb; [apply Math_min_le_l|].
    eapply Qle_trans; [apply Math_min_le_r | exact Hrem]. }
  assert (E3 : le remaining 0 = false) by (apply le_false; lra).
  assert (E4 : gt (Math_min base remaining) 0 = true) by (apply gt_spec; lra).
  rewrite E3, E4. eexists. split; [reflexivity | exact Hmin].
Qed.

End RetryMore.

(** *** Keys as strings: [LIKE], [join] and [split] *)

Section KeyStrings.

Lemma like_characters_percent_cons (pattern : list N) (c : N) (s : list N) :
  like_characters (37%N :: pattern) (c :: s) =
  like_characters pattern (c :: s) || like_characters (37%N :: pattern) s.
Proof. reflexivity. Qed.

Lemma like_characters_percent_nil (pattern : list N) :
  like_characters (37%N :: pattern) [] = like_characters pattern [] || false.
Proof. reflexivity. Qed.

Lemma like_characters_cons (p : N) (pattern : list N) (c : N) (s : list N) :
  p <> 37%N ->
  like_characters (p :: pattern) (c :: s) =
  if (p =? 95)%N then like_characters pattern s
  else (fold_case p =? fold_case c)%N && like_characters pattern s.
Proof.
  intros Hp. unfold like_characters at 1. fold like_characters.
  destruct (N.eqb_spec p 37); [contradiction|].
  destruct (p =? 95)%N; reflexivity.
Qed.

Lemma like_characters_percent (s : list N) : like_characters [37%N] s = true.
Proof.
  induction s as [|c s IH]; [reflexivity|].
  rewrite like_characters_percent_cons, IH. apply orb_true_r.
Qed.

Lemma like_characters_percent_skip (pattern s : list N) :
  like_characters pattern s = true -> like_characters (37%N :: pattern) s = true.
Proof.
  intros H. destruct s as [|c s].
  - rewrite like_characters_percent_nil, H. reflexivity.
  - rewrite like_characters_percent_cons, H. reflexivity.
Qed.

(** A pattern matches itself, whatever wildcards it contains, and what
    follows it is matched by what follows. *)
Lemma like_characters_app (p q s : list N) :
  like_characters q s = true -> like_characters (p ++ q) (p ++ s) = true.
Proof.
  intros H. induction p as [|c p IH]; [exact H|]. simpl app.
  destruct (decide (c = 37%N)) as [->|Hc].
  - rewrite like_characters_percent_cons. apply orb_true_iff. right.
    apply like_characters_percent_skip, IH.
  - rewrite like_characters_cons by exact Hc.
    destruct (c =? 95)%N; [exact IH|].
    rewrite N.eqb_refl, IH. reflexivity.
Qed.

Lemma fold_case_idempotent (c : N) : fold_case (fold_case c) = fold_case c.
Proof.
  unfold fold_case.
  destruct ((65 <=? c) && (c <=? 90))%N eqn:E; [|rewrite E; reflexivity].
  apply andb_true_iff in E as [H1 H2].
  apply N.leb_le in H1, H2.
  destruct (N.leb_spec 65 (c + 32)); destruct (N.leb_spec (c + 32) 90);
    simpl; try reflexivity; lia.
Qed.

(** [LIKE] does not see the case of ASCII letters. *)
Lemma like_characters_fold (pattern s : list N) :
  like_characters pattern (fold_case <$> s) = like_characters pattern s.
Proof.
  revert s. induction pattern as [|p pattern IH]; intros s.
  - destruct s; reflexivity.
  - destruct (decide (p = 37%N)) as [->|Hp].
    + induction s as [|c s IHs].
      * reflexivity.
      * rewrite fmap_cons, !like_characters_percent_cons, IHs.
        f_equal. rewrite <- fmap_cons. apply IH.
    + destruct s as [|c s]; [reflexivity|].
      rewrite fmap_cons, !like_characters_cons by exact Hp.
      rewrite fold_case_idempotent, IH. reflexivity.
Qed.

Lemma N_of_lower (b : ascii) : N_of_ascii (lower b) = fold_case (N_of_ascii b).
Proof. destruct b as [[] [] [] [] [] [] [] []]; reflexivity. Qed.

Lemma fold_case_high (c : N) : (91 <= c)%N -> (c < 97 \/ 122 < c)%N -> fold_case c = c.
Proof.
  intros H _. unfold fold_case.
  destruct (N.leb_spec c 90); [lia|]. rewrite andb_false_r. reflexivity.
Qed.

Lemma utf8_char_high (c : N) : (128 <= utf8_char c)%N.
Proof.
  unfold utf8_char. destruct (N.ltb_spec c 128); simpl; [lia|].
  destruct (_ || _); lia.
Qed.

Lemma fold_case_utf8_char (c : N) : fold_case (utf8_char c) = utf8_char c.
Proof.
  pose proof (utf8_char_high c). unfold fold_case.
  destruct (N.leb_spec (utf8_char c) 90); [lia|]. rewrite andb_false_r. reflexivity.
Qed.

Lemma fold_case_facts (n : N) :
  (fold_case n =? 0)%N = (n =? 0)%N
  /\ (fold_case n <? 192)%N = (n <? 192)%N
  /\ (128 <=? fold_case n)%N = (128 <=? n)%N
  /\ ((128 <= n)%N -> fold_case n = n).
Proof.
  unfold fold_case.
  destruct (N.leb_spec 65 n); destruct (N.leb_spec n 90); simpl;
    repeat split; try reflexivity; try lia;
    repeat match goal with
           | |- context [(?a =? ?b)%N] => destruct (N.eqb_spec a b)
           | |- context [(?a <? ?b)%N] => destruct (N.ltb_spec a b)
           | |- context [(?a <=? ?b)%N] => destruct (N.leb_spec a b)
           end; try reflexivity; lia.
Qed.

(** The characters of a string in lower case are the characters of the
    string, each in lower case. *)
Lemma utf8_lowercase (pending : option N) (s : string) :
  utf8 pending (lowercase s) = fold_case <$> utf8 pending s.
Proof.
  revert pending. induction s as [|b s IH]; intros pending.
  - destruct pending; simpl; [rewrite fold_case_utf8_char|]; reflexivity.
  - simpl lowercase. cbn [utf8]. rewrite N_of_lower.
    set (n := N_of_ascii b).
    destruct (fold_case_facts n) as (F0 & F1 & F2 & F3).
    rewrite F0, F1, F2.
    assert (Hnext :
      (if (n =? 0)%N then []
       else if (n <? 192)%N then fold_case n :: utf8 None (lowercase s)
            else utf8 (Some (utf8_lead (fold_case n))) (lowercase s)) =
      fold_case <$>
        (if (n =? 0)%N then []
         else if (n <? 192)%N then n :: utf8 None s
              else utf8 (Some (utf8_lead n)) s)).
    { destruct (n =? 0)%N; [reflexivity|].
      destruct (N.ltb_spec n 192).
      - rewrite fmap_cons, IH. reflexivity.
      - rewrite F3 by lia. apply IH. }
    destruct pending as [c|]; [|exact Hnext].
    destruct ((128 <=? n) && (n <? 192))%N eqn:E.
    + apply andb_true_iff in E as [E _]. apply N.leb_le in E.
      rewrite F3 by exact E. apply IH.
    + rewrite fmap_cons, fold_case_utf8_char, Hnext. reflexivity.
Qed.

Lemma like_lowercase (pattern s : string) :
  like pattern (lowercase s) = like pattern s.
Proof.
  unfold like, characters. rewrite utf8_lowercase. apply like_characters_fold.
Qed.

(** The text that follows a NUL byte is not read. *)
Lemma utf8_slash (pending : option N) (a b : string) :
  utf8 pending (a +:+ String "/" b) =
  if has_nul a then utf8 pending a
  else utf8 pending a ++ 47%N :: characters b.
Proof.
  revert pending. induction a as [|x a IH]; intros pending.
  - destruct pending; reflexivity.
  - rewrite append_cons. cbn [utf8 has_nul].
    set (n := N_of_ascii x).
    destruct pending as [c|].
    + destruct ((128 <=? n) && (n <? 192))%N eqn:E.
      * apply andb_true_iff in E as [H1 _]. apply N.leb_le in H1.
        assert (E0 : (n =? 0)%N = false) by (apply N.eqb_neq; lia).
        rewrite E0. simpl orb. apply IH.
      * destruct (n =? 0)%N; [reflexivity|]. simpl orb.
        destruct (n <? 192)%N; rewrite IH; destruct (has_nul a); reflexivity.
    + destruct (n =? 0)%N; [reflexivity|]. simpl orb.
      destruct (n <? 192)%N; rewrite IH; destruct (has_nul a); reflexivity.
Qed.

(** [%] matches everything. *)
Lemma like_percent (s : string) : like "%" s = true.
Proof. apply like_characters_percent. Qed.

(** The rows [remove] cascades to: every key that is, up to the case of
    ASCII letters, the removed key followed by ["/"] and anything. *)
Lemma like_children (keyStr k rest : string) :
  lowercase k = lowercase (keyStr +:+ "/" +:+ rest) ->
  like (keyStr +:+ "/%") k = true.
Proof.
  intros H. rewrite <- like_lowercase, H, like_lowercase.
  unfold like, characters.
  change ("/" +:+ rest) with (String "/" rest).
  change "/%" with (String "/" "%").
  rewrite !utf8_slash. destruct (has_nul keyStr).
  - rewrite <- (app_nil_r (utf8 None keyStr)). apply like_characters_app. reflexivity.
  - apply like_characters_app.
    rewrite like_characters_cons by discriminate. apply like_characters_percent.
Qed.
Lemma append_assoc (a b c : string) : (a +:+ b) +:+ c = a +:+ (b +:+ c).
Proof.
  induction a as [|x a IH]; [reflexivity|].
  rewrite !append_cons, IH. reflexivity.
Qed.

Lemma join_app (key more : list string) :
  key <> [] -> more <> [] ->
  join (key ++ more) = join key +:+ "/" +:+ join more.
Proof.
  intros Hk Hm. induction key as [|a key IH]; [contradiction|].
  destruct key as [|b key].
  - simpl app. rewrite join_cons. destruct more; [contradiction | reflexivity].
  - change ((a :: b :: key) ++ more) with (a :: (b :: key) ++ more).
    rewrite (join_cons a ((b :: key) ++ more)), (join_cons a (b :: key)).
    simpl app at 1. rewrite IH by discriminate.
    rewrite !append_assoc. reflexivity.
Qed.

Lemma split_segment_slash (a r : string) :
  has_slash a = false -> split (a +:+ "/" +:+ r) = a :: split r.
Proof.
  induction a as [|c a IH]; [reflexivity|].
  rewrite append_cons. simpl. intros H. apply orb_false_iff in H as [Hc Ha].
  rewrite Hc, (IH Ha). reflexivity.
Qed.

(** Splitting the string form of a key gives the key back. *)
Lemma split_join (key : list string) :
  key <> [] -> valid_key key = true -> split (join key) = key.
Proof.
  induction key as [|a key IH]; [contradiction|]. intros _ Hvalid.
  simpl in Hvalid. apply andb_true_iff in Hvalid as [Ha Hkey].
  apply valid_segment_inv in Ha as [_ Ha].
  rewrite join_cons. destruct key as [|b key].
  - apply split_segment, Ha.
  - rewrite split_segment_slash by exact Ha.
    rewrite IH by (discriminate || exact Hkey). reflexivity.
Qed.

End KeyStrings.

(** *** The multi-database backend *)

Section MultiSqliteMore.
Import MultiSqliteBackend.
Local Abbreviation list := Datatypes.list.

Variable value : Type.
Variable JSON_stringify : value -> string.
Variable JSON_parse : string -> option value.

(** Two states hold the same data: the same sessions, the same rows in
    every session database, the same message routes. *)
Local Abbreviation same_data this this' :=
  (sessionsMetaDB this' = sessionsMetaDB this
   /\ (forall db, table db this' = table db this)
   /\ messageSessionCache this' = messageSessionCache this).

Lemma same_data_refl (this : backend) : same_data this this.
Proof. repeat split. Qed.

Lemma getSessionDB_same_data (d : string) (this : backend) :
  same_data this (snd (getSessionDB d this)).
Proof.
  split; [unfold getSessionDB; case_decide; reflexivity|].
  split; [intros db; apply getSessionDB_table | apply getSessionDB_cache].
Qed.

Lemma supported_cache (this this' : backend) (key : list string) :
  messageSessionCache this' = messageSessionCache this ->
  supported this' key = supported this key.
Proof. intros H. unfold supported. rewrite H. reflexivity. Qed.

(** A write of a supported key succeeds, the key stays supported, and the
    value can be read back. *)
Lemma write_then_read (this : backend) (now : Z) (key : list string) (v : value) :
  supported this key = true ->
  exists this1,
    write value JSON_stringify now key v this = (Ok tt, this1)
    /\ supported this1 key = true
    /\ (JSON_parse (JSON_stringify v) = Some v ->
        exists this2, read value JSON_parse key this1 = (Ok v, this2)).
Proof.
  intros Hkey. pose proof Hkey as Hsup.
  apply supported_inv in Hkey
    as (a & b & Ha & Hb & [-> | [-> | [-> (s & Hm & Hs)]]]).
  - destruct (write_session_Ok value JSON_stringify now a b v this)
      as (this1 & Hw & Hrow & Hcache).
    exists this1. split; [exact Hw|].
    split; [rewrite (supported_cache this this1) by exact Hcache; exact Hsup|].
    intros Hv. exists this1.
    rewrite read_session, Hrow.
    apply (parse_stringify value JSON_stringify JSON_parse), Hv.
  - destruct (write_message_Ok value JSON_stringify now a b v this)
      as (this1 & Hw & _ & Hrow).
    exists this1. split; [exact Hw|]. split.
    + unfold supported in *. simpl in *. exact Hsup.
    + intros Hv. eexists.
      apply (read_routed_Some value JSON_stringify JSON_parse);
        [|exact Hrow|exact Hv].
      apply routed_message, valid_segment_nonempty, Ha.
  - destruct (write_part_Ok value JSON_stringify now a b s v this Hm Hs)
      as (this1 & Hw & Hm1 & Hrow).
    exists this1. split; [exact Hw|]. split.
    + unfold supported in *. simpl in *. rewrite Hm1. rewrite Hm in Hsup.
      exact Hsup.
    + intros Hv. eexists.
      apply (read_routed_Some value JSON_stringify JSON_parse);
        [|exact Hrow|exact Hv].
      apply routed_part; assumption.
Qed.

(** X7. The last write wins: for a supported key, after [write(k, v1)] and
    [write(k, v2)] a [read(k)] returns [v2]. *)
Theorem write_write_read
    (this : backend) (now1 now2 : Z) (key : list string) (v1 v2 : value) :
  supported this key = true ->
  JSON_parse (JSON_stringify v2) = Some v2 ->
  exists this1 this2 this3,
    write value JSON_stringify now1 key v1 this = (Ok tt, this1)
    /\ write value JSON_stringify now2 key v2 this1 = (Ok tt, this2)
    /\ read value JSON_parse key this2 = (Ok v2, this3).
Proof.
  intros Hkey Hv.
  destruct (write_then_read this now1 key v1 Hkey) as (this1 & Hw1 & Hkey1 & _).
  destruct (write_then_read this1 now2 key v2 Hkey1) as (this2 & Hw2 & _ & Hr).
  destruct (Hr Hv) as [this3 Hread].
  exists this1, this2, this3. repeat split; assumption.
Qed.

Lemma read_same_data (key : list string) (this : backend) :
  same_data this (snd (read value JSON_parse key this)).
Proof.
  rewrite read_state. destruct (routed this key);
    [apply getSessionDB_same_data | apply same_data_refl].
Qed.

Lemma list_same_data (prefix : list string) (this : backend) :
  same_data this (snd (MultiSqliteBackend.list prefix this)).
Proof.
  remember (snd (MultiSqliteBackend.list prefix this)) as this' eqn:E.
  unfold MultiSqliteBackend.list in E.
  destruct (decide (prefix !! 0%nat = Some "session")).
  { rewrite snd_require in E.
    destruct (prefix !! 1%nat); subst this'; apply same_data_refl. }
  destruct (decide (prefix !! 0%nat = Some "message"
                    ∨ prefix !! 0%nat = Some "part"));
    [|subst; apply same_data_refl].
  rewrite snd_require in E.
  destruct (prefix !! 1%nat) as [d|]; [|subst; apply same_data_refl].
  rewrite bind_getSessionDB in E. subst this'. simpl.
  apply getSessionDB_same_data.
Qed.

(** X8. Reading and listing store nothing: [read] and [list] leave every
    session row, every row of every session database and every message
    route as they were, whether they return or throw. *)
Theorem read_and_list_keep_data (key prefix : list string) (this : backend) :
  same_data this (snd (read value JSON_parse key this))
  /\ same_data this (snd (MultiSqliteBackend.list prefix this)).
Proof. split; [apply read_same_data | apply list_same_data]. Qed.

(** X9. An [update] whose [read] fails fails in the same way, does not call
    the mutator's write, and stores nothing. *)
Theorem update_of_failed_read
    (now : Z) (key : list string) (fn : value -> value) (e : error)
    (this this1 : backend) :
  read value JSON_parse key this = (Throw e, this1) ->
  update value JSON_stringify JSON_parse now key fn this = (Throw e, this1)
  /\ same_data this this1.
Proof.
  intros Hread. split.
  - unfold update, bind. rewrite Hread. reflexivity.
  - replace this1 with (snd (read value JSON_parse key this))
      by (rewrite Hread; reflexivity).
    apply read_same_data.
Qed.

(** X10. An [update] of a supported key that holds [v] returns [fn v] and
    stores it: the following [read] returns [fn v]. *)
Theorem update_stores_new_value
    (now : Z) (key : list string) (fn : value -> value) (v : value)
    (this this1 : backend) :
  supported this key = true ->
  read value JSON_parse key this = (Ok v, this1) ->
  exists this2,
    update value JSON_stringify JSON_parse now key fn this = (Ok (fn v), this2)
    /\ (JSON_parse (JSON_stringify (fn v)) = Some (fn v) ->
        exists this3, read value JSON_parse key this2 = (Ok (fn v), this3)).
Proof.
  intros Hkey Hread.
  assert (Hkey1 : supported this1 key = true).
  { rewrite (supported_cache this this1); [exact Hkey|].
    replace this1 with (snd (read value JSON_parse key this))
      by (rewrite Hread; reflexivity).
    apply read_same_data. }
  destruct (write_then_read this1 now key (fn v) Hkey1) as (this2 & Hw & _ & Hr).
  exists this2. split; [|exact Hr].
  unfold update. rewrite (bind_Ok _ _ _ _ _ Hread), (bind_Ok _ _ _ _ _ Hw).
  reflexivity.
Qed.

Lemma upsert_tables (now : Z) (d keyStr ty data db : string)
    (this X : backend) :
  (forall db, table db X = table db this) ->
  table db (snd (storage_upsert now d keyStr ty data X)) =
  if decide (db = d) then
    table db (snd (storage_upsert now d keyStr ty data this))
  else table db this.
Proof.
  intros HX. unfold storage_upsert, modify. simpl.
  rewrite !table_set_table, !HX. destruct (decide (db = d)); reflexivity.
Qed.

(** What a write does to the session databases: nothing, or one upsert of
    the row [join key] in one database. *)
Lemma write_tables (now : Z) (key : list string) (v : value) (this : backend) :
  (forall db, table db (snd (write value JSON_stringify now key v this)) =
              table db this)
  \/ exists d ty,
       forall db,
         table db (snd (write value JSON_stringify now key v this)) =
         if decide (db = d) then
           table db (snd (storage_upsert now d (join key) ty
                            (JSON_stringify v) this))
         else table db this.
Proof.
  remember (snd (write value JSON_stringify now key v this)) as this' eqn:E.
  unfold write in E. unfold bind at 1 in E. unfold gets at 1 in E.
  rewrite parseKey_type in E.
  destruct (decide (key !! 0%nat = Some "session")) as [Hs|Hns].
  { left. rewrite snd_require in E.
    destruct (key !! 1%nat); [|subst; reflexivity].
    rewrite snd_require in E.
    destruct (key !! 2%nat); subst; reflexivity. }
  destruct (decide (key !! 0%nat = Some "message")) as [Hm|Hnm].
  { destruct (parseKey_message_id this key Hm) as [Hsid Hid].
    rewrite Hsid, Hid, snd_require in E.
    destruct (key !! 1%nat) as [d|]; [|left; subst; reflexivity].
    rewrite snd_require in E.
    destruct (key !! 2%nat) as [m|]; [|left; subst; reflexivity].
    unfold bind at 1 in E. simpl in E. rewrite bind_getSessionDB in E.
    right. exists d, (template (key !! 0%nat)). subst this'.
    intros db. apply upsert_tables.
    intros db'. rewrite getSessionDB_table. reflexivity. }
  destruct (decide (key !! 0%nat = Some "part")) as [Hp|Hnp];
    [|left; subst; reflexivity].
  destruct (truthy (sessionID (parseKey this key))) as [d|];
    [|left; subst; reflexivity].
  rewrite bind_getSessionDB in E.
  right. exists d, (template (key !! 0%nat)). subst this'.
  intros db. apply upsert_tables. intros db'. apply getSessionDB_table.
Qed.

(** X11. A write never deletes or re-creates a row of a session database:
    every row stays, with its [created_at] and its [type]; only the row of
    the written key changes, to the new data with [updated_at] refreshed. *)
Theorem write_keeps_rows
    (now : Z) (key : list string) (v : value) (this : backend)
    (db k : string) (row : storage_row) :
  table db this !! k = Some row ->
  exists row',
    table db (snd (write value JSON_stringify now key v this)) !! k = Some row'
    /\ storage_created_at row' = storage_created_at row
    /\ storage_type row' = storage_type row
    /\ (row' = row
        \/ k = join key
           /\ storage_data row' = JSON_stringify v
           /\ storage_updated_at row' = now).
Proof.
  intros Hrow.
  destruct (write_tables now key v this) as [Hsame | (d & ty & Hup)].
  { exists row. rewrite Hsame. repeat split; [exact Hrow | left; reflexivity]. }
  rewrite Hup. case_decide as Hdb; [subst db|].
  - unfold storage_upsert, modify. simpl. rewrite table_set_table.
    case_decide; [|congruence].
    destruct (decide (k = join key)) as [->|Hk].
    + rewrite lookup_insert_eq, Hrow. eexists. split; [reflexivity|].
      simpl. repeat split. right. repeat split.
    + rewrite lookup_insert_ne by congruence.
      exists row. repeat split; [exact Hrow | left; reflexivity].
  - exists row. repeat split; [exact Hrow | left; reflexivity].
Qed.

(** The keys [list] returns for a session prefix. *)
Lemma list_sessions_elem (p s : string) (this : backend) :
  (exists keys,
     fst (MultiSqliteBackend.list [ "session"; p ] this) = Ok keys
     /\ ["session"; p; s] ∈ keys)
  <-> project_id <$> sessionsMetaDB this !! s = Some p.
Proof.
  destruct (list_sessions p this) as (rows & Hlist & _ & Hrows).
  rewrite Hlist. simpl. split.
  - intros (keys & [= <-] & Hin).
    apply list_elem_of_fmap in Hin as ([s' row] & [= ->] & Hin).
    apply Hrows in Hin as [Hrow <-]. rewrite Hrow. reflexivity.
  - intros Hp. destruct (sessionsMetaDB this !! s) as [row|] eqn:Hrow;
      [|discriminate].
    injection Hp as Hp. eexists. split; [reflexivity|].
    apply list_elem_of_fmap. exists (s, row). split; [reflexivity|].
    apply Hrows. split; assumption.
Qed.

(** X12. A session keeps the project it was first written under: writing
    [session/{p2}/{s}] when [s] is stored under another project replaces the
    data, which [read] returns, but [list] keeps showing [s] under its first
    project and not under [p2]. *)
Theorem session_keeps_first_project
    (now : Z) (p1 p2 s : string) (v : value) (this : backend) :
  project_id <$> sessionsMetaDB this !! s = Some p1 ->
  p1 <> p2 ->
  JSON_parse (JSON_stringify v) = Some v ->
  exists this1,
    write value JSON_stringify now ["session"; p2; s] v this = (Ok tt, this1)
    /\ read value JSON_parse ["session"; p2; s] this1 = (Ok v, this1)
    /\ (exists keys,
          MultiSqliteBackend.list ["session"; p1] this1 = (Ok keys, this1)
          /\ ["session"; p1; s] ∈ keys)
    /\ (exists keys,
          MultiSqliteBackend.list ["session"; p2] this1 = (Ok keys, this1)
          /\ ["session"; p2; s] ∉ keys).
Proof.
  intros Hp Hne Hv.
  destruct (sessionsMetaDB this !! s) as [old|] eqn:Hold; [|discriminate].
  injection Hp as Hp.
  assert (Hw : exists this1,
            write value JSON_stringify now ["session"; p2; s] v this
            = (Ok tt, this1)
            /\ sessionsMetaDB this1 !! s =
               Some {| project_id := p1; sessions_data := JSON_stringify v;
                       sessions_created_at := sessions_created_at old;
                       sessions_updated_at := now |}).
  { rewrite write_session. unfold sessions_upsert, modify. rewrite Hold.
    eexists. split; [reflexivity|]. simpl. rewrite lookup_insert_eq, Hp.
    reflexivity. }
  destruct Hw as (this1 & Hw & Hrow). exists this1. split; [exact Hw|].
  split.
  { rewrite read_session, Hrow. simpl.
    apply (parse_stringify value JSON_stringify JSON_parse), Hv. }
  assert (Hlist : forall p, exists keys,
            MultiSqliteBackend.list ["session"; p] this1 = (Ok keys, this1)
            /\ fst (MultiSqliteBackend.list ["session"; p] this1) = Ok keys).
  { intros p. destruct (list_sessions p this1) as (rows & Hl & _).
    eexists. rewrite Hl. split; reflexivity. }
  split.
  - destruct (Hlist p1) as (keys & Hl & Hfst). exists keys. split; [exact Hl|].
    destruct (proj2 (list_sessions_elem p1 s this1)) as (keys' & Hfst' & Hin).
    { rewrite Hrow. reflexivity. }
    congruence.
  - destruct (Hlist p2) as (keys & Hl & Hfst). exists keys. split; [exact Hl|].
    intros Hin.
    pose proof (proj1 (list_sessions_elem p2 s this1)
                  (ex_intro _ keys (conj Hfst Hin))) as Hp2.
    rewrite Hrow in Hp2. simpl in Hp2. congruence.
Qed.

(** X13. A key whose type is none of [session], [message] and [part] (a
    [session_diff] or [project] key, the empty key) is stored nowhere: [read]
    and [write] throw "Unknown key type", [remove] returns and [list] returns
    the empty list, all without changing anything. *)
Theorem unknown_key_type
    (now : Z) (key : list string) (v : value) (this : backend) :
  key !! 0%nat <> Some "session" ->
  key !! 0%nat <> Some "message" ->
  key !! 0%nat <> Some "part" ->
  read value JSON_parse key this =
    (Throw (Error ("Unknown key type: " +:+ template (key !! 0%nat))), this)
  /\ write value JSON_stringify now key v this =
    (Throw (Error ("Unknown key type: " +:+ template (key !! 0%nat))), this)
  /\ remove key this = (Ok tt, this)
  /\ MultiSqliteBackend.list key this = (Ok [], this).
Proof.
  intros Hs Hm Hp.
  assert (Hmp : ~ (key !! 0%nat = Some "message" \/ key !! 0%nat = Some "part"))
    by tauto.
  repeat split.
  - unfold read. unfold bind at 1. unfold gets at 1. rewrite parseKey_type.
    destruct (decide (key !! 0%nat = Some "session")); [contradiction|].
    destruct (decide (key !! 0%nat = Some "message"
                      ∨ key !! 0%nat = Some "part")); [contradiction|].
    reflexivity.
  - unfold write. unfold bind at 1. unfold gets at 1. rewrite parseKey_type.
    destruct (decide (key !! 0%nat = Some "session")); [contradiction|].
    destruct (decide (key !! 0%nat = Some "message")); [contradiction|].
    destruct (decide (key !! 0%nat = Some "part")); [contradiction|].
    reflexivity.
  - unfold remove. unfold bind at 1. unfold gets at 1. rewrite parseKey_type.
    destruct (decide (key !! 0%nat = Some "session")); [contradiction|].
    destruct (decide (key !! 0%nat = Some "message"
                      ∨ key !! 0%nat = Some "part")); [contradiction|].
    reflexivity.
  - unfold MultiSqliteBackend.list.
    destruct (decide (key !! 0%nat = Some "session")); [contradiction|].
    destruct (decide (key !! 0%nat = Some "message"
                      ∨ key !! 0%nat = Some "part")); [contradiction|].
    reflexivity.
Qed.

(** **** Removing from a session database *)

Lemma routed_cache (this this' : backend) (key : list string) :
  messageSessionCache this' = messageSessionCache this ->
  routed this' key = routed this key.
Proof. intros H. unfold routed, parseKey. rewrite H. reflexivity. Qed.

(** A longer key is routed where its prefix is. *)
Lemma routed_app (this : backend) (key more : list string) (d : string) :
  routed this key = Some d ->
  key <> [] /\ routed this (key ++ more) = Some d.
Proof.
  intros Hr. destruct key as [|t [|a key]].
  - discriminate Hr.
  - exfalso. unfold routed, parseKey in Hr. simpl in Hr.
    repeat case_decide; simpl in Hr; try discriminate; naive_solver.
  - split; [discriminate|].
    unfold routed, parseKey in *. simpl in *.
    repeat case_decide; simpl in *; try discriminate; try exact Hr;
      naive_solver.
Qed.

(** X14. [remove] of a message or part key cascades: in the database the
    key is routed to, the row of the key and every row whose key is, up to
    the case of ASCII letters, the removed key followed by ["/"] and
    anything are deleted; a [read] of any longer key then fails with
    [NotFoundError]. *)
Theorem remove_cascades (key : list string) (d : string) (this : backend) :
  routed this key = Some d ->
  fst (remove key this) = Ok tt
  /\ table d (snd (remove key this)) !! join key = None
  /\ (forall k rest,
        lowercase k = lowercase (join key +:+ "/" +:+ rest) ->
        table d (snd (remove key this)) !! k = None)
  /\ (forall more,
        more <> [] ->
        exists this2,
          read value JSON_parse (key ++ more) (snd (remove key this)) =
          (Throw (NotFoundError ("Resource not found: " +:+ join (key ++ more))),
           this2)).
Proof.
  intros Hr.
  assert (Hcascade : forall k rest,
            lowercase k = lowercase (join key +:+ "/" +:+ rest) ->
            table d (snd (remove key this)) !! k = None).
  { intros k rest Hk. rewrite (remove_routed key d) by exact Hr.
    unfold storage_delete, modify. simpl. rewrite table_set_table.
    destruct (decide (d = d)); [|congruence].
    apply map_lookup_filter_None. right. intros row _ Hkeep. apply Hkeep.
    right. simpl. apply (like_children _ _ rest), Hk. }
  destruct (remove_routed_Ok key d this Hr) as (this1 & Hrm & Hrow & Hcache).
  rewrite Hrm in *. simpl in *.
  split; [reflexivity|]. split; [exact Hrow|]. split; [exact Hcascade|].
  intros more Hmore.
  destruct (routed_app this key more d Hr) as [Hkey Hrouted].
  eexists. apply read_routed_None.
  - rewrite (routed_cache this this1) by exact Hcache. exact Hrouted.
  - rewrite join_app by assumption. apply (Hcascade _ (join more)). reflexivity.
Qed.

(** X15. [remove] of a message or part key touches one session database
    only: the sessions, the message routes and every other session database
    stay as they were, and so does every row of that database whose key is
    neither the removed key nor matched by the cascade pattern. *)
Theorem remove_keeps_the_rest (key : list string) (d : string) (this : backend) :
  routed this key = Some d ->
  sessionsMetaDB (snd (remove key this)) = sessionsMetaDB this
  /\ messageSessionCache (snd (remove key this)) = messageSessionCache this
  /\ (forall db, db <> d -> table db (snd (remove key this)) = table db this)
  /\ (forall k,
        k <> join key -> like (join key +:+ "/%") k = false ->
        table d (snd (remove key this)) !! k = table d this !! k).
Proof.
  intros Hr. rewrite (remove_routed key d) by exact Hr.
  unfold storage_delete, modify. simpl.
  split; [unfold getSessionDB; case_decide; reflexivity|].
  split; [apply getSessionDB_cache|]. split.
  - intros db Hdb. rewrite table_set_table.
    destruct (decide (db = d)); [contradiction|]. apply getSessionDB_table.
  - intros k Hk Hlike. rewrite table_set_table.
    destruct (decide (d = d)); [|congruence].
    rewrite getSessionDB_table.
    destruct (table d this !! k) as [row|] eqn:Hrow.
    + apply map_lookup_filter_Some. split; [exact Hrow|].
      simpl. intros [H|H]; [contradiction | congruence].
    + apply map_lookup_filter_None. left. exact Hrow.
Qed.

(** **** Listing *)

Global Instance newer_first_transitive : Transitive newer_first.
Proof. intros a b c. unfold newer_first. lia. Qed.

(** The rows behind [list] of a session prefix. *)
Lemma list_sessions_rows (p : string) (this : backend) :
  exists rows,
    MultiSqliteBackend.list ["session"; p] this =
      (Ok ((fun r => ["session"; p; fst r]) <$> rows), this)
    /\ NoDup (fst <$> rows)
    /\ StronglySorted newer_first rows
    /\ forall session_id row,
         (session_id, row) ∈ rows <->
         sessionsMetaDB this !! session_id = Some row /\ project_id row = p.
Proof.
  exists (merge_sort newer_first
            (map_to_list
               (filter (fun kv => project_id (snd kv) = p) (sessionsMetaDB this)))).
  split.
  - unfold MultiSqliteBackend.list. simpl.
    unfold bind, sessions_by_project, gets, ret. simpl.
    rewrite <- list_fmap_compose. reflexivity.
  - split; [|split].
    + rewrite merge_sort_Permutation. apply NoDup_fst_map_to_list.
    + apply StronglySorted_merge_sort; apply _.
    + intros session_id row.
      rewrite merge_sort_Permutation, elem_of_map_to_list,
        map_lookup_filter_Some.
      reflexivity.
Qed.

Lemma StronglySorted_lookup_lt {A} (R : relation A) (l : list A)
    (i j : nat) (x y : A) :
  StronglySorted R l -> (i < j)%nat -> l !! i = Some x -> l !! j = Some y ->
  R x y.
Proof.
  intros Hsorted Hij Hi Hj. rewrite <- (take_drop j l) in Hsorted.
  apply (StronglySorted_app_1_elem_of R _ _ x y Hsorted).
  - apply list_elem_of_lookup. exists i. rewrite lookup_take_lt by exact Hij.
    exact Hi.
  - apply list_elem_of_lookup. exists 0%nat. rewrite lookup_drop.
    rewrite Nat.add_0_r. exact Hj.
Qed.

(** X16. [list] of [session/{p}] returns each session stored under project
    [p] exactly once and no other key, the most recently updated first, and
    changes nothing. *)
Theorem list_sessions_exact_newest_first (p : string) (this : backend) :
  exists rows,
    MultiSqliteBackend.list ["session"; p] this =
      (Ok ((fun r => ["session"; p; fst r]) <$> rows), this)
    /\ NoDup (fst <$> rows)
    /\ (forall session_id row,
          (session_id, row) ∈ rows <->
          sessionsMetaDB this !! session_id = Some row /\ project_id row = p)
    /\ (forall i j r r',
          (i <= j)%nat -> rows !! i = Some r -> rows !! j = Some r' ->
          (sessions_updated_at (snd r') <= sessions_updated_at (snd r))%Z).
Proof.
  destruct (list_sessions_rows p this) as (rows & Hlist & Hnodup & Hsorted & Hin).
  exists rows. split; [exact Hlist|]. split; [exact Hnodup|].
  split; [exact Hin|].
  intros i j r r' Hij Hi Hj.
  destruct (decide (i = j)) as [->|Hne].
  - rewrite Hi in Hj. injection Hj as ->. lia.
  - apply (StronglySorted_lookup_lt newer_first rows i j r r' Hsorted);
      [lia | assumption | assumption].
Qed.

(** X17. [list] of a message or part prefix returns, split into segments,
    the keys of the rows of the database named by the second segment of the
    prefix that match [prefix/%], each once and in ascending byte order. *)
Theorem list_storage_keys_exact_sorted
    (prefix : list string) (d : string) (this : backend) :
  prefix !! 0%nat = Some "message" \/ prefix !! 0%nat = Some "part" ->
  prefix !! 1%nat = Some d ->
  exists keys,
    MultiSqliteBackend.list prefix this =
      (Ok (split <$> keys), snd (getSessionDB d this))
    /\ NoDup keys
    /\ Sorted key_le keys
    /\ forall k,
         k ∈ keys <->
         is_Some (table d this !! k) /\ like (join prefix +:+ "/%") k = true.
Proof.
  intros Ht Hd.
  assert (Hne : join prefix <> "").
  { destruct prefix as [|t [|a prefix]]; try discriminate.
    rewrite join_cons. destruct Ht as [[= ->]|[= ->]]; discriminate. }
  unfold MultiSqliteBackend.list.
  destruct (decide (prefix !! 0%nat = Some "session")) as [Hs|_].
  { rewrite Hs in Ht. destruct Ht; discriminate. }
  destruct (decide (prefix !! 0%nat = Some "message"
                    ∨ prefix !! 0%nat = Some "part")); [|contradiction].
  rewrite snd_require, Hd, bind_getSessionDB.
  unfold bind, storage_keys_like, gets, ret. rewrite getSessionDB_table.
  destruct (decide (join prefix = "")); [contradiction|].
  eexists. split; [reflexivity|]. split; [|split].
  - rewrite merge_sort_Permutation. apply NoDup_fst_map_to_list.
  - apply Sorted_merge_sort, _.
  - intros k. rewrite merge_sort_Permutation, list_elem_of_fmap. split.
    + intros [[k' row] [-> Hin]].
      apply elem_of_map_to_list, map_lookup_filter_Some in Hin as [Hrow Hlike].
      simpl in *. split; [eexists; exact Hrow | exact Hlike].
    + intros [[row Hrow] Hlike]. exists (k, row). split; [reflexivity|].
      apply elem_of_map_to_list, map_lookup_filter_Some. split; assumption.
Qed.

(** X18. A session written with a timestamp later than that of every other
    session of its project comes first in [list] of the project. *)
Theorem written_session_is_listed_first
    (now : Z) (p s : string) (v : value) (this : backend) :
  (forall row, sessionsMetaDB this !! s = Some row -> project_id row = p) ->
  (forall s' row,
     sessionsMetaDB this !! s' = Some row -> s' <> s -> project_id row = p ->
     (sessions_updated_at row < now)%Z) ->
  exists this1 rest,
    write value JSON_stringify now ["session"; p; s] v this = (Ok tt, this1)
    /\ MultiSqliteBackend.list ["session"; p] this1 =
       (Ok (["session"; p; s] :: rest), this1).
Proof.
  intros Hproject Hlater.
  assert (Hw : exists this1 row1,
            write value JSON_stringify now ["session"; p; s] v this
            = (Ok tt, this1)
            /\ sessionsMetaDB this1 = <[s := row1]> (sessionsMetaDB this)
            /\ project_id row1 = p /\ sessions_updated_at row1 = now).
  { rewrite write_session. unfold sessions_upsert, modify.
    eexists _, _. split; [reflexivity|]. simpl. split; [reflexivity|].
    destruct (sessionsMetaDB this !! s) as [old|] eqn:Hold; simpl;
      [split; [apply Hproject; reflexivity | reflexivity] | split; reflexivity]. }
  destruct Hw as (this1 & row1 & Hw & Hmeta & Hp1 & Hnow).
  destruct (list_sessions_rows p this1) as (rows & Hlist & _ & Hsorted & Hin).
  assert (Hs : (s, row1) ∈ rows).
  { apply Hin. rewrite Hmeta, lookup_insert_eq. split; [reflexivity | exact Hp1]. }
  exists this1. destruct rows as [|[s0 row0] rows]; [inversion Hs|].
  exists ((fun r => ["session"; p; fst r]) <$> rows).
  split; [exact Hw|]. rewrite Hlist. simpl.
  destruct (decide (s0 = s)) as [->|Hne]; [reflexivity|]. exfalso.
  apply StronglySorted_inv in Hsorted as [_ Hall].
  apply elem_of_cons in Hs as [[= -> ->]|Hs]; [contradiction|].
  rewrite Forall_forall in Hall. specialize (Hall _ Hs).
  unfold newer_first in Hall. simpl in Hall.
  assert (H0 : sessionsMetaDB this1 !! s0 = Some row0 /\ project_id row0 = p)
    by (apply Hin; left).
  destruct H0 as [Hrow0 Hp0].
  rewrite Hmeta, lookup_insert_ne in Hrow0 by congruence.
  specialize (Hlater s0 row0 Hrow0 Hne Hp0). lia.
Qed.

(** X19. A written message is listed: after [write(["message", s, m], v)]
    with valid segments, [list(["message", s])] contains
    [["message", s, m]]. *)
Theorem written_message_is_listed
    (now : Z) (s m : string) (v : value) (this : backend) :
  valid_segment s = true -> valid_segment m = true ->
  exists this1 keys this2,
    write value JSON_stringify now ["message"; s; m] v this = (Ok tt, this1)
    /\ MultiSqliteBackend.list ["message"; s] this1 = (Ok keys, this2)
    /\ ["message"; s; m] ∈ keys.
Proof.
  intros Hs Hm.
  destruct (write_message_Ok value JSON_stringify now s m v this)
    as (this1 & Hw & _ & Hrow).
  destruct (list_storage_keys ["message"; s] s this1) as (keys & Hlist & _ & Hin);
    [left; reflexivity | reflexivity |].
  exists this1, (split <$> keys), (snd (getSessionDB s this1)).
  split; [exact Hw|]. split; [exact Hlist|].
  apply list_elem_of_fmap. exists (join ["message"; s; m]). split.
  - symmetry. apply split_join; [discriminate|].
    simpl. rewrite Hs, Hm. reflexivity.
  - apply Hin. split.
    + destruct (table s this1 !! join ["message"; s; m]); [eauto | discriminate].
    + destruct (decide (join ["message"; s] = "")) as [He|_].
      { rewrite join_cons in He. discriminate He. }
      apply (like_children _ _ m). reflexivity.
Qed.

(** **** A later process run *)

(** What [read] returns depends on the parsed key, the sessions and the
    rows of the session databases only. *)
Lemma read_outcome (key : list string) (this this' : backend) :
  parseKey this' key = parseKey this key ->
  sessionsMetaDB this' = sessionsMetaDB this ->
  (forall db, table db this' = table db this) ->
  fst (read value JSON_parse key this') = fst (read value JSON_parse key this).
Proof.
  intros Hparsed Hmeta Htable.
  remember (fst (read value JSON_parse key this)) as r eqn:Er.
  unfold read in *. unfold bind at 1. unfold gets at 1.
  unfold bind at 1 in Er. unfold gets at 1 in Er. rewrite Hparsed.
  destruct (decide (type (parseKey this key) = Some "session")).
  { rewrite !snd_require. rewrite snd_require in Er.
    destruct (sessionID (parseKey this key)) as [d|]; [|subst; reflexivity].
    unfold bind, sessions_select, gets in *. rewrite Hmeta.
    destruct (sessions_data <$> sessionsMetaDB this !! d) as [data|];
      [|subst; reflexivity].
    unfold parse in *. destruct (JSON_parse data); subst; reflexivity. }
  destruct (decide (type (parseKey this key) = Some "message"
                    ∨ type (parseKey this key) = Some "part"));
    [|subst; reflexivity].
  destruct (truthy (sessionID (parseKey this key))) as [d|];
    [|subst; reflexivity].
  rewrite bind_getSessionDB. rewrite bind_getSessionDB in Er.
  unfold bind, storage_select, gets in *.
  rewrite getSessionDB_table, Htable. rewrite getSessionDB_table in Er.
  destruct (storage_data <$> table d this !! join key) as [data|];
    [|subst; reflexivity].
  unfold parse in *. destruct (JSON_parse data); subst; reflexivity.
Qed.

(** X20. A later process run on the same project directory reads sessions
    and messages as the earlier run did, but no part: the message routes
    are not stored, so every [read] of a part key fails with the
    session-unknown error although the rows are still in place. *)
Theorem restart_keeps_messages_loses_part_routes
    (key : list string) (m p : string) (this : backend) :
  key !! 0%nat = Some "session" \/ key !! 0%nat = Some "message" ->
  fst (read value JSON_parse key (restart this)) =
  fst (read value JSON_parse key this)
  /\ read value JSON_parse ["part"; m; p] (restart this) =
     (Throw (Error "Cannot read part: session unknown"), restart this)
  /\ (forall db, table db (restart this) = table db this).
Proof.
  intros Hkey. split; [|split].
  - apply read_outcome; [|reflexivity|reflexivity].
    unfold parseKey. destruct Hkey as [-> | ->]; reflexivity.
  - unfold read, bind, gets. rewrite parseKey_part. reflexivity.
  - reflexivity.
Qed.

Lemma write_other_row (now : Z) (key : list string) (v : value)
    (this : backend) (db k : string) :
  k <> join key ->
  table db (snd (write value JSON_stringify now key v this)) !! k =
  table db this !! k.
Proof.
  intros Hk. destruct (write_tables now key v this) as [Hsame | (d & ty & Hup)];
    [rewrite Hsame; reflexivity|].
  rewrite Hup. destruct (decide (db = d)) as [->|]; [|reflexivity].
  unfold storage_upsert, modify. simpl. rewrite table_set_table.
  destruct (decide (d = d)); [|congruence].
  apply lookup_insert_ne. congruence.
Qed.

(** X21. Writing a message makes its parts reachable again: if the database
    of session [s] holds the row of [part/{m}/{p}], then after
    [write(["message", s, m], _)], in any state and so also in a later
    process run, [read(["part", m, p])] returns the stored value. *)
Theorem message_write_restores_part_route
    (now : Z) (s m p : string) (v0 v : value) (this : backend) :
  s <> "" ->
  storage_data <$> table s this !! join ["part"; m; p] = Some (JSON_stringify v) ->
  JSON_parse (JSON_stringify v) = Some v ->
  exists this1 this2,
    write value JSON_stringify now ["message"; s; m] v0 this = (Ok tt, this1)
    /\ read value JSON_parse ["part"; m; p] this1 = (Ok v, this2).
Proof.
  intros Hs Hrow Hv.
  destruct (write_message_Ok value JSON_stringify now s m v0 this)
    as (this1 & Hw & Hm & _).
  exists this1, (snd (getSessionDB s this1)). split; [exact Hw|].
  apply (read_routed_Some value JSON_stringify JSON_parse);
    [apply routed_part; assumption | | exact Hv].
  replace this1 with
    (snd (write value JSON_stringify now ["message"; s; m] v0 this))
    by (rewrite Hw; reflexivity).
  rewrite write_other_row; [exact Hrow|].
  intros H. apply (f_equal (String.get 0)) in H. vm_compute in H. discriminate H.
Qed.

End MultiSqliteMore.

(** *** The legacy JSON backend *)

Section JsonMore.
Import JsonBackend.

Variable value : Type.
Variable JSON_stringify : value -> string.
Variable JSON_parse : string -> option value.
Variable dir : list string.

(** X22. Round trip of the legacy backend, on every key whose file can be
    written: a [read] after a [write] returns the value written, and of two
    writes the second replaces the first altogether, leaving the tree that
    it leaves alone. *)
Theorem json_write_read (key : list string) (v1 v2 : value) (fs fs1 : files) :
  JSON_parse (JSON_stringify v2) = Some v2 ->
  write value JSON_stringify dir key v1 fs = (Ok tt, fs1) ->
  exists fs2,
    write value JSON_stringify dir key v2 fs1 = (Ok tt, fs2)
    /\ read value JSON_parse dir key fs2 = (Ok v2, fs2)
    /\ write value JSON_stringify dir key v2 fs = (Ok tt, fs2).
Proof.
  intros Hv Hw1.
  pose proof (json_write_Ok value JSON_stringify dir key v1 fs fs1 Hw1)
    as (Hfs1 & Hdir & Hnotdir & Hstat1).
  set (t := target dir key) in *.
  exists (<[t := File (JSON_stringify v2)]> (mkdir_p t fs1)).
  assert (Hw2 : write value JSON_stringify dir key v2 fs1 =
                (Ok tt, <[t := File (JSON_stringify v2)]> (mkdir_p t fs1))).
  { rewrite json_write_eq. fold t. rewrite Hstat1. reflexivity. }
  split; [exact Hw2|]. split.
  - apply json_read_Ok. split; [reflexivity|].
    exists (JSON_stringify v2). split; [|exact Hv].
    apply (json_write_Ok value JSON_stringify dir key v2 fs1), Hw2.
  - rewrite json_write_eq. fold t.
    assert (Heq : <[t := File (JSON_stringify v2)]> (mkdir_p t fs) =
                  <[t := File (JSON_stringify v2)]> (mkdir_p t fs1)).
    { unfold files in *. apply map_eq. intros q.
      destruct (decide (q = t)) as [->|Hq].
      - rewrite !lookup_insert_eq. reflexivity.
      - rewrite !lookup_insert_ne by congruence.
        destruct (lookup_mkdir_p t q fs1) as [(k & Hk & -> & Hl)|[Hall Hl]].
        + etransitivity; [apply lookup_mkdir_p_take, Hk | symmetry; exact Hl].
        + etransitivity; [|symmetry; exact Hl].
          rewrite Hfs1. symmetry. apply lookup_insert_ne. congruence. }
    destruct (stat fs t); try contradiction; rewrite Heq; reflexivity.
Qed.

(** X23. [update] of the legacy backend is [read] followed by [write]: when
    the [read] fails, on a missing file with [NotFoundError], it fails in
    the same way and nothing is written; on a file holding [v] the write
    succeeds, [update] returns [fn v] and leaves the tree that
    [write(key, fn v)] leaves. *)
Theorem json_update (key : list string) (fn : value -> value) (fs : files) :
  (forall e,
     read value JSON_parse dir key fs = (Throw e, fs) ->
     update value JSON_stringify JSON_parse dir key fn fs = (Throw e, fs))
  /\ (stat fs (target dir key) = ENOENT ->
      update value JSON_stringify JSON_parse dir key fn fs =
      (Throw (NotFoundError
                ("Resource not found: " +:+ path_string (target dir key))), fs))
  /\ (forall v,
        read value JSON_parse dir key fs = (Ok v, fs) ->
        exists fs1,
          write value JSON_stringify dir key (fn v) fs = (Ok tt, fs1)
          /\ update value JSON_stringify JSON_parse dir key fn fs = (Ok (fn v), fs1)).
Proof.
  split; [|split].
  - intros e. rewrite json_read_eq. unfold update, bind, gets.
    destruct (stat fs (target dir key)) as [text| | |]; try (intros H; exact H).
    destruct (JSON_parse text); [discriminate | intros H; exact H].
  - intros H. unfold update, bind, gets. rewrite H. reflexivity.
  - intros v Hread. apply json_read_Ok in Hread as [_ (text & Hs & Hv)].
    rewrite json_write_eq. unfold update, Bun_write, bind, gets.
    rewrite Hs, Hv, Hs. eexists. split; reflexivity.
Qed.

(** X24. A [write] of the legacy backend that succeeds changes one file
    and creates the directories above it: every other key that is stored,
    one whose file is another file, reads as before, and keys with valid
    segments that differ have different files. *)
Theorem json_write_keeps_other_keys
    (key key' : list string) (v v' : value) (fs fs1 : files) :
  write value JSON_stringify dir key v fs = (Ok tt, fs1) ->
  target dir key' <> target dir key
  \/ (valid_key key = true /\ valid_key key' = true
      /\ key <> [] /\ key' <> [] /\ key' <> key) ->
  read value JSON_parse dir key' fs = (Ok v', fs) ->
  read value JSON_parse dir key' fs1 = (Ok v', fs1).
Proof.
  intros Hw Hne Hread.
  assert (Ht : target dir key' <> target dir key).
  { destruct Hne as [H|(Hk & Hk' & Hn & Hn' & Hdiff)]; [exact H|].
    intros Ht. apply Hdiff. symmetry. apply (target_inj dir); try assumption.
    symmetry. exact Ht. }
  apply json_read_Ok in Hread as [_ (text & Hs & Hv)].
  apply json_read_Ok. split; [reflexivity|]. exists text. split; [|exact Hv].
  eapply json_write_frame; eassumption.
Qed.

(** X25. In the legacy backend, after a [write(k, v)] that succeeds,
    [remove(k)] and then [read(k)] ends in [NotFoundError] naming the file
    of the key; the directories the write created stay. *)
Theorem json_write_remove_read (key : list string) (v : value) (fs fs1 : files) :
  write value JSON_stringify dir key v fs = (Ok tt, fs1) ->
  exists fs2,
    remove dir key fs1 = (Ok tt, fs2)
    /\ read value JSON_parse dir key fs2 =
       (Throw (NotFoundError
                 ("Resource not found: " +:+ path_string (target dir key))), fs2)
    /\ fs2 = delete (target dir key) fs1.
Proof.
  intros Hw.
  pose proof (json_write_Ok value JSON_stringify dir key v fs fs1 Hw)
    as (_ & _ & _ & Hstat).
  exists (delete (target dir key) fs1).
  rewrite json_remove_eq, Hstat. split; [reflexivity|]. split; [|reflexivity].
  rewrite json_read_eq.
  apply stat_Regular in Hstat as (Hnil & _ & Hd).
  rewrite (stat_ENOENT _ _ Hnil); [reflexivity| |].
  - intros k Hk. unfold files in *.
    rewrite lookup_delete_ne by (apply not_eq_sym, take_ne_self; lia).
    apply Hd, Hk.
  - unfold files in *. apply lookup_delete_eq.
Qed.

End JsonMore.

(** *** The single-database backend *)

Section SqliteMore.
Import SqliteBackend.
Local Abbreviation list := Datatypes.list.

Variable value : Type.
Variable JSON_stringify : value -> string.
Variable JSON_parse : string -> option value.

Lemma sqlite_write (now : Z) (t : string) (key : list string) (v : value)
    (this : backend) :
  exists row,
    write value JSON_stringify now (t :: key) v this =
    (Ok tt, <[join (t :: key) := row]> this)
    /\ data row = JSON_stringify v.
Proof.
  unfold write, bind, modify. simpl.
  eexists. split; [reflexivity|].
  destruct (this !! join (t :: key)); reflexivity.
Qed.

(** X26. Round trip of the single-database backend, for every key with at
    least one segment and from every state: [write] succeeds, a following
    [read] returns the value, and of two writes the last wins. *)
Theorem sqlite_write_read
    (now1 now2 : Z) (t : string) (key : list string) (v1 v2 : value)
    (this : backend) :
  JSON_parse (JSON_stringify v2) = Some v2 ->
  exists this1 this2,
    write value JSON_stringify now1 (t :: key) v1 this = (Ok tt, this1)
    /\ write value JSON_stringify now2 (t :: key) v2 this1 = (Ok tt, this2)
    /\ read value JSON_parse (t :: key) this2 = (Ok v2, this2).
Proof.
  intros Hv.
  destruct (sqlite_write now1 t key v1 this) as (row1 & Hw1 & _).
  destruct (sqlite_write now2 t key v2 (<[join (t :: key) := row1]> this))
    as (row2 & Hw2 & Hdata).
  eexists _, _. split; [exact Hw1|]. split; [exact Hw2|].
  unfold read, bind, gets. unfold backend in *.
  rewrite lookup_insert_eq, Hdata, Hv. reflexivity.
Qed.

(** X27. [remove] of the single-database backend cascades: the row of the
    key and every row whose key is, up to the case of ASCII letters, the
    key followed by ["/"] and anything are deleted, so that [read] of the
    key and of every longer key fails with [NotFoundError]; every row
    that is neither the key nor matched by the pattern stays. *)
Theorem sqlite_remove_cascades (key : list string) (this : backend) :
  fst (remove key this) = Ok tt
  /\ (forall k rest,
        k = join key \/ lowercase k = lowercase (join key +:+ "/" +:+ rest) ->
        snd (remove key this) !! k = None)
  /\ (forall more,
        key <> [] ->
        read value JSON_parse (key ++ more) (snd (remove key this)) =
        (Throw (NotFoundError ("Resource not found: " +:+ join (key ++ more))),
         snd (remove key this)))
  /\ (forall k,
        k <> join key -> like (join key +:+ "/%") k = false ->
        snd (remove key this) !! k = this !! k).
Proof.
  assert (Hgone : forall k rest,
            k = join key \/ lowercase k = lowercase (join key +:+ "/" +:+ rest) ->
            snd (remove key this) !! k = None).
  { intros k rest Hk. unfold remove, modify. simpl.
    apply map_lookup_filter_None. right. intros row _ Hkeep. apply Hkeep.
    simpl. destruct Hk as [->|Hk]; [left; reflexivity | right].
    apply (like_children _ _ rest), Hk. }
  split; [reflexivity|]. split; [exact Hgone|]. split.
  - intros more Hkey. unfold read, bind, gets.
    assert (Hnone : snd (remove key this) !! join (key ++ more) = None).
    { destruct more as [|c more].
      - rewrite app_nil_r. apply (Hgone _ ""). left. reflexivity.
      - rewrite join_app by (assumption || discriminate).
        apply (Hgone _ (join (c :: more))). right. reflexivity. }
    rewrite Hnone. reflexivity.
  - intros k Hk Hlike. unfold remove, modify. simpl.
    destruct (this !! k) as [row|] eqn:Hrow.
    + apply map_lookup_filter_Some. split; [exact Hrow|].
      simpl. intros [H|H]; [contradiction | congruence].
    + apply map_lookup_filter_None. left. exact Hrow.
Qed.

(** The rows behind [list]. *)
Lemma sqlite_list_elem (prefix : list string) (this : backend) (k : string) :
  k ∈ merge_sort key_le
        (fst <$> map_to_list
           (filter (fun kv => like (if decide (join prefix = "") then "%"
                                    else join prefix +:+ "/%") (fst kv) = true)
              this))
  <-> is_Some (this !! k)
      /\ (join prefix = "" \/ like (join prefix +:+ "/%") k = true).
Proof.
  rewrite merge_sort_Permutation, list_elem_of_fmap. split.
  - intros [[k' row] [-> Hin]].
    apply elem_of_map_to_list, map_lookup_filter_Some in Hin as [Hrow Hlike].
    simpl in *. split; [eexists; exact Hrow|].
    destruct (decide (join prefix = "")); [left; assumption | right; exact Hlike].
  - intros [[row Hrow] Hlike]. exists (k, row). split; [reflexivity|].
    apply elem_of_map_to_list, map_lookup_filter_Some. split; [exact Hrow|].
    simpl. destruct (decide (join prefix = "")) as [He|Hne].
    + apply like_percent.
    + destruct Hlike as [He|Hlike]; [contradiction | exact Hlike].
Qed.

(** X28. [list] of the single-database backend returns, split into
    segments, the keys that match [prefix/%], each once and in ascending
    byte order, and every stored key for the empty prefix; it changes
    nothing. *)
Theorem sqlite_list_exact_sorted (prefix : list string) (this : backend) :
  exists keys,
    SqliteBackend.list prefix this = (Ok (split <$> keys), this)
    /\ NoDup keys
    /\ Sorted key_le keys
    /\ (forall k,
          k ∈ keys <->
          is_Some (this !! k)
          /\ (join prefix = "" \/ like (join prefix +:+ "/%") k = true)).
Proof.
  unfold SqliteBackend.list, bind, gets, ret. simpl.
  eexists. split; [reflexivity|]. split; [|split].
  - rewrite merge_sort_Permutation. apply NoDup_fst_map_to_list.
  - apply Sorted_merge_sort, _.
  - apply sqlite_list_elem.
Qed.

(** X29. In the single-database backend a written key is listed under each
    of its proper prefixes: after [write(prefix ++ more, v)] with valid
    segments, [list(prefix)] contains [prefix ++ more]. *)
Theorem sqlite_written_key_is_listed
    (now : Z) (prefix more : list string) (v : value) (this : backend) :
  prefix <> [] -> more <> [] -> valid_key (prefix ++ more) = true ->
  exists this1 keys,
    write value JSON_stringify now (prefix ++ more) v this = (Ok tt, this1)
    /\ SqliteBackend.list prefix this1 = (Ok keys, this1)
    /\ prefix ++ more ∈ keys.
Proof.
  intros Hp Hm Hvalid.
  destruct prefix as [|t prefix]; [contradiction|].
  destruct (sqlite_write now t (prefix ++ more) v this) as (row & Hw & _).
  eexists _, _. split; [exact Hw|].
  unfold SqliteBackend.list, bind, gets, ret. simpl fst. simpl snd.
  split; [reflexivity|].
  apply list_elem_of_fmap. exists (join ((t :: prefix) ++ more)). split.
  - symmetry. apply split_join; [discriminate | exact Hvalid].
  - apply sqlite_list_elem. split.
    + simpl app. unfold backend in *. rewrite lookup_insert_eq. eauto.
    + right. rewrite join_app by assumption.
      apply (like_children _ _ (join more)). reflexivity.
Qed.

End SqliteMore.

(** *** The further properties at concrete inputs *)

Lemma delay_no_headers_capped_monotone_witness :
  (2000 <= SessionRetry.delay SessionRetry.parseDigits SessionRetry.noDate 0%Q
             SessionRetry.no_headers 4)%Q
  /\ (SessionRetry.delay SessionRetry.parseDigits SessionRetry.noDate 0%Q
        SessionRetry.no_headers 4 <= 30000)%Q
  /\ (SessionRetry.delay SessionRetry.parseDigits SessionRetry.noDate 0%Q
        SessionRetry.no_headers 4
      <= SessionRetry.delay SessionRetry.parseDigits SessionRetry.noDate 1%Q
           SessionRetry.no_headers (4 + 1))%Q.
Proof.
  apply (delay_no_headers_capped_monotone SessionRetry.parseDigits
           SessionRetry.noDate 0%Q 1%Q 4). lia.
Defined.

Lemma delay_no_headers_saturates_witness :
  SessionRetry.delay SessionRetry.parseDigits SessionRetry.noDate 0%Q
    SessionRetry.no_headers 3 = (2000 * 2 ^ (3 - 1))%Q
  /\ SessionRetry.delay SessionRetry.parseDigits SessionRetry.noDate 0%Q
       SessionRetry.no_headers 7 = 30000%Q.
Proof.
  split.
  - apply (proj1 (delay_no_headers_saturates SessionRetry.parseDigits
                    SessionRetry.noDate 0%Q 3)). lia.
  - apply (proj2 (delay_no_headers_saturates SessionRetry.parseDigits
                    SessionRetry.noDate 0%Q 7)). lia.
Defined.

Lemma getRetryDelayInMs_no_headers_threshold_witness :
  SessionRetry.getRetryDelayInMs SessionRetry.parseDigits SessionRetry.noDate
    0%Q SessionRetry.no_headers 9 = Some (2000 * 2 ^ (9 - 1))%Q
  /\ SessionRetry.getRetryDelayInMs SessionRetry.parseDigits SessionRetry.noDate
       0%Q SessionRetry.no_headers 12 = None.
Proof.
  split.
  - apply (proj1 (getRetryDelayInMs_no_headers_threshold SessionRetry.parseDigits
                    SessionRetry.noDate 0%Q 9)). lia.
  - apply (proj2 (getRetryDelayInMs_no_headers_threshold SessionRetry.parseDigits
                    SessionRetry.noDate 0%Q 12)). lia.
Defined.



Lemma getBoundedDelay_shrinks_with_time_witness :
  exists d,
    SessionRetry.getBoundedDelay SessionRetry.parseDigits SessionRetry.noDate
      0%Q 0%Q
      {| SessionRetry.error :=
           {| SessionRetry.responseHeaders := Some {[ "retry-after" := "2" ]} |};
         SessionRetry.attempt := 3;
         SessionRetry.startTime := 0%Q;
         SessionRetry.maxDuration := None |} = Some d
    /\ (1000 <= d)%Q.
Proof.
  apply (getBoundedDelay_shrinks_with_time SessionRetry.parseDigits
           SessionRetry.noDate 0%Q 0%Q 599000%Q 599000%Q
           {| SessionRetry.error :=
                {| SessionRetry.responseHeaders :=
                     Some {[ "retry-after" := "2" ]} |};
              SessionRetry.attempt := 3;
              SessionRetry.startTime := 0%Q;
              SessionRetry.maxDuration := None |} 1000%Q);
    [intros headers s _ _; right; reflexivity | discriminate | reflexivity].
Defined.

Lemma write_write_read_witness :
  MultiSqliteBackend.supported MultiSqliteBackend.fresh ["session"; "p"; "s1"] = true
  /\ exists this1 this2 this3,
       MultiSqliteBackend.write string text_stringify 1 ["session"; "p"; "s1"] "a"
         MultiSqliteBackend.fresh = (Ok tt, this1)
       /\ MultiSqliteBackend.write string text_stringify 2 ["session"; "p"; "s1"] "b"
            this1 = (Ok tt, this2)
       /\ MultiSqliteBackend.read string text_parse ["session"; "p"; "s1"] this2
          = (Ok "b", this3).
Proof.
  split; [reflexivity|].
  exact (write_write_read string text_stringify text_parse
           MultiSqliteBackend.fresh 1 2 ["session"; "p"; "s1"] "a" "b"
           eq_refl eq_refl).
Defined.

Lemma update_of_failed_read_witness :
  MultiSqliteBackend.update string text_stringify text_parse 1
    ["session"; "p"; "s1"] (fun x => x) MultiSqliteBackend.fresh
  = (Throw (NotFoundError "Resource not found: session/p/s1"),
     MultiSqliteBackend.fresh).
Proof.
  exact (proj1 (update_of_failed_read string text_stringify text_parse 1
                  ["session"; "p"; "s1"] (fun x => x)
                  (NotFoundError "Resource not found: session/p/s1")
                  MultiSqliteBackend.fresh MultiSqliteBackend.fresh eq_refl)).
Defined.

Lemma update_stores_new_value_witness :
  exists this2,
    MultiSqliteBackend.update string text_stringify text_parse 2
      ["session"; "p"; "s1"] (fun x => x +:+ "!")
      (snd (MultiSqliteBackend.write string text_stringify 1
              ["session"; "p"; "s1"] "v" MultiSqliteBackend.fresh))
    = (Ok "v!", this2)
    /\ (text_parse (text_stringify "v!") = Some "v!" ->
        exists this3,
          MultiSqliteBackend.read string text_parse ["session"; "p"; "s1"] this2
          = (Ok "v!", this3)).
Proof.
  exact (update_stores_new_value string text_stringify text_parse 2
           ["session"; "p"; "s1"] (fun x => x +:+ "!") "v"
           (snd (MultiSqliteBackend.write string text_stringify 1
                   ["session"; "p"; "s1"] "v" MultiSqliteBackend.fresh))
           (snd (MultiSqliteBackend.write string text_stringify 1
                   ["session"; "p"; "s1"] "v" MultiSqliteBackend.fresh))
           eq_refl eq_refl).
Defined.

Lemma write_keeps_rows_witness :
  exists row',
    MultiSqliteBackend.table "s"
      (snd (MultiSqliteBackend.write string text_stringify 2
              ["message"; "s"; "m"] "w"
              (snd (MultiSqliteBackend.write string text_stringify 1
                      ["message"; "s"; "m"] "v" MultiSqliteBackend.fresh))))
      !! "message/s/m" = Some row'
    /\ MultiSqliteBackend.storage_created_at row' = 1%Z
    /\ MultiSqliteBackend.storage_type row' = "message".
Proof.
  destruct (write_keeps_rows string text_stringify 2 ["message"; "s"; "m"] "w"
              (snd (MultiSqliteBackend.write string text_stringify 1
                      ["message"; "s"; "m"] "v" MultiSqliteBackend.fresh))
              "s" "message/s/m"
              {| MultiSqliteBackend.storage_type := "message";
                 MultiSqliteBackend.storage_data := "v";
                 MultiSqliteBackend.storage_created_at := 1;
                 MultiSqliteBackend.storage_updated_at := 1 |}
              eq_refl) as (row' & Hrow & Hcreated & Htype & _).
  exists row'. split; [exact Hrow|]. split; assumption.
Defined.

Lemma session_keeps_first_project_witness :
  exists this1,
    MultiSqliteBackend.write string text_stringify 2 ["session"; "p2"; "s"] "w"
      (snd (MultiSqliteBackend.write string text_stringify 1
              ["session"; "p1"; "s"] "v" MultiSqliteBackend.fresh))
    = (Ok tt, this1)
    /\ MultiSqliteBackend.read string text_parse ["session"; "p2"; "s"] this1
       = (Ok "w", this1)
    /\ (exists keys,
          MultiSqliteBackend.list ["session"; "p1"] this1 = (Ok keys, this1)
          /\ ["session"; "p1"; "s"] ∈ keys)
    /\ (exists keys,
          MultiSqliteBackend.list ["session"; "p2"] this1 = (Ok keys, this1)
          /\ ["session"; "p2"; "s"] ∉ keys).
Proof.
  apply (session_keeps_first_project string text_stringify text_parse 2
           "p1" "p2" "s" "w"
           (snd (MultiSqliteBackend.write string text_stringify 1
                   ["session"; "p1"; "s"] "v" MultiSqliteBackend.fresh)));
    [reflexivity | discriminate | reflexivity].
Defined.

Lemma unknown_key_type_witness :
  MultiSqliteBackend.read string text_parse ["project"; "x"]
    MultiSqliteBackend.fresh
  = (Throw (Error "Unknown key type: project"), MultiSqliteBackend.fresh)
  /\ MultiSqliteBackend.remove ["project"; "x"] MultiSqliteBackend.fresh
     = (Ok tt, MultiSqliteBackend.fresh).
Proof.
  destruct (unknown_key_type string text_stringify text_parse 1
              ["project"; "x"] "v" MultiSqliteBackend.fresh)
    as (Hread & _ & Hremove & _); try discriminate.
  split; [exact Hread | exact Hremove].
Defined.

Lemma remove_cascades_witness :
  MultiSqliteBackend.routed sample ["message"; "s"; "m"] = Some "s"
  /\ (is_Some (MultiSqliteBackend.table "s" sample !! "message/s/m")
      /\ MultiSqliteBackend.table "s"
           (snd (MultiSqliteBackend.remove ["message"; "s"; "m"] sample))
           !! "message/s/m" = None)
  /\ (is_Some (MultiSqliteBackend.table "s" sample !! "message/s/M/x")
      /\ MultiSqliteBackend.table "s"
           (snd (MultiSqliteBackend.remove ["message"; "s"; "m"] sample))
           !! "message/s/M/x" = None).
Proof.
  pose proof (remove_cascades string text_parse ["message"; "s"; "m"] "s"
                sample eq_refl) as (_ & Hkey & Hbelow & _).
  split; [reflexivity|]. split.
  - split; [eexists; reflexivity | exact Hkey].
  - split; [eexists; reflexivity|].
    apply (Hbelow "message/s/M/x" "x"). reflexivity.
Defined.

Lemma remove_keeps_the_rest_witness :
  MultiSqliteBackend.routed sample ["message"; "s"; "m"] = Some "s"
  /\ "message/s/n" <> join ["message"; "s"; "m"]
  /\ like (join ["message"; "s"; "m"] +:+ "/%") "message/s/n" = false
  /\ MultiSqliteBackend.storage_data <$>
       MultiSqliteBackend.table "s"
         (snd (MultiSqliteBackend.remove ["message"; "s"; "m"] sample))
         !! "message/s/n" = Some "4".
Proof.
  pose proof (remove_keeps_the_rest ["message"; "s"; "m"] "s" sample eq_refl)
    as (_ & _ & _ & Hkept).
  split; [reflexivity|]. split; [discriminate|]. split; [reflexivity|].
  rewrite (Hkept "message/s/n" ltac:(discriminate) eq_refl). reflexivity.
Defined.

Lemma list_storage_keys_exact_sorted_witness :
  exists keys,
    MultiSqliteBackend.list ["message"; "s"; "m_"] sample =
      (Ok (split <$> keys), snd (MultiSqliteBackend.getSessionDB "s" sample))
    /\ "message/s/mé/y" ∈ keys
    /\ "message/s/m/x" ∉ keys.
Proof.
  destruct (list_storage_keys_exact_sorted ["message"; "s"; "m_"] "s" sample
              (or_introl eq_refl) eq_refl)
    as (keys & Hlist & _ & _ & Hkeys).
  exists keys. split; [exact Hlist|]. split.
  - apply Hkeys. split; [eexists; reflexivity | reflexivity].
  - intros Hin. apply Hkeys in Hin as [_ Hlike]. discriminate Hlike.
Defined.

Lemma written_session_is_listed_first_witness :
  exists this1 rest,
    MultiSqliteBackend.write string text_stringify 5 ["session"; "p"; "s2"] "v"
      (snd (MultiSqliteBackend.write string text_stringify 1
              ["session"; "p"; "s1"] "v" MultiSqliteBackend.fresh))
    = (Ok tt, this1)
    /\ MultiSqliteBackend.list ["session"; "p"] this1 =
       (Ok (["session"; "p"; "s2"] :: rest), this1).
Proof.
  apply (written_session_is_listed_first string text_stringify 5 "p" "s2" "v"
           (snd (MultiSqliteBackend.write string text_stringify 1
                   ["session"; "p"; "s1"] "v" MultiSqliteBackend.fresh))).
  - intros row H. vm_compute in H. discriminate H.
  - intros s' row H Hne _.
    destruct (decide (s' = "s1")) as [->|Hs1].
    + vm_compute in H. injection H as <-. reflexivity.
    + exfalso. unfold MultiSqliteBackend.write, bind, gets, modify in H.
      simpl in H. rewrite lookup_insert_ne in H by congruence.
      rewrite lookup_empty in H. discriminate H.
Defined.

Lemma written_message_is_listed_witness :
  valid_segment "s" = true /\ valid_segment "m" = true
  /\ exists this1 keys this2,
       MultiSqliteBackend.write string text_stringify 1 ["message"; "s"; "m"] "v"
         MultiSqliteBackend.fresh = (Ok tt, this1)
       /\ MultiSqliteBackend.list ["message"; "s"] this1 = (Ok keys, this2)
       /\ ["message"; "s"; "m"] ∈ keys.
Proof.
  split; [reflexivity|]. split; [reflexivity|].
  exact (written_message_is_listed string text_stringify 1 "s" "m" "v"
           MultiSqliteBackend.fresh eq_refl eq_refl).
Defined.

Lemma restart_keeps_messages_loses_part_routes_witness :
  fst (MultiSqliteBackend.read string text_parse ["message"; "s"; "m"]
         (MultiSqliteBackend.restart
            (snd (MultiSqliteBackend.write string text_stringify 1
                    ["message"; "s"; "m"] "v" MultiSqliteBackend.fresh))))
  = fst (MultiSqliteBackend.read string text_parse ["message"; "s"; "m"]
           (snd (MultiSqliteBackend.write string text_stringify 1
                   ["message"; "s"; "m"] "v" MultiSqliteBackend.fresh))).
Proof.
  exact (proj1 (restart_keeps_messages_loses_part_routes string text_parse
                  ["message"; "s"; "m"] "m" "p"
                  (snd (MultiSqliteBackend.write string text_stringify 1
                          ["message"; "s"; "m"] "v" MultiSqliteBackend.fresh))
                  (or_intror eq_refl))).
Defined.

Lemma message_write_restores_part_route_witness :
  exists this1 this2,
    MultiSqliteBackend.write string text_stringify 3 ["message"; "s"; "m"] "v0"
      (MultiSqliteBackend.restart
         (snd ((MultiSqliteBackend.write string text_stringify 1
                  ["message"; "s"; "m"] "v0" ;;
                MultiSqliteBackend.write string text_stringify 2
                  ["part"; "m"; "p"] "v") MultiSqliteBackend.fresh)))
    = (Ok tt, this1)
    /\ MultiSqliteBackend.read string text_parse ["part"; "m"; "p"] this1
       = (Ok "v", this2).
Proof.
  apply (message_write_restores_part_route string text_stringify text_parse 3
           "s" "m" "p" "v0" "v");
    [discriminate | reflexivity | reflexivity].
Defined.

Lemma json_write_read_witness :
  exists fs2,
    JsonBackend.write string text_stringify ["data"] ["a"; "b"] "v"
      (snd (JsonBackend.write string text_stringify ["data"] ["a"; "b"] "u" ∅))
    = (Ok tt, fs2)
    /\ JsonBackend.read string text_parse ["data"] ["a"; "b"] fs2 = (Ok "v", fs2)
    /\ JsonBackend.write string text_stringify ["data"] ["a"; "b"] "v" ∅
       = (Ok tt, fs2).
Proof.
  apply (json_write_read string text_stringify text_parse ["data"] ["a"; "b"]
           "u" "v" ∅); reflexivity.
Defined.

Lemma json_update_witness :
  exists fs1,
    JsonBackend.write string text_stringify ["data"] ["a"] "1!"
      {[ ["data"] := JsonBackend.Directory;
         ["data"; "a.json"] := JsonBackend.File "1" ]} = (Ok tt, fs1)
    /\ JsonBackend.update string text_stringify text_parse ["data"] ["a"]
         (fun x => x +:+ "!")
         {[ ["data"] := JsonBackend.Directory;
            ["data"; "a.json"] := JsonBackend.File "1" ]} = (Ok "1!", fs1).
Proof.
  apply (proj2 (proj2 (json_update string text_stringify text_parse ["data"] ["a"]
                         (fun x => x +:+ "!")
                         {[ ["data"] := JsonBackend.Directory;
                            ["data"; "a.json"] := JsonBackend.File "1" ]})) "1").
  reflexivity.
Defined.

Lemma json_write_keeps_other_keys_witness :
  JsonBackend.read string text_parse ["data"] ["b"]
    (snd (JsonBackend.write string text_stringify ["data"] ["a"] "v"
            {[ ["data"] := JsonBackend.Directory;
               ["data"; "b.json"] := JsonBackend.File "1" ]}))
  = (Ok "1",
     snd (JsonBackend.write string text_stringify ["data"] ["a"] "v"
            {[ ["data"] := JsonBackend.Directory;
               ["data"; "b.json"] := JsonBackend.File "1" ]})).
Proof.
  apply (json_write_keeps_other_keys string text_stringify text_parse ["data"]
           ["a"] ["b"] "v" "1"
           {[ ["data"] := JsonBackend.Directory;
              ["data"; "b.json"] := JsonBackend.File "1" ]}).
  - reflexivity.
  - right. repeat split; discriminate || reflexivity.
  - reflexivity.
Defined.

Lemma json_write_remove_read_witness :
  exists fs2,
    JsonBackend.remove ["data"] ["a"; "b"]
      (snd (JsonBackend.write string text_stringify ["data"] ["a"; "b"] "v" ∅))
    = (Ok tt, fs2)
    /\ JsonBackend.read string text_parse ["data"] ["a"; "b"] fs2 =
       (Throw (NotFoundError "Resource not found: /data/a/b.json"), fs2)
    /\ fs2 = delete (JsonBackend.target ["data"] ["a"; "b"])
               (snd (JsonBackend.write string text_stringify ["data"] ["a"; "b"]
                       "v" ∅)).
Proof.
  apply (json_write_remove_read string text_stringify text_parse ["data"]
           ["a"; "b"] "v" ∅). reflexivity.
Defined.

Lemma sqlite_write_read_witness :
  exists this1 this2,
    SqliteBackend.write string text_stringify 1 ["session_diff"; "s"] "a"
      SqliteBackend.fresh = (Ok tt, this1)
    /\ SqliteBackend.write string text_stringify 2 ["session_diff"; "s"] "b"
         this1 = (Ok tt, this2)
    /\ SqliteBackend.read string text_parse ["session_diff"; "s"] this2
       = (Ok "b", this2).
Proof.
  exact (sqlite_write_read string text_stringify text_parse 1 2
           "session_diff" ["s"] "a" "b" SqliteBackend.fresh eq_refl).
Defined.

Lemma sqlite_remove_cascades_witness :
  snd (SqliteBackend.remove ["part"; "m"]
         (snd (SqliteBackend.write string text_stringify 1 ["part"; "m"; "p"]
                 "v" SqliteBackend.fresh)))
    !! "part/m/p" = None.
Proof.
  apply (proj1 (proj2 (sqlite_remove_cascades string text_parse ["part"; "m"]
                         (snd (SqliteBackend.write string text_stringify 1
                                 ["part"; "m"; "p"] "v" SqliteBackend.fresh))))
           "part/m/p" "p").
  right. reflexivity.
Defined.

Lemma sqlite_written_key_is_listed_witness :
  exists this1 keys,
    SqliteBackend.write string text_stringify 1 (["part"; "m"] ++ ["p"]) "v"
      SqliteBackend.fresh = (Ok tt, this1)
    /\ SqliteBackend.list ["part"; "m"] this1 = (Ok keys, this1)
    /\ ["part"; "m"] ++ ["p"] ∈ keys.
Proof.
  apply (sqlite_written_key_is_listed string text_stringify 1
           ["part"; "m"] ["p"] "v" SqliteBackend.fresh);
    [discriminate | discriminate | reflexivity].
Defined.
